(** * Verification of the ESP-01 clock / weather firmware

    A shallow embedding of the sketch (firmware v1.1.37, with the older
    sketch hu-061.ino, v1.0.0, where the two differ): the persistent
    configuration store ([loadSettings], [saveSettings]), the button-driven
    mode machine of [loop], the two network task handlers
    ([handleWeatherTask], [handleForecastTask]) with the weather parser
    ([parseWeatherData]), and the firmware update engine
    ([checkForFirmwareUpdate], [startOTAUpdate]).

    Conventions of the embedding:
    - an Arduino [String] is a [string] (a sequence of 8-bit characters);
    - [unsigned long] values are [Z] with the wrap-around modulo 2^32
      written out where the code subtracts timestamps;
    - the EEPROM shadow buffer is a [list Z] of bytes, updated by index;
    - calls that leave the sketch (radio, sockets, flash updater, clock)
      take their results from an explicit environment record, and the
      calls that matter to a property are logged as effects. *)

From Stdlib Require Import ZArith List String Ascii Bool Lia SpecFloat.
From stdpp Require Import base list.

Import ListNotations.
Local Open Scope Z_scope.

(** ** Arduino [String] operations used by the sketch *)

Module WString.

Definition char_code (c : ascii) : Z := Z.of_N (N_of_ascii c).
Definition char_of_code (z : Z) : ascii := ascii_of_N (Z.to_N (z mod 256)).

Definition len (s : string) : Z := Z.of_nat (String.length s).

Definition isEmpty (s : string) : bool :=
  match s with EmptyString => true | _ => false end.

(** [strncmp]-style test: [p] occurs at the head of [s]. *)
Fixpoint starts_with (p s : string) : bool :=
  match p, s with
  | EmptyString, _ => true
  | String a p', String b s' => Ascii.eqb a b && starts_with p' s'
  | String _ _, EmptyString => false
  end.

Fixpoint drop (n : nat) (s : string) : string :=
  match n, s with
  | O, _ => s
  | S k, String _ s' => drop k s'
  | S _, EmptyString => EmptyString
  end.

Fixpoint take (n : nat) (s : string) : string :=
  match n, s with
  | S k, String c s' => String c (take k s')
  | _, _ => EmptyString
  end.

(** [strstr]: offset of the first occurrence of [p] in [s]. *)
Fixpoint find_str (p s : string) (pos : Z) : Z :=
  if starts_with p s then pos
  else match s with
       | EmptyString => -1
       | String _ s' => find_str p s' (pos + 1)
       end.

(** [strchr]: offset of the first [c] in [s]. *)
Fixpoint find_chr (c : ascii) (s : string) (pos : Z) : Z :=
  match s with
  | EmptyString => -1
  | String b s' => if Ascii.eqb b c then pos else find_chr c s' (pos + 1)
  end.

(** [String::indexOf(const String&)], from index 0. *)
Definition indexOf_str (s p : string) : Z :=
  if 0 >=? len s then -1 else find_str p s 0.

(** [String::indexOf(char, unsigned int fromIndex)]. *)
Definition indexOf_chr (s : string) (c : ascii) (fromIndex : Z) : Z :=
  if fromIndex >=? len s then -1
  else find_chr c (drop (Z.to_nat fromIndex) s) fromIndex.

(** [String::substring(left, right)]: the bounds are swapped when out of
    order, [right] is clipped to the length. *)
Definition substring (s : string) (left right : Z) : string :=
  let '(l, r) := if left >? right then (right, left) else (left, right) in
  if l >=? len s then EmptyString
  else
    let r := if r >? len s then len s else r in
    take (Z.to_nat (r - l)) (drop (Z.to_nat l) s).

(** [String::substring(left)]. *)
Definition substring_from (s : string) (left : Z) : string :=
  substring s left (len s).

(** C [isspace] in the default locale. *)
Definition isspace (c : ascii) : bool :=
  let n := char_code c in
  (n =? 32) || ((9 <=? n) && (n <=? 13)).

Fixpoint trim_left (s : string) : string :=
  match s with
  | String c s' => if isspace c then trim_left s' else s
  | EmptyString => EmptyString
  end.

Fixpoint trim_right (s : string) : string :=
  match s with
  | EmptyString => EmptyString
  | String c s' =>
      match trim_right s' with
      | EmptyString => if isspace c then EmptyString else String c EmptyString
      | t => String c t
      end
  end.

(** [String::trim()]. *)
Definition trim (s : string) : string := trim_right (trim_left s).

(** [String::replace(find, replace)]: occurrences are replaced from left
    to right and do not overlap; [skip] counts the characters of a match
    still to be passed over. *)
Fixpoint replace_from (find repl : string) (skip : nat) (s : string) : string :=
  match s with
  | EmptyString => EmptyString
  | String c s' =>
      match skip with
      | S k => replace_from find repl k s'
      | O =>
          if starts_with find s
          then String.append repl
                 (replace_from find repl (Nat.pred (String.length find)) s')
          else String c (replace_from find repl O s')
      end
  end.

Definition replace (s find repl : string) : string :=
  if isEmpty s || isEmpty find then s else replace_from find repl O s.

(** [String::endsWith]. *)
Definition endsWith (s suffix : string) : bool :=
  if len s <? len suffix then false
  else String.eqb (drop (String.length s - String.length suffix) s) suffix.

(** [String::charAt]: 0 past the end. *)
Definition charAt (s : string) (i : nat) : ascii :=
  match String.get i s with Some c => c | None => zero end.

(** [s += c]. *)
Definition push (s : string) (c : ascii) : string :=
  String.append s (String c EmptyString).

(** Decimal digits of a non-negative number, as [itoa] prints them. *)
Fixpoint digits_fuel (fuel : nat) (n : Z) (acc : string) : string :=
  match fuel with
  | O => acc
  | S k =>
      let acc' := String (char_of_code (48 + n mod 10)) acc in
      if n / 10 =? 0 then acc' else digits_fuel k (n / 10) acc'
  end.

(** [String(int)]. *)
Definition of_int (n : Z) : string :=
  if n <? 0
  then String "-"%char (digits_fuel (S (Z.to_nat (Z.log2 (- n)))) (- n) EmptyString)
  else digits_fuel (S (Z.to_nat (Z.log2 n))) n EmptyString.

End WString.

(** ** Floating-point arithmetic of the weather parser

    [float] is IEEE 754 binary32 and [double] is binary64; both are taken
    from the Standard Library's executable specification [SpecFloat], with
    round-to-nearest-even. *)

Module Float.

Definition float := spec_float.   (* binary32: prec 24, emax 128 *)
Definition double := spec_float.  (* binary64: prec 53, emax 1024 *)

(** Correctly rounded binary64 value of the ratio [m / d]. *)
Definition double_of_ratio (m d : positive) : double :=
  SFdiv 53 1024 (binary_normalize 53 1024 (Zpos m) 0 false)
                (binary_normalize 53 1024 (Zpos d) 0 false).

(** Correctly rounded binary64 value of the decimal [m * 10^-k]. *)
Definition double_of_decimal (m : Z) (k : nat) : double :=
  match m with
  | Zpos p => SFdiv 53 1024 (S754_finite false p 0)
                (S754_finite false (Z.to_pos (10 ^ Z.of_nat k)) 0)
  | _ => S754_zero false
  end.

(** Conversion [double -> float] (rounds) and [float -> double] (exact). *)
Definition to_float (x : double) : float :=
  match x with
  | S754_finite s m e => binary_round 24 128 s m e
  | _ => x
  end.

Definition to_double (x : float) : double :=
  match x with
  | S754_finite s m e => binary_round 53 1024 s m e
  | _ => x
  end.

Definition is_digit (c : ascii) : bool :=
  let n := WString.char_code c in (48 <=? n) && (n <=? 57).

(** The run of decimal digits at the head of [s]: their value, their
    number, and the rest of the string. *)
Fixpoint digits (s : string) (acc : Z) (n : nat) : Z * nat * string :=
  match s with
  | String c s' =>
      if is_digit c then digits s' (10 * acc + (WString.char_code c - 48)) (S n)
      else (acc, n, s)
  | EmptyString => (acc, n, s)
  end.

(** [atof] on a string made of digits and dots, as the parser builds
    them: the longest prefix [digits [. digits]] is converted; a prefix
    without any digit converts to 0. *)
Definition atof (s : string) : double :=
  let '(ip, ni, rest) := digits s 0 O in
  match rest with
  | String "."%char rest' =>
      let '(all, nf, _) := digits rest' ip O in
      if (ni + nf =? 0)%nat then S754_zero false else double_of_decimal all nf
  | _ => if (ni =? 0)%nat then S754_zero false else double_of_decimal ip O
  end.

(** [String::toFloat()]: [atof], narrowed to [float]. *)
Definition toFloat (s : string) : float := to_float (atof s).

(** The literals [3.6] and [0.75006] of the sketch are [double]s. *)
Definition lit_3_6 : double := double_of_ratio 36 10.
Definition lit_0_75006 : double := double_of_ratio 75006 100000.

(** [float r = x / 3.6;] and [float r = x * 0.75006;]: the [float]
    operand is promoted, the operation is done in [double], the result is
    narrowed on assignment. *)
Definition div_3_6 (x : float) : float :=
  to_float (SFdiv 53 1024 (to_double x) lit_3_6).

Definition mul_0_75006 (x : float) : float :=
  to_float (SFmul 53 1024 (to_double x) lit_0_75006).

Definition wrap_int32 (z : Z) : Z := (z + 2^31) mod 2^32 - 2^31.

(** [(int) round(x)]: the nearest integer, halves away from zero.  The
    conversion of a value outside the range of [int], of an infinity or
    of a NaN is undefined in C; here such a value wraps, respectively
    gives 0. *)
Definition round_to_int (x : float) : Z :=
  match x with
  | S754_finite s m e =>
      let mag := if e >=? 0 then Zpos m * 2 ^ e
                 else (2 * Zpos m + 2 ^ (- e)) / 2 ^ (- e + 1) in
      wrap_int32 (if s then - mag else mag)
  | _ => 0
  end.

End Float.

(** ** Unsigned 32-bit clock arithmetic *)

Definition usub (a b : Z) : Z := (a - b) mod 2 ^ 32.

(** ** Network task engine *)

Module Net.

Import WString.

Inductive WeatherTaskState := W_IDLE | W_CONNECTING | W_WAIT_HEADER | W_READ_BODY.
Inductive ForecastTaskState := F_IDLE | F_CONNECTING | F_WAIT_HEADER | F_READ_BODY.

Definition w_idle (s : WeatherTaskState) : bool :=
  match s with W_IDLE => true | _ => false end.
Definition f_idle (s : ForecastTaskState) : bool :=
  match s with F_IDLE => true | _ => false end.

(** The weather snapshot (globals [weatherTemp] ... [weatherPress]). *)
Record snapshot := {
  weatherTemp : string;
  weatherCond : string;
  weatherHum : string;
  weatherWind : string;
  weatherPress : string
}.

(** The other globals the two tasks read and write. *)
Record state := {
  weatherTaskState : WeatherTaskState;
  forecastTaskState : ForecastTaskState;
  weatherTaskTimer : Z;
  weatherResponseBuffer : string;
  lastWeatherFetch : Z;
  lastForecastFetch : Z;
  lastScreenSwitch : Z;
  currentScreen : Z;
  weather : snapshot;
  weatherValid : bool;
  forecasts : list string;
  forecastValid : bool;
  lastForecastError : string
}.

(** The calls a handler makes on its client, in the order made. *)
Inductive effect :=
| Connect              (* client.connect("wttr.in", 443) *)
| SendRequest          (* client.print("GET ...") *)
| FindHeader           (* client.find(...) of the header end *)
| ReadByte (c : ascii) (* client.read() *)
| Parse                (* parseWeatherData / parseForecastData *)
| Stop.                (* client.stop() *)

Definition CRLFCRLF : string :=
  String (ascii_of_nat 13) (String (ascii_of_nat 10)
    (String (ascii_of_nat 13) (String (ascii_of_nat 10) EmptyString))).

(** The degree sign, two bytes in the UTF-8 source and payload. *)
Definition degree : string :=
  String (ascii_of_nat 194) (String (ascii_of_nat 176) EmptyString).

Definition is_numeric (c : ascii) : bool :=
  Float.is_digit c || Ascii.eqb c "."%char.

(** The scan of the wind field: digits and dots are kept, a space after
    the first kept character ends the scan. *)
Fixpoint wind_scan (s windNum : string) : string :=
  match s with
  | EmptyString => windNum
  | String c s' =>
      if is_numeric c then wind_scan s' (push windNum c)
      else if Ascii.eqb c " "%char && (len windNum >? 0) then windNum
      else wind_scan s' windNum
  end.

(** The scan of the pressure field: any other character after the first
    kept one ends the scan. *)
Fixpoint press_scan (s pressNum : string) : string :=
  match s with
  | EmptyString => pressNum
  | String c s' =>
      if is_numeric c then press_scan s' (push pressNum c)
      else if negb (isEmpty pressNum) then pressNum
      else press_scan s' pressNum
  end.

(** [parseWeatherData]: the snapshot after the call, given the one
    before; the two early [return]s leave it as it was. *)
Definition parseWeatherData (result : string) (w : snapshot) : snapshot :=
  let bodyPos := indexOf_str result CRLFCRLF in
  let result := if negb (bodyPos =? -1) then substring_from result (bodyPos + 4)
                else result in
  let result := trim result in
  if len result =? 0 then w else
  let idx1 := indexOf_chr result "|"%char 0 in
  let idx2 := indexOf_chr result "|"%char (idx1 + 1) in
  let idx3 := indexOf_chr result "|"%char (idx2 + 1) in
  let idx4 := indexOf_chr result "|"%char (idx3 + 1) in
  if (idx1 <? 0) || (idx2 <? 0) || (idx3 <? 0) || (idx4 <? 0) then w else
  let tempStr := substring result 0 idx1 in
  let condStr := substring result (idx1 + 1) idx2 in
  let humStr := substring result (idx2 + 1) idx3 in
  let windStr := substring result (idx3 + 1) idx4 in
  let pressStr := substring_from result (idx4 + 1) in
  let tempStr := replace tempStr (String.append degree "C") "" in
  let tempStr := replace tempStr degree "" in
  let tempStr := replace tempStr "C" "" in
  let tempStr := trim tempStr in
  let condStr := trim condStr in
  let humStr := trim humStr in
  let windNum := wind_scan windStr EmptyString in
  let pressNum := press_scan pressStr EmptyString in
  {| weatherTemp := tempStr;
     weatherCond := condStr;
     weatherHum := if negb (endsWith humStr "%") then String.append humStr "%"
                   else humStr;
     weatherWind :=
       if len windNum =? 0 then "N/A"%string
       else of_int (Float.round_to_int (Float.div_3_6 (Float.toFloat windNum)));
     weatherPress :=
       if len pressNum =? 0 then "N/A"%string
       else of_int (Float.round_to_int (Float.mul_0_75006 (Float.toFloat pressNum))) |}.

(** What the forecast parser gets out of the stream.  Decoding the JSON
    document (ArduinoJson) and composing a day's line from it (with
    [removeAccents]) are outside the model: the decoded outcome is an
    input. *)
Inductive forecast_doc :=
| DocHeapFail                       (* the document could not be allocated *)
| DocError (msg : string)           (* deserializeJson reported an error *)
| DocNoWeather                      (* no "weather" array of 3 days *)
| DocDays (d0 d1 d2 : string).      (* the three composed lines *)

(** What a handler call observes of the outside world.  [now] is the
    value of [millis()] read before any client traffic of the call,
    [now_end] the value read after it; [incoming] holds the bytes
    [available()] to [read()], each with the value of [millis()] seen
    right after it was appended. *)
Record env := {
  now : Z;
  now_end : Z;
  wifi_connected : bool;
  connect_ok : bool;
  incoming : list (ascii * Z);
  peer_connected : bool;
  header_found : bool;
  doc : forecast_doc
}.

Definition set_weather_task (st : state) (ws : WeatherTaskState) : state :=
  {| weatherTaskState := ws;
     forecastTaskState := forecastTaskState st;
     weatherTaskTimer := weatherTaskTimer st;
     weatherResponseBuffer := weatherResponseBuffer st;
     lastWeatherFetch := lastWeatherFetch st;
     lastForecastFetch := lastForecastFetch st;
     lastScreenSwitch := lastScreenSwitch st;
     currentScreen := currentScreen st;
     weather := weather st;
     weatherValid := weatherValid st;
     forecasts := forecasts st;
     forecastValid := forecastValid st;
     lastForecastError := lastForecastError st |}.

Definition set_forecast_task (st : state) (fs : ForecastTaskState) : state :=
  {| weatherTaskState := weatherTaskState st;
     forecastTaskState := fs;
     weatherTaskTimer := weatherTaskTimer st;
     weatherResponseBuffer := weatherResponseBuffer st;
     lastWeatherFetch := lastWeatherFetch st;
     lastForecastFetch := lastForecastFetch st;
     lastScreenSwitch := lastScreenSwitch st;
     currentScreen := currentScreen st;
     weather := weather st;
     weatherValid := weatherValid st;
     forecasts := forecasts st;
     forecastValid := forecastValid st;
     lastForecastError := lastForecastError st |}.

Definition set_weather_timer (st : state) (t : Z) : state :=
  {| weatherTaskState := weatherTaskState st;
     forecastTaskState := forecastTaskState st;
     weatherTaskTimer := t;
     weatherResponseBuffer := weatherResponseBuffer st;
     lastWeatherFetch := lastWeatherFetch st;
     lastForecastFetch := lastForecastFetch st;
     lastScreenSwitch := lastScreenSwitch st;
     currentScreen := currentScreen st;
     weather := weather st;
     weatherValid := weatherValid st;
     forecasts := forecasts st;
     forecastValid := forecastValid st;
     lastForecastError := lastForecastError st |}.

Definition set_weather_buffer (st : state) (b : string) : state :=
  {| weatherTaskState := weatherTaskState st;
     forecastTaskState := forecastTaskState st;
     weatherTaskTimer := weatherTaskTimer st;
     weatherResponseBuffer := b;
     lastWeatherFetch := lastWeatherFetch st;
     lastForecastFetch := lastForecastFetch st;
     lastScreenSwitch := lastScreenSwitch st;
     currentScreen := currentScreen st;
     weather := weather st;
     weatherValid := weatherValid st;
     forecasts := forecasts st;
     forecastValid := forecastValid st;
     lastForecastError := lastForecastError st |}.

Definition set_last_weather_fetch (st : state) (t : Z) : state :=
  {| weatherTaskState := weatherTaskState st;
     forecastTaskState := forecastTaskState st;
     weatherTaskTimer := weatherTaskTimer st;
     weatherResponseBuffer := weatherResponseBuffer st;
     lastWeatherFetch := t;
     lastForecastFetch := lastForecastFetch st;
     lastScreenSwitch := lastScreenSwitch st;
     currentScreen := currentScreen st;
     weather := weather st;
     weatherValid := weatherValid st;
     forecasts := forecasts st;
     forecastValid := forecastValid st;
     lastForecastError := lastForecastError st |}.

Definition set_snapshot (st : state) (w : snapshot) (valid : bool) : state :=
  {| weatherTaskState := weatherTaskState st;
     forecastTaskState := forecastTaskState st;
     weatherTaskTimer := weatherTaskTimer st;
     weatherResponseBuffer := weatherResponseBuffer st;
     lastWeatherFetch := lastWeatherFetch st;
     lastForecastFetch := lastForecastFetch st;
     lastScreenSwitch := lastScreenSwitch st;
     currentScreen := currentScreen st;
     weather := w;
     weatherValid := valid;
     forecasts := forecasts st;
     forecastValid := forecastValid st;
     lastForecastError := lastForecastError st |}.

Definition set_screen (st : state) (screen t : Z) : state :=
  {| weatherTaskState := weatherTaskState st;
     forecastTaskState := forecastTaskState st;
     weatherTaskTimer := weatherTaskTimer st;
     weatherResponseBuffer := weatherResponseBuffer st;
     lastWeatherFetch := lastWeatherFetch st;
     lastForecastFetch := lastForecastFetch st;
     lastScreenSwitch := t;
     currentScreen := screen;
     weather := weather st;
     weatherValid := weatherValid st;
     forecasts := forecasts st;
     forecastValid := forecastValid st;
     lastForecastError := lastForecastError st |}.

(** The forecast globals after one of the parser's exits. *)
Definition set_forecast (st : state) (fc : list string) (valid : bool)
    (err : string) (fetched : Z) : state :=
  {| weatherTaskState := weatherTaskState st;
     forecastTaskState := forecastTaskState st;
     weatherTaskTimer := weatherTaskTimer st;
     weatherResponseBuffer := weatherResponseBuffer st;
     lastWeatherFetch := lastWeatherFetch st;
     lastForecastFetch := fetched;
     lastScreenSwitch := lastScreenSwitch st;
     currentScreen := currentScreen st;
     weather := weather st;
     weatherValid := weatherValid st;
     forecasts := fc;
     forecastValid := valid;
     lastForecastError := err |}.

(** The read loop of [W_READ_BODY]: bytes are appended while some are
    available; the loop is left after the first byte seen more than 5 ms
    after [startLoop].  Returns the buffer, the bytes left unread and
    the reads made. *)
Fixpoint read_burst (startLoop : Z) (avail : list (ascii * Z)) (buf : string)
  : string * list (ascii * Z) * list effect :=
  match avail with
  | [] => (buf, [], [])
  | (c, t) :: rest =>
      if usub t startLoop >? 5 then (push buf c, rest, [ReadByte c])
      else
        let '(buf', rest', reads) := read_burst startLoop rest (push buf c) in
        (buf', rest', ReadByte c :: reads)
  end.

Definition is_nil {A : Type} (l : list A) : bool :=
  match l with [] => true | _ => false end.

Definition handleWeatherTask (e : env) (st : state) : state * list effect :=
  match weatherTaskState st with
  | W_IDLE =>
      if ((usub (now e) (lastWeatherFetch st) >? 900000)
          || ((currentScreen st =? 1) && negb (weatherValid st)))
         && f_idle (forecastTaskState st)
      then (set_weather_task st W_CONNECTING, [])
      else (st, [])
  | W_CONNECTING =>
      if wifi_connected e then
        if connect_ok e then
          (set_weather_buffer
             (set_weather_timer (set_weather_task st W_WAIT_HEADER) (now_end e))
             EmptyString,
           [Connect; SendRequest])
        else
          (set_last_weather_fetch (set_weather_task st W_IDLE)
             (usub (now_end e) 840000),
           [Connect])
      else (st, [])
  | W_WAIT_HEADER =>
      let st1 := if negb (is_nil (incoming e))
                 then set_weather_timer (set_weather_task st W_READ_BODY) (now e)
                 else st in
      if usub (now e) (weatherTaskTimer st1) >? 10000
      then (set_weather_task st1 W_IDLE, [Stop])
      else (st1, [])
  | W_READ_BODY =>
      let '(buf, rest, reads) :=
        read_burst (now e) (incoming e) (weatherResponseBuffer st) in
      let st1 := set_weather_buffer st buf in
      let '(st2, eff2) :=
        if negb (peer_connected e) && is_nil rest
        then (set_weather_task
                (set_last_weather_fetch
                   (set_snapshot st1 (parseWeatherData buf (weather st1)) true)
                   (now_end e))
                W_IDLE,
              [Parse; Stop])
        else (st1, []) in
      let '(st3, eff3) :=
        if usub (now_end e) (weatherTaskTimer st2) >? 10000
        then (set_weather_task st2 W_IDLE, [Stop])
        else (st2, []) in
      (st3, reads ++ eff2 ++ eff3)
  end.

(** [millis() - 3600000UL + 300000UL]: the back-dated time stamp that
    makes the next forecast fetch come after 5 minutes. *)
Definition retry_stamp (t : Z) : Z := (t - 3600000 + 300000) mod 2 ^ 32.

Definition parseForecastData (e : env) (st : state) : state :=
  match doc e with
  | DocHeapFail =>
      set_forecast st (forecasts st) (forecastValid st) "Heap Fail: JD"
        (retry_stamp (now_end e))
  | DocError msg =>
      set_forecast st (forecasts st) (forecastValid st)
        (String.append "JSON Err: " msg) (retry_stamp (now_end e))
  | DocNoWeather =>
      set_forecast st (forecasts st) (forecastValid st) "No Weather Arr"
        (retry_stamp (now_end e))
  | DocDays d0 d1 d2 =>
      if len d0 >? 0
      then set_forecast st [d0; d1; d2] true "Success" (now_end e)
      else set_forecast st [d0; d1; d2] (forecastValid st) "Parse Fail"
             (retry_stamp (now_end e))
  end.

Definition handleForecastTask (e : env) (st : state) : state * list effect :=
  match forecastTaskState st with
  | F_IDLE =>
      if ((usub (now e) (lastForecastFetch st) >? 3600000)
          || negb (forecastValid st))
         && w_idle (weatherTaskState st)
      then (set_forecast_task st F_CONNECTING, [])
      else (st, [])
  | F_CONNECTING =>
      if negb (wifi_connected e) then
        (set_forecast_task
           (set_forecast st (forecasts st) (forecastValid st) "No WiFi"
              (retry_stamp (now e)))
           F_IDLE,
         [])
      else if negb (connect_ok e) then
        (set_forecast_task
           (set_forecast st (forecasts st) (forecastValid st) "Connect Fail"
              (retry_stamp (now_end e)))
           F_IDLE,
         [Connect])
      else if negb (header_found e) then
        (set_forecast_task
           (set_forecast st (forecasts st) (forecastValid st) "Header Fail"
              (retry_stamp (now_end e)))
           F_IDLE,
         [Connect; SendRequest; FindHeader; Stop])
      else
        (set_forecast_task
           (parseForecastData e
              (set_forecast st (forecasts st) (forecastValid st) "Connected..."
                 (lastForecastFetch st)))
           F_IDLE,
         [Connect; SendRequest; FindHeader; Parse; Stop])
  | F_WAIT_HEADER | F_READ_BODY => (set_forecast_task st F_IDLE, [])
  end.

(** The screen rotation of [loop], which also starts a forecast fetch
    when the forecast screen comes up. *)
Definition switch_screen (e : env) (st : state) : state :=
  let interval := 15000 in
  let interval := if currentScreen st =? 2 then 45000 else interval in
  let interval := if currentScreen st =? 3 then 45000 else interval in
  let interval := if currentScreen st =? 4 then 10000 else interval in
  if usub (now e) (lastScreenSwitch st) >? interval then
    let screen := if currentScreen st =? 4 then 0
                  else Z.rem (currentScreen st + 1) 4 in
    let st1 := set_screen st screen (now e) in
    if (screen =? 2)
       && ((usub (now e) (lastForecastFetch st1) >? 3600000)
           || negb (forecastValid st1))
       && (f_idle (forecastTaskState st1) && w_idle (weatherTaskState st1))
    then set_forecast_task st1 F_CONNECTING
    else st1
  else st.

(** The part of one pass of [loop] (in normal mode) that touches the two
    tasks: the screen rotation, then the two handlers in turn. *)
Definition loop_tasks (e0 e1 e2 : env) (st : state) : state * list effect :=
  let st0 := switch_screen e0 st in
  let '(st1, eff1) := handleWeatherTask e1 st0 in
  let '(st2, eff2) := handleForecastTask e2 st1 in
  (st2, eff1 ++ eff2).

(** One step of the engine: any of the three places that assign a task
    state, with any observation of the outside world. *)
Inductive step : state -> state -> Prop :=
| step_switch e st : step st (switch_screen e st)
| step_weather e st : step st (fst (handleWeatherTask e st))
| step_forecast e st : step st (fst (handleForecastTask e st)).

(** [setup] leaves both tasks idle; the states of the main loop are those
    reached from there. *)
Inductive reachable : state -> Prop :=
| reach_setup st :
    weatherTaskState st = W_IDLE -> forecastTaskState st = F_IDLE ->
    reachable st
| reach_step st st' : reachable st -> step st st' -> reachable st'.

(** At most one of the two tasks is outside its idle state. *)
Definition at_most_one_active (st : state) : Prop :=
  weatherTaskState st = W_IDLE \/ forecastTaskState st = F_IDLE.

(** *** The shape of a handler call *)







(** *** Sample data *)

(** The task globals as [setup] leaves them. *)
Definition boot_state : state :=
  {| weatherTaskState := W_IDLE;
     forecastTaskState := F_IDLE;
     weatherTaskTimer := 0;
     weatherResponseBuffer := "";
     lastWeatherFetch := 0;
     lastForecastFetch := 0;
     lastScreenSwitch := 0;
     currentScreen := 0;
     weather := {| weatherTemp := "N/A"; weatherCond := ""; weatherHum := "";
                   weatherWind := ""; weatherPress := "" |};
     weatherValid := false;
     forecasts := [""; ""; ""]%string;
     forecastValid := false;
     lastForecastError := "Wait..." |}.

(** A quiet moment [t] ms after boot: the radio is up, connections
    succeed, nothing is waiting to be read and the peer has closed. *)
Definition quiet (t : Z) : env :=
  {| now := t; now_end := t; wifi_connected := true; connect_ok := true;
     incoming := []; peer_connected := false; header_found := true;
     doc := DocDays "01-01: 10/20" "01-02: 11/21" "01-03: 12/22" |}.

(** The first fetch after boot, all of whose reply has been read: a
    reply with an empty condition field. *)
Definition reply_empty_condition : string :=
  String.append "HTTP/1.0 200 OK"
    (String.append CRLFCRLF "+21||56|11 km/h|1015 hPa").

Definition reading_state (reply : string) : state :=
  set_weather_buffer
    (set_weather_timer (set_weather_task boot_state W_READ_BODY) 31000)
    reply.

End Net.

(** ** Persistent configuration store *)

Module Config.

Import WString.

Definition EEPROM_SIZE : Z := 1024.
Definition ADDR_SSID : Z := 0.
Definition ADDR_PASS : Z := 70.
Definition ADDR_CITY : Z := 140.
Definition ADDR_TZ : Z := 210.
Definition ADDR_GREETING : Z := 220.
Definition ADDR_FIRMWARE_URL : Z := 430.
Definition ADDR_SIGNATURE : Z := 600.
Definition ADDR_ETAG : Z := 610.
Definition ADDR_LUCKY_URL : Z := 710.

(** The EEPROM object of the ESP8266 core: a byte array in RAM, begun
    with [EEPROM_SIZE] bytes.  [read] gives 0 and [write] does nothing
    for an address outside the array; [write] stores a [uint8_t]. *)
Definition EEPROM_read (e : list Z) (address : Z) : Z :=
  if (address <? 0) || (Z.of_nat (length e) <=? address) then 0
  else default 0 (e !! Z.to_nat address).

Definition EEPROM_write (e : list Z) (address val : Z) : list Z :=
  if (address <? 0) || (Z.of_nat (length e) <=? address) then e
  else <[Z.to_nat address := val mod 256]> e.

(** The configuration globals of the sketch. *)
Record settings := {
  wifiSSID : string;
  wifiPass : string;
  city : string;
  greetingUrl : string;
  firmwareUrl : string;
  luckyImageUrl : string;
  timezoneOffset : Z;
  currentFirmwareETag : string
}.

(** The initialisers of the globals. *)
Definition initial_settings : settings :=
  {| wifiSSID := ""; wifiPass := ""; city := ""; greetingUrl := "";
     firmwareUrl := ""; luckyImageUrl := ""; timezoneOffset := 0;
     currentFirmwareETag := "" |}.

(** *** saveSettings *)

(** [for (int i = 0; i < len; ++i) EEPROM.write(addr + 1 + i, s[i]);] *)
Definition write_chars (e : list Z) (addr : Z) (s : string) (n : nat) : list Z :=
  fold_left
    (fun e i => EEPROM_write e (addr + 1 + Z.of_nat i) (char_code (charAt s i)))
    (seq 0 n) e.

(** The length a field is written with: [uint8_t len = s.length()],
    clipped to [limit] where the code has such a line. *)
Definition field_length (s : string) (limit : option Z) : Z :=
  let len := WString.len s mod 256 in
  match limit with
  | Some l => if len >? l then l else len
  | None => len
  end.

(** One field of [saveSettings]: the length byte, then the characters. *)
Definition save_field (e : list Z) (addr : Z) (s : string) (limit : option Z)
  : list Z :=
  let len := field_length s limit in
  if len >? 0 then write_chars (EEPROM_write e addr len) addr s (Z.to_nat len)
  else EEPROM_write e addr 0.

Definition save_timezone (e : list Z) (tz : Z) : list Z :=
  let e := EEPROM_write e ADDR_TZ (Z.land tz 255) in
  let e := EEPROM_write e (ADDR_TZ + 1) (Z.land (Z.shiftr tz 8) 255) in
  let e := EEPROM_write e (ADDR_TZ + 2) (Z.land (Z.shiftr tz 16) 255) in
  EEPROM_write e (ADDR_TZ + 3) (Z.land (Z.shiftr tz 24) 255).

Definition save_signature (e : list Z) : list Z :=
  let e := EEPROM_write e ADDR_SIGNATURE (char_code "C") in
  let e := EEPROM_write e (ADDR_SIGNATURE + 1) (char_code "F") in
  let e := EEPROM_write e (ADDR_SIGNATURE + 2) (char_code "G") in
  EEPROM_write e (ADDR_SIGNATURE + 3) (char_code "1").

Definition saveSettings (cfg : settings) (e : list Z) : list Z :=
  let e := save_field e ADDR_SSID (wifiSSID cfg) None in
  let e := save_field e ADDR_PASS (wifiPass cfg) None in
  let e := save_field e ADDR_CITY (city cfg) None in
  let e := save_field e ADDR_GREETING (greetingUrl cfg) (Some 200) in
  let e := save_field e ADDR_FIRMWARE_URL (firmwareUrl cfg) (Some 150) in
  let e := save_field e ADDR_LUCKY_URL (luckyImageUrl cfg) (Some 200) in
  let e := save_timezone e (timezoneOffset cfg) in
  save_signature e.

(** *** loadSettings *)

(** Stores into the local [char buf[N]] arrays are checked: a store
    outside the array, or building a [String] from an array that holds no
    terminator in its written part, ends the run with an error instead of
    the undefined behaviour of C. *)
Inductive outcome (A : Type) : Type :=
| Done (a : A)
| OutOfBounds (index capacity : Z)   (* buf[index] with index >= capacity *)
| Unterminated.                      (* no NUL among the written cells *)
Arguments Done {A} a.
Arguments OutOfBounds {A} index capacity.
Arguments Unterminated {A}.

Definition bind {A B : Type} (m : outcome A) (f : A -> outcome B) : outcome B :=
  match m with
  | Done a => f a
  | OutOfBounds i c => OutOfBounds i c
  | Unterminated => Unterminated
  end.

Notation "'do' x <- m ; k" := (bind m (fun x => k))
  (at level 10, x name, m at level 100, k at level 200).

(** A fresh local array: no cell written yet. *)
Definition new_buf (capacity : Z) : list (option Z) :=
  replicate (Z.to_nat capacity) None.

(** [buf[i] = v]. *)
Definition store (buf : list (option Z)) (i v : Z) : outcome (list (option Z)) :=
  if (0 <=? i) && (i <? Z.of_nat (length buf))
  then Done (<[Z.to_nat i := Some v]> buf)
  else OutOfBounds i (Z.of_nat (length buf)).

(** [for (int i = i0; i < i0 + n; ++i) buf[i] = char(EEPROM.read(addr + 1 + i));] *)
Fixpoint copy_loop (e : list Z) (addr : Z) (n : nat) (i : Z) (buf : list (option Z))
  : outcome (list (option Z)) :=
  match n with
  | O => Done buf
  | S k =>
      do buf' <- store buf i (EEPROM_read e (addr + 1 + i));
      copy_loop e addr k (i + 1) buf'
  end.

(** [String(buf)]. *)
Fixpoint String_of_buf (buf : list (option Z)) : outcome string :=
  match buf with
  | Some b :: rest =>
      if b =? 0 then Done EmptyString
      else do s <- String_of_buf rest; Done (String (char_of_code b) s)
  | _ => Unterminated
  end.

(** One field of [loadSettings]: [capacity] is the size of the local
    array, [bound] the extra limit [i < bound] of the copy loop where
    the code has one. *)
Definition load_field (e : list Z) (addr capacity : Z) (bound : option Z)
  : outcome string :=
  let len := EEPROM_read e addr in
  if (len >? 0) && (len <? 255) then
    let n := match bound with
             | Some b => Z.min len b
             | None => len
             end in
    do buf <- copy_loop e addr (Z.to_nat n) 0 (new_buf capacity);
    do buf <- store buf len 0;
    String_of_buf buf
  else Done EmptyString.

(** [(int) raw] for a [uint32_t]. *)
Definition int_of_uint32 (raw : Z) : Z :=
  if raw >=? 2 ^ 31 then raw - 2 ^ 32 else raw.

Definition load_timezone (e : list Z) : Z :=
  let b0 := EEPROM_read e ADDR_TZ in
  let b1 := EEPROM_read e (ADDR_TZ + 1) in
  let b2 := EEPROM_read e (ADDR_TZ + 2) in
  let b3 := EEPROM_read e (ADDR_TZ + 3) in
  let raw :=
    Z.lor (Z.lor (Z.lor (Z.land b0 255) (Z.shiftl (Z.land b1 255) 8))
             (Z.shiftl (Z.land b2 255) 16))
      (Z.shiftl (Z.land b3 255) 24) in
  int_of_uint32 raw.

Definition loadSettings (e : list Z) : outcome settings :=
  do ssid <- load_field e ADDR_SSID 80 None;
  do pass <- load_field e ADDR_PASS 80 None;
  do cty <- load_field e ADDR_CITY 80 None;
  do greeting <- load_field e ADDR_GREETING 150 (Some 149);
  do firmware <- load_field e ADDR_FIRMWARE_URL 150 (Some 149);
  do etag <- load_field e ADDR_ETAG 100 (Some 99);
  do lucky <- load_field e ADDR_LUCKY_URL 200 (Some 199);
  Done {| wifiSSID := ssid; wifiPass := pass; city := cty;
          greetingUrl := greeting; firmwareUrl := firmware;
          luckyImageUrl := lucky; timezoneOffset := load_timezone e;
          currentFirmwareETag := trim etag |}.

(** *** The load at boot *)

(** The test of [setup] for the signature "CFG1". *)
Definition signature_present (e : list Z) : bool :=
  (EEPROM_read e ADDR_SIGNATURE =? char_code "C")
  && (EEPROM_read e (ADDR_SIGNATURE + 1) =? char_code "F")
  && (EEPROM_read e (ADDR_SIGNATURE + 2) =? char_code "G")
  && (EEPROM_read e (ADDR_SIGNATURE + 3) =? char_code "1").

(** The configuration part of [setup]: the settings and [systemMode]
    when [setup] has decided between the portal and normal operation.
    [buttonPressed] is the outcome of the boot-time button test. *)
Definition setup (e : list Z) (buttonPressed : bool) : outcome (settings * Z) :=
  let configMode := negb (signature_present e) || buttonPressed in
  if configMode then
    if signature_present e
    then do cfg <- loadSettings e; Done (cfg, 1)
    else Done (initial_settings, 1)
  else do cfg <- loadSettings e; Done (cfg, 0).

(** Erased flash: every byte reads 0xFF. *)
Definition erased : list Z := replicate (Z.to_nat EEPROM_SIZE) 255.

(** No string is recorded at [addr]: the length byte is 0, the 0xFF of
    erased flash, or otherwise outside 1..254. *)
Definition no_field (e : list Z) (addr : Z) : Prop :=
  ~ (0 < EEPROM_read e addr < 255).

Definition no_record (e : list Z) : Prop :=
  no_field e ADDR_SSID /\ no_field e ADDR_PASS /\ no_field e ADDR_CITY
  /\ no_field e ADDR_GREETING /\ no_field e ADDR_FIRMWARE_URL
  /\ no_field e ADDR_ETAG /\ no_field e ADDR_LUCKY_URL.

(** *** What the store holds for a field *)

(** No character of [s] is NUL. *)
Fixpoint no_nul (s : string) : bool :=
  match s with
  | EmptyString => true
  | String c s' => negb (char_code c =? 0) && no_nul s'
  end.

(** The slot at [addr] holds [s]: its length byte, then its characters. *)
Definition stored (e : list Z) (addr : Z) (s : string) : Prop :=
  EEPROM_read e addr = len s
  /\ forall i, (i < String.length s)%nat ->
       EEPROM_read e (addr + 1 + Z.of_nat i) = char_code (charAt s i).

(** [n] respects the limit, if there is one. *)
Definition within (limit : option Z) (n : Z) : Prop :=
  match limit with Some l => n <= l | None => True end.

(** A field that fits its slot: at most [n] characters, none of them NUL. *)
Definition fits (s : string) (n : Z) : Prop :=
  len s <= n /\ no_nul s = true.

(** *** Sample data *)

Fixpoint repeat_char (n : nat) (c : ascii) : string :=
  match n with
  | O => EmptyString
  | S k => String c (repeat_char k c)
  end.

(** What the configuration form can hand to [saveSettings]: it asks for
    a non-empty SSID and city and puts no limit on any length. *)
Definition form_settings (ssid pass greeting : string) : settings :=
  {| wifiSSID := ssid; wifiPass := pass; city := "Hanoi";
     greetingUrl := greeting; firmwareUrl := ""; luckyImageUrl := "";
     timezoneOffset := 25200; currentFirmwareETag := "" |}.

(** A saved record whose signature has lost its first byte. *)
Definition corrupted_signature : list Z :=
  EEPROM_write (saveSettings (form_settings "home" "secret" "") erased)
    ADDR_SIGNATURE 0.

(** Erased flash on which a length byte of 80 was written for the SSID. *)
Definition stray_length : list Z := EEPROM_write erased ADDR_SSID 80.

End Config.

(** ** Mode controller: the button handling at the head of [loop] *)

Module Mode.

(** [systemMode]: 0 = Normal, 1 = Config, 2 = Update, 3 = SleepConfirm,
    4 = OTA_GitHub.  [btnPressStart] and [btnActionTaken] are the two
    static locals of [loop]; [btnPressStart = 0] means "not pressed". *)
Record state := {
  systemMode : Z;
  sleepSelectedYes : bool;
  btnPressStart : Z;
  btnActionTaken : bool;
  currentScreen : Z;
  lastScreenSwitch : Z
}.

(** The calls made by the button code that return to [loop]. *)
Inductive effect :=
| DrawSleepConfirm     (* drawSleepConfirmScreen() *)
| StartConfigPortal    (* startConfigPortal() *)
| StartUpdatePortal    (* startUpdatePortal() *)
| LuckyScreen.         (* currentScreen = 4; lastScreenSwitch = millis() *)

(** The calls that do not return: each ends in a restart of the device. *)
Inductive halt :=
| EnterSleep           (* enterSleep() *)
| StartOTAUpdate       (* systemMode = 4; startOTAUpdate() *)
| Restart.             (* ESP.restart() *)

Inductive result :=
| Running (st : state) (effs : list effect)
| Halted (h : halt).

Definition press (st : state) (t : Z) : state :=
  {| systemMode := systemMode st; sleepSelectedYes := sleepSelectedYes st;
     btnPressStart := t; btnActionTaken := false;
     currentScreen := currentScreen st; lastScreenSwitch := lastScreenSwitch st |}.

(** A hold action: the new mode and selection, [btnActionTaken = true]. *)
Definition act (st : state) (mode : Z) (yes : bool) : state :=
  {| systemMode := mode; sleepSelectedYes := yes;
     btnPressStart := btnPressStart st; btnActionTaken := true;
     currentScreen := currentScreen st; lastScreenSwitch := lastScreenSwitch st |}.

(** The end of the release branch: both statics are reset. *)
Definition release (st : state) : state :=
  {| systemMode := systemMode st; sleepSelectedYes := sleepSelectedYes st;
     btnPressStart := 0; btnActionTaken := false;
     currentScreen := currentScreen st; lastScreenSwitch := lastScreenSwitch st |}.

Definition toggle (st : state) : state :=
  {| systemMode := systemMode st;
     sleepSelectedYes := negb (sleepSelectedYes st);
     btnPressStart := btnPressStart st; btnActionTaken := btnActionTaken st;
     currentScreen := currentScreen st; lastScreenSwitch := lastScreenSwitch st |}.

Definition lucky (st : state) (t : Z) : state :=
  {| systemMode := systemMode st; sleepSelectedYes := sleepSelectedYes st;
     btnPressStart := btnPressStart st; btnActionTaken := btnActionTaken st;
     currentScreen := 4; lastScreenSwitch := t |}.

(** The button code of one pass of [loop].  [low] is
    [digitalRead(BUTTON_PIN) == LOW] (the button is down) and [now] the
    value of [millis()] in this pass. *)
Definition loop_button (low : bool) (now : Z) (st : state) : result :=
  if low then
    let st := if btnPressStart st =? 0 then press st now else st in
    if (usub now (btnPressStart st) >? 2000) && negb (btnActionTaken st) then
      if systemMode st =? 0 then Running (act st 3 false) [DrawSleepConfirm]
      else if systemMode st =? 3 then
        if sleepSelectedYes st then Halted EnterSleep
        else Running (act st 1 (sleepSelectedYes st)) [StartConfigPortal]
      else if systemMode st =? 1 then
        Running (act st 2 (sleepSelectedYes st)) [StartUpdatePortal]
      else if systemMode st =? 2 then Halted StartOTAUpdate
      else Running st []
    else Running st []
  else
    if negb (btnPressStart st =? 0) then
      if usub now (btnPressStart st) >? 50 then
        if negb (btnActionTaken st) && (systemMode st =? 3)
        then Running (release (toggle st)) [DrawSleepConfirm]
        else if negb (btnActionTaken st) && (systemMode st =? 1)
        then Halted Restart
        else if negb (btnActionTaken st) && (systemMode st =? 0)
        then Running (release (lucky st now)) [LuckyScreen]
        else if negb (btnActionTaken st) && (systemMode st =? 2)
        then Halted Restart
        else Running (release st) []
      else Running (release st) []
    else Running st [].

(** A recorded sequence of button samples, run until the device halts. *)
Fixpoint run (samples : list (bool * Z)) (st : state) : result :=
  match samples with
  | [] => Running st []
  | (low, now) :: rest =>
      match loop_button low now st with
      | Running st' _ => run rest st'
      | Halted h => Halted h
      end
  end.

(** *** The transition table of the specification *)

Inductive SystemMode :=
| Normal | ConfigPortal | ManualUpdatePortal | SleepConfirm | RemoteUpdate.

(** [held] is the time at which the current press began, [acted] whether
    a hold action was already taken in this press. *)
Record mstate := {
  mode : SystemMode;
  selectionYes : bool;
  held : option Z;
  acted : bool
}.

Inductive outcome :=
| Next (m : mstate)           (* the machine goes on in state [m] *)
| NextLucky (m : mstate)      (* same, and the lucky-number screen is requested *)
| SleepEntry
| RemoteUpdateEntry
| Reboot.

Definition mk (md : SystemMode) (yes : bool) (h : option Z) (a : bool) : mstate :=
  {| mode := md; selectionYes := yes; held := h; acted := a |}.

(** The hold row of the table. *)
Definition on_hold (m : mstate) (t0 : Z) : outcome :=
  match mode m with
  | Normal => Next (mk SleepConfirm false (Some t0) true)
  | SleepConfirm =>
      if selectionYes m then SleepEntry
      else Next (mk ConfigPortal (selectionYes m) (Some t0) true)
  | ConfigPortal => Next (mk ManualUpdatePortal (selectionYes m) (Some t0) true)
  | ManualUpdatePortal => RemoteUpdateEntry
  | RemoteUpdate => Next (mk RemoteUpdate (selectionYes m) (Some t0) false)
  end.

(** The release row of the table. *)
Definition on_click (m : mstate) : outcome :=
  match mode m with
  | SleepConfirm => Next (mk SleepConfirm (negb (selectionYes m)) None false)
  | ConfigPortal | ManualUpdatePortal => Reboot
  | Normal => NextLucky (mk Normal (selectionYes m) None false)
  | RemoteUpdate => Next (mk RemoteUpdate (selectionYes m) None false)
  end.

(** The table, for a debounce rule [is_click] on the length of a press:
    a hold longer than 2000 ms with no action yet taken in it takes the
    hold row; a release that is a click, with no action taken, takes the
    release row; any other release only ends the press.  Lengths are
    differences of the 32-bit millisecond clock. *)
Definition table (is_click : Z -> bool) (low : bool) (now : Z) (m : mstate)
  : outcome :=
  if low then
    let t0 := match held m with Some t => t | None => now end in
    let a := match held m with Some _ => acted m | None => false end in
    if (usub now t0 >? 2000) && negb a then on_hold m t0
    else Next (mk (mode m) (selectionYes m) (Some t0) a)
  else
    match held m with
    | None => Next m
    | Some t0 =>
        if is_click (usub now t0) && negb (acted m) then on_click m
        else Next (mk (mode m) (selectionYes m) None false)
    end.











(** *** Sample data *)

Definition in_mode (m : Z) (yes : bool) : state :=
  {| systemMode := m; sleepSelectedYes := yes; btnPressStart := 0;
     btnActionTaken := false; currentScreen := 0; lastScreenSwitch := 0 |}.

End Mode.

(** ** Firmware update engine *)

Module OTA.

Import WString.

(** *** checkForFirmwareUpdate *)

(** The two globals of the update check. *)
Record state := {
  currentFirmwareETag : string;
  pendingOTA_ETag : string
}.

(** What the check observes: the radio, the allocation of the client,
    [http.begin], the status code of the request and the [ETag] header of
    the response. *)
Record check_env := {
  wifi_connected : bool;
  client_allocated : bool;
  http_begin_ok : bool;
  httpCode : Z;
  etag_header : string
}.

Definition HTTP_CODE_OK : Z := 200.

(** The check of the current firmware (v1.1.37). *)
Definition checkForFirmwareUpdate (e : check_env) (firmwareUrl : string)
    (st : state) : state :=
  if negb (wifi_connected e) || String.eqb firmwareUrl "" then st
  else if negb (client_allocated e) then st
  else if http_begin_ok e then
    if httpCode e =? HTTP_CODE_OK then
      let newETag := etag_header e in
      if negb (String.eqb newETag "") then
        if String.eqb (currentFirmwareETag st) ""
           || negb (String.eqb (currentFirmwareETag st) newETag)
        then {| currentFirmwareETag := currentFirmwareETag st;
                pendingOTA_ETag := newETag |}
        else st
      else st
    else st
  else st.

(** The check of the older sketch hu-061.ino (v1.0.0), which has no
    pending request: it keeps the first tag it sees and starts the update
    itself when a later tag differs.  The second component tells whether
    [startOTAUpdate()] was called. *)
Definition checkForFirmwareUpdate_hu061 (e : check_env) (firmwareUrl : string)
    (current : string) : string * bool :=
  if negb (wifi_connected e) || String.eqb firmwareUrl "" then (current, false)
  else if http_begin_ok e then
    if httpCode e =? HTTP_CODE_OK then
      let newETag := etag_header e in
      if negb (String.eqb newETag "") then
        if String.eqb current "" then (newETag, false)
        else if negb (String.eqb current newETag) then (current, true)
        else (current, false)
      else (current, false)
    else (current, false)
  else (current, false).

(** *** startOTAUpdate *)

(** One connection attempt: the allocation of the client, [http.begin],
    and the status code of [http.GET()]. *)
Record attempt := {
  allocated : bool;
  began : bool;
  status : Z
}.

(** One pass of the download loop. *)
Inductive stream_event :=
| Data (c written t : Z)
    (* bytes are available: [readBytes] gave [c] of them, [Update.write]
       took [written], then [millis()] read [t] *)
| NoData (t : Z).
    (* nothing available, [millis()] read [t] *)

(** What the update observes.  The download loop runs while the
    connection is open or bytes are available: [stream] lists its
    passes, and the loop condition fails when the list is used up. *)
Record env := {
  wifi_up : bool;               (* WiFi connected on entry *)
  wifi_joined : bool;           (* ... after the wait of up to 15 s *)
  attempts : nat -> attempt;
  getSize : Z;                  (* http.getSize() *)
  update_begin_ok : bool;       (* Update.begin(updateSize) *)
  t_start : Z;                  (* millis() before the loop *)
  stream : list stream_event;
  update_end_ok : bool          (* Update.end(contentLength == -1), when no
                                   write has failed *)
}.

(** How the routine ends; every one of these ends in [ESP.restart()]. *)
Inductive outcome :=
| WiFiFailed
| NoUrl
| OutOfMemory
| HttpError (code : Z)
| BeginFailed
| UpdateTimeout
| IncompleteFile (received : Z)
| UpdateSuccess (received : Z)
| UpdateFailed.

(** The retry loop: [n] attempts left, [k] the number of the attempt;
    [None] when a client cannot be allocated. *)
Fixpoint connect_loop (e : env) (n k : nat) (code : Z) : option Z :=
  match n with
  | O => Some code
  | S n' =>
      let a := attempts e k in
      if negb (allocated a) then None
      else if began a then
        if status a =? HTTP_CODE_OK then Some (status a)
        else connect_loop e n' (S k) (status a)
      else connect_loop e n' (S k) code
  end.

(** How the download loop is left other than by the timeout: the loop
    condition fails, the declared length is reached, or [Update.write]
    took fewer bytes than it was given ("Write Error"). *)
Inductive loop_exit := StreamEnded | LengthReached | WriteError.

(** The download loop: the way it is left and the count of bytes
    received, or [None] when it times out. *)
Fixpoint download (contentLength : Z) (events : list stream_event)
    (received lastDataTime : Z) : option (loop_exit * Z) :=
  match events with
  | [] => Some (StreamEnded, received)
  | Data c written t :: rest =>
      if negb (written =? c) then Some (WriteError, received)
      else
        let received := received + c in
        if (contentLength >? 0) && (received >=? contentLength)
        then Some (LengthReached, received)
        else download contentLength rest received t
  | NoData t :: rest =>
      if usub t lastDataTime >? 10000 then None
      else if (contentLength >? 0) && (received >=? contentLength)
      then Some (LengthReached, received)
      else download contentLength rest received lastDataTime
  end.

(** The commit of the new identifier: at most 90 characters behind a
    length byte at [ADDR_ETAG]; nothing is written for an empty tag. *)
Definition persist_etag (targetETag : string) (rom : list Z) : list Z :=
  if negb (String.eqb targetETag "") then
    let n := len targetETag in
    let n := if n >? 90 then 90 else n in
    Config.write_chars (Config.EEPROM_write rom Config.ADDR_ETAG n)
      Config.ADDR_ETAG targetETag (Z.to_nat n)
  else rom.

(** [Update.end(contentLength == -1)].  The updater (the core's
    [Updater] class, outside the sketch) keeps the error of a failed
    [Update.write]: a write takes fewer bytes than it was given only
    when it records an error, and [end] reports failure once an error is
    recorded.  So after the "Write Error" exit of the loop the call
    fails; otherwise its result is an observation. *)
Definition Update_end (e : env) (exit : loop_exit) : bool :=
  match exit with
  | WriteError => false
  | _ => update_end_ok e
  end.

Definition startOTAUpdate (e : env) (firmwareUrl targetETag : string)
    (rom : list Z) : outcome * list Z :=
  if negb (wifi_up e) && negb (wifi_joined e) then (WiFiFailed, rom)
  else if String.eqb firmwareUrl "" then (NoUrl, rom)
  else
    match connect_loop e 3 0 (-1) with
    | None => (OutOfMemory, rom)
    | Some code =>
        if negb (code =? HTTP_CODE_OK) then (HttpError code, rom)
        else
          let contentLength := getSize e in
          if negb (update_begin_ok e) then (BeginFailed, rom)
          else
            match download contentLength (stream e) 0 (t_start e) with
            | None => (UpdateTimeout, rom)
            | Some (exit, received) =>
                if (contentLength >? 0) && negb (received =? contentLength)
                then (IncompleteFile received, rom)
                else if Update_end e exit
                then (UpdateSuccess received, persist_etag targetETag rom)
                else (UpdateFailed, rom)
            end
    end.

(** *** Sample data *)

Definition answering (a : attempt) : nat -> attempt := fun _ => a.

(** A server that answers 200 without a Content-Length ([getSize] is -1)
    and closes after ten bytes. *)
Definition no_length_env : env :=
  {| wifi_up := true; wifi_joined := true;
     attempts := answering {| allocated := true; began := true; status := 200 |};
     getSize := -1; update_begin_ok := true; t_start := 1000;
     stream := [Data 10 10 1005]; update_end_ok := true |}.

(** A server that declares 2048 bytes and delivers them in two reads. *)
Definition full_length_env : env :=
  {| wifi_up := true; wifi_joined := true;
     attempts := answering {| allocated := true; began := true; status := 200 |};
     getSize := 2048; update_begin_ok := true; t_start := 1000;
     stream := [Data 1024 1024 1005; NoData 1006; Data 1024 1024 1010];
     update_end_ok := true |}.

(** A server that declares no length and whose second block of bytes the
    updater does not take whole. *)
Definition failed_write_env : env :=
  {| wifi_up := true; wifi_joined := true;
     attempts := answering {| allocated := true; began := true; status := 200 |};
     getSize := -1; update_begin_ok := true; t_start := 1000;
     stream := [Data 1024 1024 1005; Data 1024 512 1010];
     update_end_ok := true |}.

(** A response with the entity tag [tag] to a check that goes through. *)
Definition tagged (tag : string) : check_env :=
  {| wifi_connected := true; client_allocated := true; http_begin_ok := true;
     httpCode := 200; etag_header := tag |}.

End OTA.

(** ** Configuration store: the length bytes a load can take *)

Module Layout.

Import Config.

(** The length byte at [addr] is one [loadSettings] can take with a local
    array of [capacity] bytes: it is 0, the 0xFF mark, or below the
    capacity. *)
Definition safe_length (e : list Z) (addr capacity : Z) : Prop :=
  ~ (capacity <= EEPROM_read e addr < 255).

Definition all_safe (e : list Z) : Prop :=
  safe_length e ADDR_SSID 80 /\ safe_length e ADDR_PASS 80
  /\ safe_length e ADDR_CITY 80 /\ safe_length e ADDR_GREETING 150
  /\ safe_length e ADDR_FIRMWARE_URL 150 /\ safe_length e ADDR_ETAG 100
  /\ safe_length e ADDR_LUCKY_URL 200.

End Layout.

(** ** Network task engine: failed fetches *)

Module NetMore.

Import Net.

(** A forecast fetch that ends before any forecast data is written: the
    radio is down, the connection or the header fails, or the document
    cannot be used. *)
Definition fetch_fails (e : env) : Prop :=
  wifi_connected e = false \/ connect_ok e = false \/ header_found e = false
  \/ doc e = DocHeapFail \/ (exists msg, doc e = DocError msg)
  \/ doc e = DocNoWeather.

(** The reading of [millis()] that the failing fetch back-dates. *)
Definition fail_time (e : env) : Z :=
  if wifi_connected e then now_end e else now e.

(** *** Sample data *)

(** The radio is up and the server refuses the connection. *)
Definition refusing (t : Z) : env :=
  {| now := t; now_end := t; wifi_connected := true; connect_ok := false;
     incoming := []; peer_connected := false; header_found := false;
     doc := DocNoWeather |}.

(** The radio is down. *)
Definition radio_down (t : Z) : env :=
  {| now := t; now_end := t; wifi_connected := false; connect_ok := false;
     incoming := []; peer_connected := false; header_found := false;
     doc := DocNoWeather |}.

(** The globals after a first good fetch of both kinds. *)
Definition fetched_state : state :=
  set_forecast
    (set_snapshot boot_state
       {| weatherTemp := "+21"; weatherCond := "Sunny"; weatherHum := "56%";
          weatherWind := "3"; weatherPress := "761" |} true)
    ["01-01: 10/20"; "01-02: 11/21"; "01-03: 12/22"]%string true "Success" 0.

End NetMore.

(** ** Weather parser: the payload and its fields *)

Module Payload.

Import WString Net.

(** The number of occurrences of [c] in [s]. *)
Fixpoint count_char (c : ascii) (s : string) : nat :=
  match s with
  | EmptyString => O
  | String b s' => if Ascii.eqb b c then S (count_char c s') else count_char c s'
  end.

(** The text [parseWeatherData] splits: the response with the header cut
    off at the first blank line, trimmed. *)
Definition payload (result : string) : string :=
  let bodyPos := indexOf_str result CRLFCRLF in
  trim (if negb (bodyPos =? -1) then substring_from result (bodyPos + 4)
        else result).

(** Every character of [s] is a digit or a dot. *)
Fixpoint all_numeric (s : string) : bool :=
  match s with
  | EmptyString => true
  | String c s' => is_numeric c && all_numeric s'
  end.

End Payload.

(** ** Mode controller: the order of the modes *)

Module ModeMore.

Import Mode.

(** The order in which the button walks the modes: Normal, SleepConfirm,
    Config, Update, OTA_GitHub. *)
Definition rank (m : Z) : Z :=
  if m =? 0 then 0
  else if m =? 3 then 1
  else if m =? 1 then 2
  else if m =? 2 then 3
  else 4.

(** The calls logged over a recording, up to the pass that halts. *)
Fixpoint effects_of (samples : list (bool * Z)) (st : state) : list effect :=
  match samples with
  | [] => []
  | (low, now) :: rest =>
      match loop_button low now st with
      | Running st' effs => effs ++ effects_of rest st'
      | Halted _ => []
      end
  end.

(** *** Sample data *)

(** Sleep-confirm mode right after the hold that entered it: the button
    is still down since [t], the action of the press is taken. *)
Definition just_acted (t : Z) : state :=
  act (press (in_mode 0 false) t) 3 false.

End ModeMore.

(** ** The boot-time button test of [setup] *)

Module Boot.

(** The polling loop of [setup].  Each element of [passes] is one pass:
    the value of [millis()] read by the loop test and, when the test
    lets the body run, whether the pin reads LOW.  [lowCount] is the
    counter of consecutive LOW samples. *)
Fixpoint button_held (startTime : Z) (passes : list (Z * bool)) (lowCount : Z)
  : bool :=
  match passes with
  | [] => false
  | (t, low) :: rest =>
      if usub t startTime <? 500 then
        let lowCount := if low then (lowCount + 1) mod 2 ^ 32 else 0 in
        if lowCount >? 10 then true
        else button_held startTime rest lowCount
      else false
  end.

(** The samples taken while the window of 500 ms is open. *)
Fixpoint sampled (startTime : Z) (passes : list (Z * bool)) : list bool :=
  match passes with
  | [] => []
  | (t, low) :: rest =>
      if usub t startTime <? 500 then low :: sampled startTime rest else []
  end.

(** *** Sample data *)

(** [n] passes 10 ms apart from [t] on, the pin LOW in each. *)
Fixpoint held_down (n : nat) (t : Z) : list (Z * bool) :=
  match n with
  | O => []
  | S k => (t, true) :: held_down k (t + 10)
  end.

End Boot.

(** ** The greeting rotation: [updateGreeting] *)

Module Greeting.
Import WString.

(** The two globals of the greeting. *)
Record state := {
  currentGreeting : string;
  greetingIndex : Z
}.

(** What the call observes; [lines] are the results of the successive
    [readStringUntil] calls, until the loop condition fails. *)
Record env := {
  wifi_connected : bool;
  client_allocated : bool;
  http_begin_ok : bool;
  httpCode : Z;
  lines : list string
}.

(** The read loop: the line numbered [greetingIndex] among the lines
    that are not empty once trimmed, [None] when the loop ends without
    finding it. *)
Fixpoint scan (ls : list string) (currentIndex greetingIndex : Z)
  : option string :=
  match ls with
  | [] => None
  | line :: rest =>
      let line := trim line in
      if len line >? 0 then
        if currentIndex =? greetingIndex then Some line
        else scan rest (Float.wrap_int32 (currentIndex + 1)) greetingIndex
      else scan rest currentIndex greetingIndex
  end.

Definition updateGreeting (e : env) (greetingUrl : string) (st : state)
  : state :=
  if negb (wifi_connected e) || String.eqb greetingUrl "" then st
  else if negb (client_allocated e) then st
  else if http_begin_ok e then
    if httpCode e =? 200 then
      match scan (lines e) 0 (greetingIndex st) with
      | Some line =>
          {| currentGreeting := line;
             greetingIndex := Float.wrap_int32 (greetingIndex st + 1) |}
      | None =>
          {| currentGreeting := currentGreeting st; greetingIndex := 0 |}
      end
    else st
  else st.

(** The lines of the file that can be shown. *)
Definition shown (ls : list string) : list string :=
  List.filter (fun l => len l >? 0) (List.map trim ls).

(** A download that goes through and delivers the lines [ls]. *)
Definition delivering (ls : list string) : env :=
  {| wifi_connected := true; client_allocated := true; http_begin_ok := true;
     httpCode := 200; lines := ls |}.

End Greeting.

(** ** The lucky image: [updateLuckyImage] *)

Module Lucky.

Record state := {
  luckyImageBuffer : option (list Z);   (* NULL or the block of 1024 bytes *)
  luckyImageValid : bool
}.

(** The download loop.  Each element of [passes] is one test of the loop
    condition with the connection open or data waiting: the value of
    [millis()] and the byte [read()] returns when one is available.
    [None] stands for a store outside the block. *)
Fixpoint fill (start : Z) (passes : list (Z * option Z)) (buf : list Z)
    (total : Z) : option (list Z * Z) :=
  match passes with
  | [] => Some (buf, total)
  | (t, avail) :: rest =>
      if (total <? 1024) && (usub t start <? 5000) then
        match avail with
        | Some b =>
            if (0 <=? total) && (total <? Z.of_nat (length buf))
            then fill start rest (<[Z.to_nat total := b mod 256]> buf)
                   (total + 1)
            else None
        | None => fill start rest buf total
        end
      else Some (buf, total)
  end.

(** What the call observes; [malloc] is the block [malloc(1024)] hands
    out, with whatever it holds, if the heap has one. *)
Record env := {
  wifi_connected : bool;
  malloc : option (list Z);
  client_allocated : bool;
  http_begin_ok : bool;
  httpCode : Z;
  getSize : Z;
  t_start : Z;
  passes : list (Z * option Z)
}.

Definition updateLuckyImage (e : env) (luckyImageUrl : string) (st : state)
  : option state :=
  if negb (wifi_connected e) || String.eqb luckyImageUrl "" then Some st
  else
    let buffer := match luckyImageBuffer st with
                  | Some b => Some b
                  | None => malloc e
                  end in
    match buffer with
    | None => Some st
    | Some buf =>
        let st1 := {| luckyImageBuffer := Some buf;
                      luckyImageValid := luckyImageValid st |} in
        if negb (client_allocated e) then Some st1
        else if http_begin_ok e then
          if httpCode e =? 200 then
            if getSize e >? 0 then
              match fill (t_start e) (passes e) buf 0 with
              | Some (buf', total) =>
                  Some {| luckyImageBuffer := Some buf';
                          luckyImageValid :=
                            if total =? 1024 then true
                            else luckyImageValid st |}
              | None => None
              end
            else Some st1
          else Some st1
        else Some st1
    end.

(** The block the call works on: the one already held, or else the one
    [malloc] hands out in this call, if any. *)
Definition block (e : env) (st : state) : option (list Z) :=
  match luckyImageBuffer st with
  | Some b => Some b
  | None => malloc e
  end.

(** The bytes stored by the loop, in order. *)
Fixpoint stored_bytes (start : Z) (passes : list (Z * option Z)) (total : Z)
  : list Z :=
  match passes with
  | [] => []
  | (t, avail) :: rest =>
      if (total <? 1024) && (usub t start <? 5000) then
        match avail with
        | Some b => b mod 256 :: stored_bytes start rest (total + 1)
        | None => stored_bytes start rest total
        end
      else []
  end.

(** *** Sample data *)

(** A download that breaks off after two bytes; the heap has a block,
    filled with 0xAA. *)
Definition two_bytes : env :=
  {| wifi_connected := true; malloc := Some (replicate 1024 170);
     client_allocated := true; http_begin_ok := true; httpCode := 200;
     getSize := 1024; t_start := 1000;
     passes := [(1001, Some 7); (1002, None); (1003, Some 300)] |}.

(** The globals after boot: no block, no image. *)
Definition after_boot : state :=
  {| luckyImageBuffer := None; luckyImageValid := false |}.

(** An image held and shown. *)
Definition shown_image : state :=
  {| luckyImageBuffer := Some (replicate 1024 255); luckyImageValid := true |}.

End Lucky.

(** ** The configuration form: [handleConfigForm] *)

Module Form.
Import WString Config.

(** The digits at the head of [s], read in base 10 onto [acc]. *)
Fixpoint digits_value (s : string) (acc : Z) : Z :=
  match s with
  | String c s' =>
      if Float.is_digit c then digits_value s' (acc * 10 + (char_code c - 48))
      else acc
  | EmptyString => acc
  end.

(** [String::toInt()], that is [atol]: leading white space, an optional
    sign, decimal digits; a value outside the range of [long] (32 bits)
    is clamped to the nearest bound. *)
Definition toInt (s : string) : Z :=
  match trim_left s with
  | String "-" s' => Z.max (- 2 ^ 31) (- digits_value s' 0)
  | String "+" s' => Z.min (2 ^ 31 - 1) (digits_value s' 0)
  | s' => Z.min (2 ^ 31 - 1) (digits_value s' 0)
  end.

(** The arguments of the request. *)
Record args := {
  ssid : string;
  pass : string;
  newCity : string;
  newGreeting : string;
  newFirmware : string;
  newLuckyImg : string;
  tzStr : string
}.

(** The two ways the handler ends: the settings are saved and the
    device restarts (status 200), or the request is refused (status 400)
    and nothing is written. *)
Inductive response :=
| SavedRestart (cfg : settings) (rom : list Z)
| InvalidInput.

Definition handleConfigForm (a : args) (cfg : settings) (e : list Z)
  : response :=
  if (len (ssid a) >? 0) && (len (newCity a) >? 0) && (len (tzStr a) >? 0)
  then
    let cfg' := {| wifiSSID := ssid a; wifiPass := pass a; city := newCity a;
                   greetingUrl := newGreeting a; firmwareUrl := newFirmware a;
                   luckyImageUrl := newLuckyImg a;
                   timezoneOffset := toInt (tzStr a);
                   currentFirmwareETag := currentFirmwareETag cfg |} in
    SavedRestart cfg' (saveSettings cfg' e)
  else InvalidInput.

(** A filled-in form. *)
Definition home_form : args :=
  {| ssid := "home"; pass := "secret"; newCity := "Hanoi";
     newGreeting := "https://example.org/g.txt"; newFirmware := "";
     newLuckyImg := ""; tzStr := "25200" |}.

End Form.

(** ** The update schedule of [loop] *)

Module Sched.

(** [lastOTACheck] as [setup] leaves it, booting at [t]. *)
Definition first_check_stamp (t : Z) : Z := (t - 600000 + 30000) mod 2 ^ 32.

Record state := {
  lastOTACheck : Z;
  tags : OTA.state;
  rom : list Z
}.

(** A pass of [loop] goes on, or it starts the update, which ends in a
    restart whatever its outcome. *)
Inductive pass :=
| GoOn (st : state)
| Update (o : OTA.outcome) (rom : list Z).

(** The update part of one pass of [loop], at [now]. *)
Definition loop_ota (now : Z) (ce : OTA.check_env) (ue : OTA.env)
    (firmwareUrl : string) (st : state) : pass :=
  let st1 :=
    if usub now (lastOTACheck st) >? 600000
    then {| lastOTACheck := now;
            tags := OTA.checkForFirmwareUpdate ce firmwareUrl (tags st);
            rom := rom st |}
    else st in
  if negb (String.eqb (OTA.pendingOTA_ETag (tags st1)) "")
  then
    let '(o, rom') :=
      OTA.startOTAUpdate ue firmwareUrl (OTA.pendingOTA_ETag (tags st1))
        (rom st1) in
    Update o rom'
  else GoOn st1.

(** The state in which [setup] hands over to [loop], booting at [t] with
    the settings [cfg] loaded from [rom]. *)
Definition booted (t : Z) (cfg : Config.settings) (rom : list Z) : state :=
  {| lastOTACheck := first_check_stamp t;
     tags := {| OTA.currentFirmwareETag := Config.currentFirmwareETag cfg;
                OTA.pendingOTA_ETag := "" |};
     rom := rom |}.

(** *** Sample data *)

(** Settings with a firmware URL, running the firmware tagged "v1". *)
Definition updatable : Config.settings :=
  {| Config.wifiSSID := "home"; Config.wifiPass := "secret";
     Config.city := "Hanoi"; Config.greetingUrl := "";
     Config.firmwareUrl := "https://example.org/fw.bin";
     Config.luckyImageUrl := ""; Config.timezoneOffset := 25200;
     Config.currentFirmwareETag := "v1" |}.

End Sched.

(** ** Accent folding: [removeAccents] *)

Module Accents.
Import WString.

(** A string given by the bytes of its UTF-8 encoding. *)
Definition utf8 (codes : list Z) : string :=
  fold_right (fun z s => String (char_of_code z) s) EmptyString codes.

(** One call [str.replace(find, repl)], [find] given by its bytes. *)
Definition entry (codes : list Z) (repl : string) : string * string :=
  (utf8 codes, repl).

(** The [replace] calls of [removeAccents], in the order made: the
    accented Vietnamese letter (two or three bytes) and the letter that
    takes its place. *)
Definition table : list (string * string) := [
  entry [195; 161] "a"; entry [195; 160] "a";
  entry [225; 186; 163] "a"; entry [195; 163] "a";
  entry [225; 186; 161] "a";
  entry [196; 131] "a"; entry [225; 186; 175] "a";
  entry [225; 186; 177] "a"; entry [225; 186; 179] "a";
  entry [225; 186; 181] "a"; entry [225; 186; 183] "a";
  entry [195; 162] "a"; entry [225; 186; 165] "a";
  entry [225; 186; 167] "a"; entry [225; 186; 169] "a";
  entry [225; 186; 171] "a"; entry [225; 186; 173] "a";
  entry [196; 145] "d"; entry [196; 144] "D";
  entry [195; 169] "e"; entry [195; 168] "e";
  entry [225; 186; 187] "e"; entry [225; 186; 189] "e";
  entry [225; 186; 185] "e";
  entry [195; 170] "e"; entry [225; 186; 191] "e";
  entry [225; 187; 129] "e"; entry [225; 187; 131] "e";
  entry [225; 187; 133] "e"; entry [225; 187; 135] "e";
  entry [195; 173] "i"; entry [195; 172] "i";
  entry [225; 187; 137] "i"; entry [196; 169] "i";
  entry [225; 187; 139] "i";
  entry [195; 179] "o"; entry [195; 178] "o";
  entry [225; 187; 143] "o"; entry [195; 181] "o";
  entry [225; 187; 141] "o";
  entry [195; 180] "o"; entry [225; 187; 145] "o";
  entry [225; 187; 147] "o"; entry [225; 187; 149] "o";
  entry [225; 187; 151] "o"; entry [225; 187; 153] "o";
  entry [198; 161] "o"; entry [225; 187; 155] "o";
  entry [225; 187; 157] "o"; entry [225; 187; 159] "o";
  entry [225; 187; 161] "o"; entry [225; 187; 163] "o";
  entry [195; 186] "u"; entry [195; 185] "u";
  entry [225; 187; 167] "u"; entry [197; 169] "u";
  entry [225; 187; 165] "u";
  entry [198; 176] "u"; entry [225; 187; 169] "u";
  entry [225; 187; 171] "u"; entry [225; 187; 173] "u";
  entry [225; 187; 175] "u"; entry [225; 187; 177] "u";
  entry [195; 189] "y"; entry [225; 187; 179] "y";
  entry [225; 187; 183] "y"; entry [225; 187; 185] "y";
  entry [225; 187; 181] "y";
  entry [195; 130] "A"; entry [196; 130] "A"; entry [195; 148] "O";
  entry [198; 160] "O"; entry [198; 175] "U"; entry [195; 138] "E"
]%list.

Definition removeAccents (str : string) : string :=
  fold_left (fun s p => replace s (fst p) (snd p)) table str.

(** All characters of [s] are 7-bit. *)
Fixpoint ascii_only (s : string) : bool :=
  match s with
  | EmptyString => true
  | String c s' => (char_code c <? 128) && ascii_only s'
  end.

(** Every letter of the table starts with a byte outside ASCII and is no
    shorter than the letter that takes its place. *)
Definition table_entry_ok (p : string * string) : bool :=
  match fst p with
  | String c _ => (128 <=? char_code c)
                  && (String.length (snd p) <=? String.length (fst p))%nat
  | EmptyString => false
  end.

End Accents.

(** ** The weather fetch of the older sketch: [getWeather] of hu-061.ino *)

Module Hu061.
Import WString Net.

(** What the blocking fetch observes; [line] is what
    [readStringUntil] returns after the header. *)
Record env := {
  wifi_connected : bool;
  connect_ok : bool;
  header_found : bool;
  line : string
}.

(** The snapshot after the call and the value returned, which the
    caller stores in [weatherValid]. *)
Definition getWeather (e : env) (w : snapshot) : snapshot * bool :=
  if negb (wifi_connected e) then (w, false)
  else if negb (connect_ok e) then (w, false)
  else if negb (header_found e) then (w, false)
  else
  let result := trim (line e) in
  if len result =? 0 then (w, false) else
  let idx1 := indexOf_chr result "|"%char 0 in
  let idx2 := indexOf_chr result "|"%char (idx1 + 1) in
  let idx3 := indexOf_chr result "|"%char (idx2 + 1) in
  let idx4 := indexOf_chr result "|"%char (idx3 + 1) in
  if (idx1 <? 0) || (idx2 <? 0) || (idx3 <? 0) || (idx4 <? 0)
  then (w, false) else
  let tempStr := substring result 0 idx1 in
  let condStr := substring result (idx1 + 1) idx2 in
  let humStr := substring result (idx2 + 1) idx3 in
  let windStr := substring result (idx3 + 1) idx4 in
  let pressStr := substring_from result (idx4 + 1) in
  let tempStr := replace tempStr (String.append degree "C") "" in
  let tempStr := replace tempStr degree "" in
  let tempStr := replace tempStr "C" "" in
  let tempStr := trim tempStr in
  let condStr := trim condStr in
  let humStr := trim humStr in
  let windNum := wind_scan windStr EmptyString in
  let pressNum := press_scan pressStr EmptyString in
  let w' :=
    {| weatherTemp := tempStr;
       weatherCond := condStr;
       weatherHum := if negb (endsWith humStr "%") then String.append humStr "%"
                     else humStr;
       weatherWind :=
         if len windNum =? 0 then "N/A"%string
         else of_int (Float.round_to_int (Float.div_3_6 (Float.toFloat windNum)));
       weatherPress :=
         if len pressNum =? 0 then "N/A"%string
         else of_int (Float.round_to_int
                        (Float.mul_0_75006 (Float.toFloat pressNum))) |} in
  if String.eqb (weatherTemp w') "" || String.eqb (weatherCond w') ""
  then (w', false)
  else (w', true).

(** A fetch that gets the body line [l]. *)
Definition answering (l : string) : env :=
  {| wifi_connected := true; connect_ok := true; header_found := true;
     line := l |}.

End Hu061.


(** * Properties *)

(** ** Arduino strings: the operations on small inputs *)

Lemma indexOf_chr_from :
  WString.indexOf_chr "a|b|c" "|"%char 2 = 3
  /\ WString.indexOf_chr "a|b|c" "|"%char 4 = -1
  /\ WString.indexOf_chr "abc" "|"%char 3 = -1.
Proof. repeat split; reflexivity. Qed.

Lemma substring_clips : WString.substring "hello world" 6 100 = "world"%string.
Proof. reflexivity. Qed.

Lemma trim_both_ends : WString.trim "  a b  " = "a b"%string.
Proof. reflexivity. Qed.

Lemma replace_deletes_all : WString.replace "aCbCC" "C" "" = "ab"%string.
Proof. reflexivity. Qed.

Lemma of_int_decimal :
  WString.of_int 761 = "761"%string /\ WString.of_int (-40) = "-40"%string
  /\ WString.of_int 0 = "0"%string.
Proof. repeat split; reflexivity. Qed.


(** ** Network task engine: mutual exclusion *)

(** Case analysis on the tests of a function, innermost scrutinee first. *)
Ltac break_match :=
  repeat match goal with
         | |- context [match ?x with _ => _ end] =>
             lazymatch x with
             | context [match _ with _ => _ end] => fail
             | _ => destruct x eqn:?
             end
         end.

Section NetFacts.

Import Net.

Lemma handleWeatherTask_forecast_state e st :
  forecastTaskState (fst (handleWeatherTask e st)) = forecastTaskState st.
Proof.
  unfold handleWeatherTask.
  destruct (weatherTaskState st); simpl.
  - break_match; reflexivity.
  - break_match; reflexivity.
  - break_match; reflexivity.
  - destruct (read_burst _ _ _) as [[buf rest] reads].
    break_match; reflexivity.
Qed.

Lemma handleWeatherTask_leaves_idle e st :
  weatherTaskState st = W_IDLE ->
  weatherTaskState (fst (handleWeatherTask e st)) <> W_IDLE ->
  forecastTaskState st = F_IDLE.
Proof.
  unfold handleWeatherTask. intros Hidle. rewrite Hidle.
  destruct (forecastTaskState st); [reflexivity | ..];
    rewrite andb_false_r; simpl; intros H; exfalso; apply H; exact Hidle.
Qed.

Lemma handleForecastTask_weather_state e st :
  weatherTaskState (fst (handleForecastTask e st)) = weatherTaskState st.
Proof.
  unfold handleForecastTask, parseForecastData.
  destruct (forecastTaskState st); break_match; reflexivity.
Qed.

Lemma handleForecastTask_leaves_idle e st :
  forecastTaskState st = F_IDLE ->
  forecastTaskState (fst (handleForecastTask e st)) <> F_IDLE ->
  weatherTaskState st = W_IDLE.
Proof.
  unfold handleForecastTask. intros Hidle. rewrite Hidle.
  destruct (weatherTaskState st); [reflexivity | ..];
    rewrite andb_false_r; simpl; intros H; exfalso; apply H; exact Hidle.
Qed.

Lemma switch_screen_weather_state e st :
  weatherTaskState (switch_screen e st) = weatherTaskState st.
Proof. unfold switch_screen. break_match; reflexivity. Qed.

Lemma switch_screen_leaves_idle e st :
  forecastTaskState st = F_IDLE ->
  forecastTaskState (switch_screen e st) <> F_IDLE ->
  weatherTaskState st = W_IDLE.
Proof.
  unfold switch_screen. intros Hf.
  destruct (weatherTaskState st) eqn:Hw; [reflexivity | ..];
    break_match; simpl in *; try congruence;
    rewrite ?Hw, ?andb_false_r in *; simpl in *; congruence.
Qed.

(** Every step keeps the other task where it was, and takes a task out
    of its idle state only when the other one is idle. *)
Lemma step_leaves_idle st st' :
  step st st' ->
  (weatherTaskState st = W_IDLE -> weatherTaskState st' <> W_IDLE ->
   forecastTaskState st = F_IDLE /\ forecastTaskState st' = F_IDLE)
  /\ (forecastTaskState st = F_IDLE -> forecastTaskState st' <> F_IDLE ->
      weatherTaskState st = W_IDLE /\ weatherTaskState st' = W_IDLE).
Proof.
  intros [e s | e s | e s]; split; intros Hidle Hleft.
  - rewrite switch_screen_weather_state in Hleft. contradiction.
  - pose proof (switch_screen_leaves_idle e s Hidle Hleft) as Hw.
    rewrite switch_screen_weather_state. auto.
  - pose proof (handleWeatherTask_leaves_idle e s Hidle Hleft) as Hf.
    rewrite handleWeatherTask_forecast_state. auto.
  - rewrite handleWeatherTask_forecast_state in Hleft. contradiction.
  - rewrite handleForecastTask_weather_state in Hleft. contradiction.
  - pose proof (handleForecastTask_leaves_idle e s Hidle Hleft) as Hw.
    rewrite handleForecastTask_weather_state. auto.
Qed.

Lemma step_preserves_exclusion st st' :
  step st st' -> at_most_one_active st -> at_most_one_active st'.
Proof.
  unfold at_most_one_active.
  intros Hstep Hinv.
  destruct (step_leaves_idle st st' Hstep) as [Hw Hf].
  destruct (weatherTaskState st') eqn:Hw'; [left; reflexivity | ..];
    (destruct (forecastTaskState st') eqn:Hf'; [right; reflexivity | ..]);
    exfalso.
  all: destruct Hinv as [Hi | Hi].
  all: try (destruct Hw as [_ Hw]; [exact Hi | congruence | congruence]).
  all: try (destruct Hf as [_ Hf]; [exact Hi | congruence | congruence]).
Qed.

(** A whole pass of [loop] over the three places stays among the
    reachable states. *)
Lemma loop_tasks_reachable e0 e1 e2 st :
  reachable st -> reachable (fst (loop_tasks e0 e1 e2 st)).
Proof.
  intros Hreach. unfold loop_tasks.
  assert (H0 : reachable (switch_screen e0 st))
    by (eapply reach_step; [exact Hreach | apply step_switch]).
  assert (H1 : reachable (fst (handleWeatherTask e1 (switch_screen e0 st))))
    by (eapply reach_step; [exact H0 | apply step_weather]).
  destruct (handleWeatherTask e1 (switch_screen e0 st)) as [st1 eff1].
  simpl in H1.
  assert (H2 : reachable (fst (handleForecastTask e2 st1)))
    by (eapply reach_step; [exact H1 | apply step_forecast]).
  destruct (handleForecastTask e2 st1) as [st2 eff2]. exact H2.
Qed.

Lemma reachable_exclusion st : reachable st -> at_most_one_active st.
Proof.
  induction 1 as [st Hw Hf | st st' _ IH Hstep].
  - left. exact Hw.
  - exact (step_preserves_exclusion st st' Hstep IH).
Qed.

End NetFacts.

(** C2. At every point of the main loop reached from [setup], at most one
    of the weather task and the forecast task is outside its idle state;
    and a step takes a task out of its idle state only when the other
    task is idle (before and after the step). *)
Theorem mutual_exclusion (st : Net.state) :
  Net.reachable st ->
  Net.at_most_one_active st
  /\ forall st', Net.step st st' ->
       (Net.weatherTaskState st = Net.W_IDLE ->
        Net.weatherTaskState st' <> Net.W_IDLE ->
        Net.forecastTaskState st = Net.F_IDLE
        /\ Net.forecastTaskState st' = Net.F_IDLE)
       /\ (Net.forecastTaskState st = Net.F_IDLE ->
           Net.forecastTaskState st' <> Net.F_IDLE ->
           Net.weatherTaskState st = Net.W_IDLE
           /\ Net.weatherTaskState st' = Net.W_IDLE).
Proof.
  intros Hreach. split.
  - apply reachable_exclusion. exact Hreach.
  - intros st' Hstep. apply step_leaves_idle. exact Hstep.
Qed.

(** The state after the first pass of the weather handler past the
    staleness threshold: the weather task has left Idle, the forecast task
    has not. *)
Lemma mutual_exclusion_witness :
  Net.reachable (fst (Net.handleWeatherTask (Net.quiet 900001) Net.boot_state))
  /\ Net.weatherTaskState
       (fst (Net.handleWeatherTask (Net.quiet 900001) Net.boot_state))
     = Net.W_CONNECTING
  /\ Net.at_most_one_active
       (fst (Net.handleWeatherTask (Net.quiet 900001) Net.boot_state)).
Proof.
  assert (H : Net.reachable
                (fst (Net.handleWeatherTask (Net.quiet 900001) Net.boot_state))).
  { apply Net.reach_step with (st := Net.boot_state).
    - apply Net.reach_setup; reflexivity.
    - apply Net.step_weather. }
  split; [exact H | split; [reflexivity |]].
  exact (proj1 (mutual_exclusion _ H)).
Defined.

(** ** Network task engine: what one handler call does *)

Section HandlerCalls.

Import Net.






(** A handler call that finds the reply complete marks the snapshot
    valid, whatever the parser made of the reply. *)
Lemma handleWeatherTask_marks_valid e st :
  weatherTaskState st = W_READ_BODY ->
  incoming e = [] -> peer_connected e = false ->
  weatherValid (fst (handleWeatherTask e st)) = true.
Proof.
  unfold handleWeatherTask. intros -> -> ->. simpl.
  break_match; reflexivity.
Qed.

End HandlerCalls.




(** ** Weather parser *)

(** C8. The body [+21|Partly cloudy|56|11 km/h|1015 hPa] parses to
    temperature "+21", condition "Partly cloudy", humidity "56%", wind "3"
    (11 km/h over 3.6, rounded) and pressure "761" (1015 hPa times
    0.75006, rounded), whatever the snapshot held before. *)
Theorem parseWeatherData_example (w : Net.snapshot) :
  Net.parseWeatherData "+21|Partly cloudy|56|11 km/h|1015 hPa" w
  = {| Net.weatherTemp := "+21";
       Net.weatherCond := "Partly cloudy";
       Net.weatherHum := "56%";
       Net.weatherWind := "3";
       Net.weatherPress := "761" |}.
Proof. vm_compute. reflexivity. Qed.

(** The two conversions of the example, on their own. *)
Lemma wind_and_pressure_conversions :
  Float.round_to_int (Float.div_3_6 (Float.toFloat "11")) = 3
  /\ Float.round_to_int (Float.mul_0_75006 (Float.toFloat "1015")) = 761.
Proof. split; vm_compute; reflexivity. Qed.

(** The unit decoration of the temperature is stripped and the sign is
    kept when the reply carries the degree sign and the header. *)
Lemma parseWeatherData_with_header (w : Net.snapshot) :
  Net.parseWeatherData
    (String.append "HTTP/1.0 200 OK"
       (String.append Net.CRLFCRLF
          (String.append "-3" (String.append Net.degree "C|Mist|93%|7km/h|1020hPa"))))
    w
  = {| Net.weatherTemp := "-3";
       Net.weatherCond := "Mist";
       Net.weatherHum := "93%";
       Net.weatherWind := "2";
       Net.weatherPress := "765" |}.
Proof. vm_compute. reflexivity. Qed.

(** C1, at a failing input. The first fetch after boot ends with the reply
    [+21||56|11 km/h|1015 hPa], whose condition field is empty.  Before the
    call the snapshot is invalid and holds the boot values; after it the
    task is idle, the snapshot is marked valid, its condition is empty and
    its other fields have been overwritten. *)
Theorem weather_valid_with_empty_condition :
  let st := Net.reading_state Net.reply_empty_condition in
  let st' := fst (Net.handleWeatherTask (Net.quiet 32000) st) in
  Net.weatherValid st = false
  /\ Net.weatherTemp (Net.weather st) = "N/A"%string
  /\ Net.weatherTaskState st' = Net.W_IDLE
  /\ Net.weatherCond (Net.weather st') = ""%string
  /\ Net.weatherValid st' = true
  /\ Net.weather st'
     = {| Net.weatherTemp := "+21"; Net.weatherCond := ""; Net.weatherHum := "56%";
          Net.weatherWind := "3"; Net.weatherPress := "761" |}.
Proof. vm_compute. repeat split; reflexivity. Qed.

(** ** Configuration store: a record that fits its slots *)

Section StoreFacts.

Import Config.

Lemma EEPROM_write_length e a v : length (EEPROM_write e a v) = length e.
Proof.
  unfold EEPROM_write. destruct (_ || _); [reflexivity |]. apply length_insert.
Qed.

Lemma EEPROM_read_write_eq e a v :
  0 <= a < Z.of_nat (length e) ->
  EEPROM_read (EEPROM_write e a v) a = v mod 256.
Proof.
  intros Ha. unfold EEPROM_read, EEPROM_write.
  assert (Hin : (a <? 0) || (Z.of_nat (length e) <=? a) = false) by lia.
  rewrite Hin, length_insert, Hin.
  rewrite list_lookup_insert_eq by lia. reflexivity.
Qed.

Lemma EEPROM_read_write_ne e a v b :
  a <> b -> EEPROM_read (EEPROM_write e a v) b = EEPROM_read e b.
Proof.
  intros Hne. unfold EEPROM_read, EEPROM_write.
  destruct ((a <? 0) || (Z.of_nat (length e) <=? a)) eqn:Ha; [reflexivity |].
  rewrite length_insert.
  destruct ((b <? 0) || (Z.of_nat (length e) <=? b)) eqn:Hb; [reflexivity |].
  rewrite list_lookup_insert_ne by lia. reflexivity.
Qed.

Lemma write_chars_S e addr s n :
  write_chars e addr s (S n)
  = EEPROM_write (write_chars e addr s n) (addr + 1 + Z.of_nat n)
      (WString.char_code (WString.charAt s n)).
Proof.
  unfold write_chars. rewrite seq_S, fold_left_app. reflexivity.
Qed.

Lemma write_chars_length e addr s n : length (write_chars e addr s n) = length e.
Proof.
  induction n as [| n IH]; [reflexivity |].
  rewrite write_chars_S, EEPROM_write_length. exact IH.
Qed.

Lemma char_code_range c : 0 <= WString.char_code c < 256.
Proof.
  unfold WString.char_code.
  pose proof (N_ascii_bounded c). lia.
Qed.

Lemma char_of_code_char_code c : WString.char_of_code (WString.char_code c) = c.
Proof.
  unfold WString.char_of_code.
  rewrite Z.mod_small by apply char_code_range.
  unfold WString.char_code. rewrite N2Z.id. apply ascii_N_embedding.
Qed.

Lemma write_chars_read_out e addr s n b :
  b < addr + 1 \/ addr + Z.of_nat n < b ->
  EEPROM_read (write_chars e addr s n) b = EEPROM_read e b.
Proof.
  induction n as [| n IH]; intros Hb; [reflexivity |].
  rewrite write_chars_S, EEPROM_read_write_ne by lia.
  apply IH. lia.
Qed.

Lemma write_chars_read_in e addr s n i :
  0 <= addr -> addr + Z.of_nat n < Z.of_nat (length e) -> (i < n)%nat ->
  EEPROM_read (write_chars e addr s n) (addr + 1 + Z.of_nat i)
  = WString.char_code (WString.charAt s i).
Proof.
  intros Haddr. induction n as [| n IH]; intros Hfit Hi; [lia |].
  rewrite write_chars_S.
  destruct (Nat.eq_dec i n) as [-> | Hne].
  - rewrite EEPROM_read_write_eq by (rewrite write_chars_length; lia).
    apply Z.mod_small, char_code_range.
  - rewrite EEPROM_read_write_ne by lia. apply IH; lia.
Qed.


Lemma save_field_length e addr s limit :
  length (save_field e addr s limit) = length e.
Proof.
  unfold save_field.
  destruct (_ >? 0); rewrite ?write_chars_length, EEPROM_write_length; reflexivity.
Qed.

Lemma field_length_fits s limit :
  WString.len s <= 255 -> within limit (WString.len s) ->
  field_length s limit = WString.len s.
Proof.
  intros Hlen Hlim. unfold field_length.
  assert (H0 : 0 <= WString.len s) by (unfold WString.len; lia).
  rewrite Z.mod_small by lia.
  destruct limit as [l |]; [| reflexivity].
  simpl in Hlim. destruct (WString.len s >? l) eqn:H; [lia | reflexivity].
Qed.

Lemma save_field_stored e addr s limit :
  0 <= addr -> addr + WString.len s < Z.of_nat (length e) ->
  WString.len s <= 255 -> within limit (WString.len s) ->
  stored (save_field e addr s limit) addr s.
Proof.
  intros Haddr Hfit Hlen Hlim.
  assert (H0 : 0 <= WString.len s) by (unfold WString.len; lia).
  unfold save_field. rewrite (field_length_fits s limit Hlen Hlim).
  destruct (WString.len s >? 0) eqn:Hpos; split.
  - rewrite write_chars_read_out by lia.
    rewrite EEPROM_read_write_eq by lia. apply Z.mod_small. lia.
  - intros i Hi. apply write_chars_read_in.
    + exact Haddr.
    + rewrite EEPROM_write_length. unfold WString.len in *. lia.
    + unfold WString.len. lia.
  - rewrite EEPROM_read_write_eq by lia. change (0 mod 256) with 0. lia.
  - intros i Hi. unfold WString.len in *. lia.
Qed.

Lemma save_field_frame e addr s limit b :
  WString.len s <= 255 -> within limit (WString.len s) ->
  b < addr \/ addr + WString.len s < b ->
  EEPROM_read (save_field e addr s limit) b = EEPROM_read e b.
Proof.
  intros Hlen Hlim Hb.
  assert (H0 : 0 <= WString.len s) by (unfold WString.len; lia).
  unfold save_field. rewrite (field_length_fits s limit Hlen Hlim).
  destruct (WString.len s >? 0) eqn:Hpos.
  - rewrite write_chars_read_out by lia. apply EEPROM_read_write_ne. lia.
  - apply EEPROM_read_write_ne. lia.
Qed.

Lemma stored_frame e e' addr s :
  stored e addr s ->
  (forall b, addr <= b <= addr + WString.len s -> EEPROM_read e' b = EEPROM_read e b) ->
  stored e' addr s.
Proof.
  intros [Hlen Hchars] Hsame. split.
  - rewrite Hsame; [exact Hlen | unfold WString.len; lia].
  - intros i Hi. rewrite Hsame; [apply Hchars; exact Hi |].
    unfold WString.len. lia.
Qed.

(** *** Loading a stored field *)

Lemma store_done buf i v :
  0 <= i < Z.of_nat (length buf) ->
  store buf i v = Done (<[Z.to_nat i := Some v]> buf).
Proof.
  intros Hi. unfold store.
  assert (H : (0 <=? i) && (i <? Z.of_nat (length buf)) = true) by lia.
  rewrite H. reflexivity.
Qed.

Lemma copy_loop_done e addr n : forall i buf,
  0 <= i -> i + Z.of_nat n <= Z.of_nat (length buf) ->
  exists buf',
    copy_loop e addr n i buf = Done buf'
    /\ length buf' = length buf
    /\ (forall j, (Z.to_nat i <= j < Z.to_nat i + n)%nat ->
          buf' !! j = Some (Some (EEPROM_read e (addr + 1 + Z.of_nat j))))
    /\ (forall j, (j < Z.to_nat i)%nat -> buf' !! j = buf !! j).
Proof.
  induction n as [| n IH]; intros i buf Hi Hfit.
  - exists buf. simpl. split; [reflexivity |]. split; [reflexivity |].
    split; [intros j Hj; lia | reflexivity].
  - simpl. rewrite store_done by lia. simpl.
    destruct (IH (i + 1) (<[Z.to_nat i := Some (EEPROM_read e (addr + 1 + i))]> buf))
      as (buf' & Hrun & Hlen & Hin & Hout).
    + lia.
    + rewrite length_insert. lia.
    + exists buf'. split; [exact Hrun |]. split; [rewrite Hlen; apply length_insert |].
      split.
      * intros j Hj. destruct (Nat.eq_dec j (Z.to_nat i)) as [-> | Hne].
        -- rewrite Hout by lia. rewrite list_lookup_insert_eq by lia.
           rewrite Z2Nat.id by lia. reflexivity.
        -- apply Hin. lia.
      * intros j Hj. rewrite Hout by lia.
        apply list_lookup_insert_ne. lia.
Qed.

Lemma String_of_buf_done s : forall buf,
  no_nul s = true ->
  (forall j, (j < String.length s)%nat ->
     buf !! j = Some (Some (WString.char_code (WString.charAt s j)))) ->
  buf !! String.length s = Some (Some 0) ->
  String_of_buf buf = Done s.
Proof.
  induction s as [| c s IH]; intros buf Hnn Hchars Hend.
  - destruct buf as [| [b |] rest]; simpl in Hend; try discriminate.
    injection Hend as ->. reflexivity.
  - simpl in Hnn. apply andb_true_iff in Hnn. destruct Hnn as [Hc Hnn].
    pose proof (Hchars O ltac:(simpl; lia)) as H0.
    destruct buf as [| [b |] rest]; simpl in H0; try discriminate.
    injection H0 as ->. simpl.
    change (WString.charAt (String c s) 0) with c.
    apply negb_true_iff in Hc. rewrite Hc.
    rewrite (IH rest Hnn).
    + simpl. rewrite char_of_code_char_code. reflexivity.
    + intros j Hj. specialize (Hchars (S j) ltac:(simpl; lia)). exact Hchars.
    + exact Hend.
Qed.

Lemma load_field_stored e addr s capacity bound :
  stored e addr s -> no_nul s = true ->
  WString.len s < capacity -> WString.len s < 255 ->
  within bound (WString.len s) ->
  load_field e addr capacity bound = Done s.
Proof.
  intros [Hlen Hchars] Hnn Hcap Hmax Hbound.
  assert (H0 : 0 <= WString.len s) by (unfold WString.len; lia).
  unfold load_field. rewrite Hlen.
  destruct ((WString.len s >? 0) && (WString.len s <? 255)) eqn:Hpos.
  - assert (Hn : match bound with
                 | Some b => Z.min (WString.len s) b
                 | None => WString.len s
                 end = WString.len s).
    { destruct bound as [b |]; [simpl in Hbound; lia | reflexivity]. }
    rewrite Hn.
    destruct (copy_loop_done e addr (Z.to_nat (WString.len s)) 0 (new_buf capacity))
      as (buf & Hrun & Hblen & Hin & _).
    + lia.
    + unfold new_buf. rewrite length_replicate. lia.
    + rewrite Hrun. simpl.
      assert (Hbl : Z.of_nat (length buf) = capacity).
      { rewrite Hblen. unfold new_buf. rewrite length_replicate. lia. }
      rewrite store_done by lia. simpl.
      apply String_of_buf_done.
      * exact Hnn.
      * intros j Hj. rewrite list_lookup_insert_ne by (unfold WString.len; lia).
        rewrite Hin by (unfold WString.len; lia).
        rewrite Hchars by exact Hj. reflexivity.
      * unfold WString.len. rewrite Nat2Z.id.
        apply list_lookup_insert_eq. unfold WString.len in *. lia.
  - assert (Hz : WString.len s = 0) by lia.
    destruct s; [reflexivity |]. unfold WString.len in Hz. simpl in Hz. lia.
Qed.


(** *** The timezone offset *)

Lemma lor_shiftl_add a b k :
  0 <= k -> 0 <= a < 2 ^ k -> Z.lor a (Z.shiftl b k) = a + b * 2 ^ k.
Proof.
  intros Hk Ha.
  assert (Hland : Z.land a (Z.shiftl b k) = 0).
  { apply Z.bits_inj'. intros n Hn.
    rewrite Z.land_spec, Z.bits_0.
    destruct (Z.lt_ge_cases n k) as [Hlt | Hge].
    - rewrite Z.shiftl_spec_low by exact Hlt. apply andb_false_r.
    - destruct (Z.eq_dec a 0) as [-> | Hnz]; [rewrite Z.bits_0; reflexivity |].
      assert (Hlog : Z.log2 a < k) by (apply Z.log2_lt_pow2; lia).
      rewrite (Z.bits_above_log2 a n) by lia. reflexivity. }
  rewrite <- Z.lxor_lor by exact Hland.
  rewrite <- Z.add_nocarry_lxor by exact Hland.
  rewrite Z.shiftl_mul_pow2 by exact Hk. reflexivity.
Qed.

Lemma land_255 a : Z.land a 255 = a mod 256.
Proof. change 255 with (Z.ones 8). rewrite Z.land_ones by lia. reflexivity. Qed.

Lemma timezone_bytes tz b0 b1 b2 b3 :
  - 2 ^ 31 <= tz < 2 ^ 31 ->
  b0 = Z.land tz 255 mod 256 ->
  b1 = Z.land (Z.shiftr tz 8) 255 mod 256 ->
  b2 = Z.land (Z.shiftr tz 16) 255 mod 256 ->
  b3 = Z.land (Z.shiftr tz 24) 255 mod 256 ->
  int_of_uint32
    (Z.lor (Z.lor (Z.lor (Z.land b0 255) (Z.shiftl (Z.land b1 255) 8))
              (Z.shiftl (Z.land b2 255) 16))
       (Z.shiftl (Z.land b3 255) 24)) = tz.
Proof.
  intros Htz -> -> -> ->.
  rewrite !land_255, !Z.shiftr_div_pow2 by lia.
  rewrite !Z.mod_mod by lia.
  change (2 ^ 8) with 256. change (2 ^ 16) with 65536.
  change (2 ^ 24) with 16777216. change (2 ^ 31) with 2147483648 in *.
  pose proof (Z.mod_pos_bound tz 256 ltac:(lia)) as H0.
  pose proof (Z.mod_pos_bound (tz / 256) 256 ltac:(lia)) as H1.
  pose proof (Z.mod_pos_bound (tz / 65536) 256 ltac:(lia)) as H2.
  pose proof (Z.mod_pos_bound (tz / 16777216) 256 ltac:(lia)) as H3.
  rewrite (lor_shiftl_add (tz mod 256) _ 8) by (change (2 ^ 8) with 256; lia).
  rewrite (lor_shiftl_add _ _ 16) by (change (2 ^ 8) with 256; change (2 ^ 16) with 65536; lia).
  rewrite (lor_shiftl_add _ _ 24)
    by (change (2 ^ 8) with 256; change (2 ^ 16) with 65536;
        change (2 ^ 24) with 16777216; lia).
  unfold int_of_uint32.
  change (2 ^ 8) with 256. change (2 ^ 16) with 65536.
  change (2 ^ 24) with 16777216. change (2 ^ 31) with 2147483648.
  change (2 ^ 32) with 4294967296.
  destruct (_ >=? _) eqn:Hge; Z.to_euclidean_division_equations; lia.
Qed.


(** *** Writes elsewhere *)

Lemma save_timezone_length e tz : length (save_timezone e tz) = length e.
Proof. unfold save_timezone. rewrite !EEPROM_write_length. reflexivity. Qed.

Lemma save_timezone_frame e tz b :
  b < ADDR_TZ \/ ADDR_TZ + 3 < b ->
  EEPROM_read (save_timezone e tz) b = EEPROM_read e b.
Proof.
  intros Hb. unfold save_timezone. rewrite !EEPROM_read_write_ne by lia. reflexivity.
Qed.

Lemma save_signature_frame e b :
  b < ADDR_SIGNATURE \/ ADDR_SIGNATURE + 3 < b ->
  EEPROM_read (save_signature e) b = EEPROM_read e b.
Proof.
  intros Hb. unfold save_signature. rewrite !EEPROM_read_write_ne by lia. reflexivity.
Qed.

Lemma save_signature_present e :
  length e = Z.to_nat EEPROM_SIZE -> signature_present (save_signature e) = true.
Proof.
  intros Hlen. unfold signature_present, save_signature.
  assert (Hl : Z.of_nat (length e) = 1024) by (rewrite Hlen; reflexivity).
  unfold ADDR_SIGNATURE.
  rewrite !EEPROM_read_write_ne by lia.
  rewrite EEPROM_read_write_eq by (rewrite ?EEPROM_write_length; lia).
  rewrite !EEPROM_read_write_ne by lia.
  rewrite EEPROM_read_write_eq by (rewrite ?EEPROM_write_length; lia).
  rewrite !EEPROM_read_write_ne by lia.
  rewrite EEPROM_read_write_eq by (rewrite ?EEPROM_write_length; lia).
  rewrite EEPROM_read_write_eq by (rewrite ?EEPROM_write_length; lia).
  reflexivity.
Qed.

Lemma load_save_timezone e tz :
  length e = Z.to_nat EEPROM_SIZE -> - 2 ^ 31 <= tz < 2 ^ 31 ->
  load_timezone (save_signature (save_timezone e tz)) = tz.
Proof.
  intros Hlen Htz.
  assert (Hl : Z.of_nat (length e) = 1024) by (rewrite Hlen; reflexivity).
  unfold load_timezone.
  rewrite !save_signature_frame by (unfold ADDR_TZ, ADDR_SIGNATURE; lia).
  apply timezone_bytes; [exact Htz | ..]; unfold save_timezone, ADDR_TZ.
  - rewrite !EEPROM_read_write_ne by lia.
    apply EEPROM_read_write_eq. lia.
  - rewrite !EEPROM_read_write_ne by lia.
    apply EEPROM_read_write_eq. rewrite !EEPROM_write_length. lia.
  - rewrite !EEPROM_read_write_ne by lia.
    apply EEPROM_read_write_eq. rewrite !EEPROM_write_length. lia.
  - apply EEPROM_read_write_eq. rewrite !EEPROM_write_length. lia.
Qed.

(** Peels the writes made after the field at hand. *)
Ltac frame_step :=
  lazymatch goal with
  | |- stored (save_signature ?e) _ _ =>
      apply (stored_frame e);
      [| intros b Hb; apply save_signature_frame;
         unfold ADDR_SIGNATURE, ADDR_SSID, ADDR_PASS, ADDR_CITY, ADDR_GREETING,
           ADDR_FIRMWARE_URL, ADDR_LUCKY_URL in *; lia]
  | |- stored (save_timezone ?e _) _ _ =>
      apply (stored_frame e);
      [| intros b Hb; apply save_timezone_frame;
         unfold ADDR_TZ, ADDR_SSID, ADDR_PASS, ADDR_CITY, ADDR_GREETING,
           ADDR_FIRMWARE_URL, ADDR_LUCKY_URL in *; lia]
  | |- stored (save_field ?e ?a ?s ?l) ?a ?s =>
      apply save_field_stored;
      [unfold ADDR_SSID, ADDR_PASS, ADDR_CITY, ADDR_GREETING,
         ADDR_FIRMWARE_URL, ADDR_LUCKY_URL; lia
      | rewrite ?save_field_length;
        unfold ADDR_SSID, ADDR_PASS, ADDR_CITY, ADDR_GREETING,
          ADDR_FIRMWARE_URL, ADDR_LUCKY_URL; lia
      | lia
      | simpl; lia]
  | |- stored (save_field ?e _ _ _) _ _ =>
      apply (stored_frame e);
      [| intros b Hb; apply save_field_frame;
         [lia | simpl; lia
         | unfold ADDR_SSID, ADDR_PASS, ADDR_CITY, ADDR_GREETING,
             ADDR_FIRMWARE_URL, ADDR_LUCKY_URL in *; lia]]
  end.

Theorem save_load_fields (cfg : settings) (e : list Z) :
  length e = Z.to_nat EEPROM_SIZE ->
  fits (wifiSSID cfg) 69 -> fits (wifiPass cfg) 69 -> fits (city cfg) 69 ->
  fits (greetingUrl cfg) 149 -> fits (firmwareUrl cfg) 149 ->
  fits (luckyImageUrl cfg) 199 ->
  - 2 ^ 31 <= timezoneOffset cfg < 2 ^ 31 ->
  let e' := saveSettings cfg e in
  signature_present e' = true
  /\ load_field e' ADDR_SSID 80 None = Done (wifiSSID cfg)
  /\ load_field e' ADDR_PASS 80 None = Done (wifiPass cfg)
  /\ load_field e' ADDR_CITY 80 None = Done (city cfg)
  /\ load_field e' ADDR_GREETING 150 (Some 149) = Done (greetingUrl cfg)
  /\ load_field e' ADDR_FIRMWARE_URL 150 (Some 149) = Done (firmwareUrl cfg)
  /\ load_field e' ADDR_LUCKY_URL 200 (Some 199) = Done (luckyImageUrl cfg)
  /\ load_timezone e' = timezoneOffset cfg.
Proof.
  intros Hlen [Hs1 Hs2] [Hp1 Hp2] [Hc1 Hc2] [Hg1 Hg2] [Hf1 Hf2] [Hl1 Hl2] Htz.
  assert (Hl : Z.of_nat (length e) = 1024) by (rewrite Hlen; reflexivity).
  cbv zeta. unfold saveSettings.
  split.
  { apply save_signature_present.
    rewrite save_timezone_length, !save_field_length. exact Hlen. }
  repeat split.
  1-6: apply load_field_stored; [repeat frame_step | assumption | lia | lia | simpl; lia].
  apply load_save_timezone; [| exact Htz].
  rewrite !save_field_length. exact Hlen.
Qed.



(** What a load reads of the store. *)
Lemma copy_loop_ext e e' addr n : forall i buf,
  (forall b, addr + 1 + i <= b < addr + 1 + i + Z.of_nat n ->
     EEPROM_read e' b = EEPROM_read e b) ->
  copy_loop e' addr n i buf = copy_loop e addr n i buf.
Proof.
  induction n as [| n IH]; intros i buf Hsame; [reflexivity |].
  simpl. rewrite Hsame by lia.
  destruct (store buf i (EEPROM_read e (addr + 1 + i))) as [buf' | |]; simpl;
    try reflexivity.
  apply IH. intros b Hb. apply Hsame. lia.
Qed.

Lemma load_field_ext e e' addr capacity k :
  0 <= k ->
  (forall b, addr <= b <= addr + k -> EEPROM_read e' b = EEPROM_read e b) ->
  load_field e' addr capacity (Some k) = load_field e addr capacity (Some k).
Proof.
  intros Hk Hsame. unfold load_field. rewrite (Hsame addr) by lia.
  destruct (_ && _); [| reflexivity].
  rewrite (copy_loop_ext e e'); [reflexivity |].
  intros b Hb. apply Hsame. lia.
Qed.

(** [saveSettings] leaves the slot of the entity tag alone. *)
Lemma saveSettings_etag_frame cfg e b :
  fits (wifiSSID cfg) 69 -> fits (wifiPass cfg) 69 -> fits (city cfg) 69 ->
  fits (greetingUrl cfg) 149 -> fits (firmwareUrl cfg) 149 ->
  fits (luckyImageUrl cfg) 199 ->
  ADDR_ETAG <= b <= ADDR_ETAG + 99 ->
  EEPROM_read (saveSettings cfg e) b = EEPROM_read e b.
Proof.
  intros [Hs1 _] [Hp1 _] [Hc1 _] [Hg1 _] [Hf1 _] [Hl1 _] Hb.
  unfold saveSettings, ADDR_ETAG in *.
  rewrite save_signature_frame by (unfold ADDR_SIGNATURE; lia).
  rewrite save_timezone_frame by (unfold ADDR_TZ; lia).
  rewrite !save_field_frame;
    first [reflexivity | lia | (simpl; lia)
          | unfold ADDR_SSID, ADDR_PASS, ADDR_CITY, ADDR_GREETING,
              ADDR_FIRMWARE_URL, ADDR_LUCKY_URL; lia].
Qed.

Theorem save_load_within_capacity (cfg : settings) (e : list Z) :
  length e = Z.to_nat EEPROM_SIZE ->
  fits (wifiSSID cfg) 69 -> fits (wifiPass cfg) 69 -> fits (city cfg) 69 ->
  fits (greetingUrl cfg) 149 -> fits (firmwareUrl cfg) 149 ->
  fits (luckyImageUrl cfg) 199 ->
  - 2 ^ 31 <= timezoneOffset cfg < 2 ^ 31 ->
  signature_present (saveSettings cfg e) = true
  /\ loadSettings (saveSettings cfg e)
     = (do etag <- load_field e ADDR_ETAG 100 (Some 99);
        Done {| wifiSSID := wifiSSID cfg; wifiPass := wifiPass cfg;
                city := city cfg; greetingUrl := greetingUrl cfg;
                firmwareUrl := firmwareUrl cfg;
                luckyImageUrl := luckyImageUrl cfg;
                timezoneOffset := timezoneOffset cfg;
                currentFirmwareETag := WString.trim etag |}).
Proof.
  intros Hlen Hs Hp Hc Hg Hf Hl Htz.
  destruct (save_load_fields cfg e Hlen Hs Hp Hc Hg Hf Hl Htz)
    as (Hsig & Hssid & Hpass & Hcity & Hgreet & Hfirm & Hlucky & Htime).
  split; [exact Hsig |].
  unfold loadSettings.
  rewrite Hssid, Hpass, Hcity, Hgreet, Hfirm, Hlucky, Htime. cbn [bind].
  rewrite (load_field_ext e (saveSettings cfg e)); [| lia |].
  - destruct (load_field e ADDR_ETAG 100 (Some 99)); reflexivity.
  - intros b Hb. apply saveSettings_etag_frame; assumption.
Qed.

End StoreFacts.

(** ** Configuration store *)

Section ConfigFacts.

Import Config.

(** [loadSettings] has no test of the signature of its own: on erased
    flash every length byte is the 0xFF sentinel and the four offset
    bytes decode to -1. *)
Lemma loadSettings_erased :
  loadSettings erased
  = Done {| wifiSSID := ""; wifiPass := ""; city := ""; greetingUrl := "";
            firmwareUrl := ""; luckyImageUrl := ""; timezoneOffset := -1;
            currentFirmwareETag := "" |}.
Proof. vm_compute. reflexivity. Qed.

(** A record within the sizes of the layout comes back as saved. *)
Lemma save_load_small :
  loadSettings
    (saveSettings (form_settings "home" "secret" "https://example.org/g.txt") erased)
  = Done (form_settings "home" "secret" "https://example.org/g.txt").
Proof.
  destruct (save_load_within_capacity
              (form_settings "home" "secret" "https://example.org/g.txt") erased)
    as [_ H].
  - reflexivity.
  - split; [vm_compute; discriminate | reflexivity].
  - split; [vm_compute; discriminate | reflexivity].
  - split; [vm_compute; discriminate | reflexivity].
  - split; [vm_compute; discriminate | reflexivity].
  - split; [vm_compute; discriminate | reflexivity].
  - split; [vm_compute; discriminate | reflexivity].
  - split; [vm_compute; discriminate | reflexivity].
  - rewrite H. reflexivity.
Qed.

End ConfigFacts.

(** *** What a load reads, and what it yields without a record *)

Section LoadReads.

Import Config.

Lemma load_field_reads e e' addr capacity bound :
  (forall b, addr <= b <= addr + 254 -> EEPROM_read e' b = EEPROM_read e b) ->
  load_field e' addr capacity bound = load_field e addr capacity bound.
Proof.
  intros Hsame. unfold load_field. rewrite (Hsame addr) by lia.
  destruct ((EEPROM_read e addr >? 0) && (EEPROM_read e addr <? 255)) eqn:H;
    [| reflexivity].
  rewrite (copy_loop_ext e e'); [reflexivity |].
  intros b Hb. apply Hsame. destruct bound; lia.
Qed.

Lemma load_timezone_reads e e' :
  (forall b, ADDR_TZ <= b <= ADDR_TZ + 3 -> EEPROM_read e' b = EEPROM_read e b) ->
  load_timezone e' = load_timezone e.
Proof.
  intros Hsame. unfold load_timezone. rewrite !Hsame by lia. reflexivity.
Qed.

Lemma signature_present_reads e e' :
  (forall b, ADDR_SIGNATURE <= b <= ADDR_SIGNATURE + 3 ->
     EEPROM_read e' b = EEPROM_read e b) ->
  signature_present e' = signature_present e.
Proof.
  intros Hsame. unfold signature_present. rewrite !Hsame by lia. reflexivity.
Qed.

(** No read of [loadSettings] falls on the four signature bytes. *)
Lemma loadSettings_reads e e' :
  (forall b, ~ (ADDR_SIGNATURE <= b < ADDR_SIGNATURE + 4) ->
     EEPROM_read e' b = EEPROM_read e b) ->
  loadSettings e' = loadSettings e.
Proof.
  intros Hsame. unfold loadSettings.
  rewrite (load_field_reads e e' ADDR_SSID)
    by (intros b Hb; apply Hsame; unfold ADDR_SSID, ADDR_SIGNATURE in *; lia).
  rewrite (load_field_reads e e' ADDR_PASS)
    by (intros b Hb; apply Hsame; unfold ADDR_PASS, ADDR_SIGNATURE in *; lia).
  rewrite (load_field_reads e e' ADDR_CITY)
    by (intros b Hb; apply Hsame; unfold ADDR_CITY, ADDR_SIGNATURE in *; lia).
  rewrite (load_field_ext e e' ADDR_GREETING)
    by (first [lia | intros b Hb; apply Hsame;
                     unfold ADDR_GREETING, ADDR_SIGNATURE in *; lia]).
  rewrite (load_field_ext e e' ADDR_FIRMWARE_URL)
    by (first [lia | intros b Hb; apply Hsame;
                     unfold ADDR_FIRMWARE_URL, ADDR_SIGNATURE in *; lia]).
  rewrite (load_field_ext e e' ADDR_ETAG)
    by (first [lia | intros b Hb; apply Hsame;
                     unfold ADDR_ETAG, ADDR_SIGNATURE in *; lia]).
  rewrite (load_field_ext e e' ADDR_LUCKY_URL)
    by (first [lia | intros b Hb; apply Hsame;
                     unfold ADDR_LUCKY_URL, ADDR_SIGNATURE in *; lia]).
  rewrite (load_timezone_reads e e')
    by (intros b Hb; apply Hsame; unfold ADDR_TZ, ADDR_SIGNATURE in *; lia).
  reflexivity.
Qed.

Lemma load_field_blank e addr capacity bound :
  no_field e addr -> load_field e addr capacity bound = Done EmptyString.
Proof.
  unfold no_field, load_field. intros H.
  destruct ((EEPROM_read e addr >? 0) && (EEPROM_read e addr <? 255)) eqn:E;
    [| reflexivity].
  apply andb_true_iff in E. destruct E as [E1 E2]. exfalso. apply H. lia.
Qed.

End LoadReads.

(** C6, as stated, fails for the load itself, which has no test of the
    signature: on erased storage (every byte 0xFF, no signature) it
    yields the offset -1, not 0; on a saved record whose signature is
    corrupted it yields the stored strings, not empty ones; and on
    erased storage with the stray length byte 80 for the SSID it stores
    past its 80-byte array. *)
Lemma load_without_signature :
  ~ (forall e, Config.signature_present e = false ->
       exists cfg, Config.loadSettings e = Config.Done cfg
                   /\ Config.wifiSSID cfg = ""%string
                   /\ Config.timezoneOffset cfg = 0)
  /\ Config.signature_present Config.erased = false
  /\ Config.loadSettings Config.erased
     = Config.Done {| Config.wifiSSID := ""; Config.wifiPass := "";
                      Config.city := ""; Config.greetingUrl := "";
                      Config.firmwareUrl := ""; Config.luckyImageUrl := "";
                      Config.timezoneOffset := -1;
                      Config.currentFirmwareETag := "" |}
  /\ Config.signature_present Config.corrupted_signature = false
  /\ Config.loadSettings Config.corrupted_signature
     = Config.Done (Config.form_settings "home" "secret" "")
  /\ Config.signature_present Config.stray_length = false
  /\ Config.loadSettings Config.stray_length = Config.OutOfBounds 80 80.
Proof.
  assert (He : Config.loadSettings Config.erased
               = Config.Done {| Config.wifiSSID := ""; Config.wifiPass := "";
                                Config.city := ""; Config.greetingUrl := "";
                                Config.firmwareUrl := "";
                                Config.luckyImageUrl := "";
                                Config.timezoneOffset := -1;
                                Config.currentFirmwareETag := "" |})
    by (vm_compute; reflexivity).
  split; [| split; [reflexivity | split; [exact He |]]].
  - intros H. destruct (H Config.erased eq_refl) as (cfg & Hload & _ & Htz).
    rewrite He in Hload. injection Hload as <-. discriminate Htz.
  - split; [vm_compute; reflexivity |].
    split; [vm_compute; reflexivity |].
    split; vm_compute; reflexivity.
Qed.

(** C6, amended. At boot the configuration is loaded only when the four
    signature bytes read "CFG1": with a missing or invalid record [setup]
    does not fail and does not run the load, every string of the
    configuration stays empty and the timezone offset 0, and the device
    is in configuration mode, whatever else the store holds and whether
    or not the button is held.  The load itself does not look at the
    signature: its outcome is the same for any two stores that differ
    only in the signature bytes; and on a store without a recorded
    string (every length byte 0 or 0xFF) it yields empty strings and the
    offset decoded from the four offset bytes. *)
Theorem load_invalid_record (e : list Z) (buttonPressed : bool) :
  (Config.signature_present e = false ->
   Config.setup e buttonPressed = Config.Done (Config.initial_settings, 1))
  /\ (forall e',
        (forall b, ~ (Config.ADDR_SIGNATURE <= b < Config.ADDR_SIGNATURE + 4) ->
           Config.EEPROM_read e' b = Config.EEPROM_read e b) ->
        Config.loadSettings e' = Config.loadSettings e)
  /\ (Config.no_record e ->
      Config.loadSettings e
      = Config.Done {| Config.wifiSSID := ""; Config.wifiPass := "";
                       Config.city := ""; Config.greetingUrl := "";
                       Config.firmwareUrl := ""; Config.luckyImageUrl := "";
                       Config.timezoneOffset := Config.load_timezone e;
                       Config.currentFirmwareETag := "" |}).
Proof.
  split; [| split].
  - intros Hsig. unfold Config.setup. rewrite Hsig. reflexivity.
  - intros e' Hsame. apply loadSettings_reads. exact Hsame.
  - intros (H1 & H2 & H3 & H4 & H5 & H6 & H7). unfold Config.loadSettings.
    rewrite !load_field_blank by assumption. reflexivity.
Qed.

(** Erased storage, every byte 0xFF: [setup] leaves the defaults, and
    the load, had it run, would have given the offset -1. *)
Lemma load_invalid_record_witness :
  Config.signature_present Config.erased = false
  /\ Config.setup Config.erased false
     = Config.Done (Config.initial_settings, 1)
  /\ Config.no_record Config.erased
  /\ Config.loadSettings Config.erased
     = Config.Done {| Config.wifiSSID := ""; Config.wifiPass := "";
                      Config.city := ""; Config.greetingUrl := "";
                      Config.firmwareUrl := ""; Config.luckyImageUrl := "";
                      Config.timezoneOffset := -1;
                      Config.currentFirmwareETag := "" |}.
Proof.
  assert (Hblank : Config.no_record Config.erased).
  { unfold Config.no_record, Config.no_field.
    repeat split; vm_compute; intros [_ H]; discriminate H. }
  split; [reflexivity |].
  split; [exact (proj1 (load_invalid_record Config.erased false) eq_refl) |].
  split; [exact Hblank |].
  exact (proj2 (proj2 (load_invalid_record Config.erased false)) Hblank).
Defined.

(** C5, at failing inputs. An SSID of 75 characters saved with the
    password "secret" is read back as its first 69 characters followed by
    the length byte and the first characters of the password, which is not
    a truncation of the SSID; and a greeting URL of 160 characters is saved
    whole, so that the load runs past its 150-byte buffer. *)
Theorem save_load_oversize_fields :
  (exists cfg',
     Config.loadSettings
       (Config.saveSettings
          (Config.form_settings (Config.repeat_char 75 "a") "secret" "")
          Config.erased)
     = Config.Done cfg'
     /\ Config.wifiSSID cfg'
        = String.append (Config.repeat_char 69 "a")
            (String (ascii_of_nat 6) "secre")
     /\ WString.starts_with (Config.wifiSSID cfg') (Config.repeat_char 75 "a")
        = false)
  /\ Config.loadSettings
       (Config.saveSettings
          (Config.form_settings "home" "secret" (Config.repeat_char 160 "g"))
          Config.erased)
     = Config.OutOfBounds 160 150.
Proof.
  split.
  - eexists. split; [vm_compute; reflexivity |].
    split; vm_compute; reflexivity.
  - vm_compute. reflexivity.
Qed.

(** C10, at a failing input. The store written by [saveSettings] for an
    SSID of 80 characters carries the signature and the length byte 80;
    loading it stores the terminator at index 80 of the 80-byte SSID
    buffer.  Likewise a length byte of 150 at the greeting URL, left by a
    URL of 150 characters, puts the terminator at index 150 of a 150-byte
    buffer, although the copy loop stops at 149. *)
Theorem loadSettings_store_past_buffer :
  let rom := Config.saveSettings
               (Config.form_settings (Config.repeat_char 80 "a") "" "")
               Config.erased in
  let rom' := Config.saveSettings
                (Config.form_settings "home" "" (Config.repeat_char 150 "g"))
                Config.erased in
  Config.signature_present rom = true
  /\ Config.EEPROM_read rom Config.ADDR_SSID = 80
  /\ Config.load_field rom Config.ADDR_SSID 80 None = Config.OutOfBounds 80 80
  /\ Config.setup rom false = Config.OutOfBounds 80 80
  /\ Config.EEPROM_read rom' Config.ADDR_GREETING = 150
  /\ Config.load_field rom' Config.ADDR_GREETING 150 (Some 149)
     = Config.OutOfBounds 150 150.
Proof. vm_compute. repeat split; reflexivity. Qed.

(** ** Firmware update engine *)

(** C3, as stated, fails: a response without a declared length (size -1)
    that delivers ten bytes is committed, with the identifier persisted,
    although the count of received bytes is not the declared length. *)
Lemma commit_without_declared_length :
  ~ (forall e url tag rom r rom',
       OTA.startOTAUpdate e url tag rom = (OTA.UpdateSuccess r, rom') ->
       r = OTA.getSize e)
  /\ OTA.startOTAUpdate OTA.no_length_env "https://example.org/fw.bin" "v2"
       Config.erased
     = (OTA.UpdateSuccess 10, OTA.persist_etag "v2" Config.erased)
  /\ OTA.persist_etag "v2" Config.erased <> Config.erased.
Proof.
  split; [| split].
  - intros H.
    specialize (H OTA.no_length_env "https://example.org/fw.bin"%string "v2"%string
                  Config.erased 10 (OTA.persist_etag "v2" Config.erased) eq_refl).
    discriminate H.
  - reflexivity.
  - vm_compute. discriminate.
Qed.

(** C3, amended. The update routine persists the new identifier and
    reboots into the success path only when the download loop was not
    left by a write error, the flash updater reports success at the end
    and, where the response declares a positive content length, the count
    of received bytes equals it; a response that declares no length is
    committed with whatever was received.  Every other outcome (a count
    that differs from a declared length, a write error, an HTTP failure,
    a timeout, a failure of the updater) leaves the store as it was. *)
Theorem startOTAUpdate_commit (e : OTA.env) (url tag : string) (rom : list Z) :
  match OTA.startOTAUpdate e url tag rom with
  | (OTA.UpdateSuccess r, rom') =>
      OTA.update_end_ok e = true
      /\ rom' = OTA.persist_etag tag rom
      /\ (exists x, OTA.download (OTA.getSize e) (OTA.stream e) 0 (OTA.t_start e)
                    = Some (x, r)
                    /\ x <> OTA.WriteError)
      /\ (0 < OTA.getSize e -> r = OTA.getSize e)
  | (_, rom') => rom' = rom
  end.
Proof.
  unfold OTA.startOTAUpdate.
  destruct (negb (OTA.wifi_up e) && negb (OTA.wifi_joined e)); [reflexivity |].
  destruct (String.eqb url ""); [reflexivity |].
  destruct (OTA.connect_loop e 3 0 (-1)) as [code |]; [| reflexivity].
  destruct (negb (code =? OTA.HTTP_CODE_OK)); [reflexivity |].
  destruct (negb (OTA.update_begin_ok e)); [reflexivity |].
  destruct (OTA.download (OTA.getSize e) (OTA.stream e) 0 (OTA.t_start e))
    as [[x r] |] eqn:Hd; [| reflexivity].
  destruct ((OTA.getSize e >? 0) && negb (r =? OTA.getSize e)) eqn:Hcheck;
    [reflexivity |].
  destruct (OTA.Update_end e x) eqn:Hend; [| reflexivity].
  assert (Hlen : 0 < OTA.getSize e -> r = OTA.getSize e).
  { intros Hpos. apply andb_false_iff in Hcheck.
    destruct Hcheck as [H | H]; [lia |].
    apply negb_false_iff in H. lia. }
  assert (Hx : x <> OTA.WriteError) by (intros ->; discriminate Hend).
  split; [destruct x; [exact Hend | exact Hend | contradiction] |].
  split; [reflexivity |].
  split; [exists x; split; [reflexivity | exact Hx] | exact Hlen].
Qed.

(** A response that declares 2048 bytes and delivers them is committed,
    and the count received is the declared one; a download without a
    declared length that meets a write error is not committed, although
    the updater would report success at the end of a clean one. *)
Lemma startOTAUpdate_commit_witness :
  OTA.startOTAUpdate OTA.full_length_env "https://example.org/fw.bin" "v2"
    Config.erased
  = (OTA.UpdateSuccess 2048, OTA.persist_etag "v2" Config.erased)
  /\ 0 < OTA.getSize OTA.full_length_env
  /\ 2048 = OTA.getSize OTA.full_length_env
  /\ OTA.download (OTA.getSize OTA.failed_write_env)
       (OTA.stream OTA.failed_write_env) 0 (OTA.t_start OTA.failed_write_env)
     = Some (OTA.WriteError, 1024)
  /\ snd (OTA.startOTAUpdate OTA.failed_write_env "https://example.org/fw.bin"
            "v2" Config.erased)
     = Config.erased.
Proof.
  split; [reflexivity |].
  assert (Hpos : 0 < OTA.getSize OTA.full_length_env) by (simpl; lia).
  split; [exact Hpos |].
  split.
  - pose proof (startOTAUpdate_commit OTA.full_length_env
                  "https://example.org/fw.bin" "v2" Config.erased) as H.
    change (OTA.startOTAUpdate OTA.full_length_env "https://example.org/fw.bin"
              "v2" Config.erased)
      with (OTA.UpdateSuccess 2048, OTA.persist_etag "v2" Config.erased) in H.
    destruct H as (_ & _ & _ & Hlen).
    exact (Hlen Hpos).
  - split; [reflexivity |].
    pose proof (startOTAUpdate_commit OTA.failed_write_env
                  "https://example.org/fw.bin" "v2" Config.erased) as H.
    change (OTA.startOTAUpdate OTA.failed_write_env "https://example.org/fw.bin"
              "v2" Config.erased)
      with (OTA.UpdateFailed, Config.erased) in H.
    exact H.
Defined.

(** C4, as stated, fails: with no stored identifier, a check that meets
    the entity tag "v2" schedules an update for it and stores nothing. *)
Lemma first_observation_schedules_update :
  ~ (forall e url st,
       OTA.currentFirmwareETag st = ""%string ->
       OTA.etag_header e <> ""%string ->
       OTA.pendingOTA_ETag (OTA.checkForFirmwareUpdate e url st)
       = OTA.pendingOTA_ETag st)
  /\ OTA.checkForFirmwareUpdate (OTA.tagged "v2") "https://example.org/fw.bin"
       {| OTA.currentFirmwareETag := ""; OTA.pendingOTA_ETag := "" |}
     = {| OTA.currentFirmwareETag := ""; OTA.pendingOTA_ETag := "v2" |}.
Proof.
  split; [| reflexivity].
  intros H.
  specialize (H (OTA.tagged "v2") "https://example.org/fw.bin"%string
                {| OTA.currentFirmwareETag := ""; OTA.pendingOTA_ETag := "" |}
                eq_refl).
  simpl in H. discriminate H. discriminate.
Qed.

(** C4, amended. The update check never changes the stored identifier.
    When it runs with no stored identifier and the response carries a
    non-empty entity tag, it schedules an update for that tag; and an
    update is scheduled only for a non-empty remote tag, when the stored
    identifier is empty or differs from it. *)
Theorem checkForFirmwareUpdate_schedule (e : OTA.check_env) (url : string)
    (st : OTA.state) :
  let st' := OTA.checkForFirmwareUpdate e url st in
  OTA.currentFirmwareETag st' = OTA.currentFirmwareETag st
  /\ (OTA.wifi_connected e = true -> url <> ""%string ->
      OTA.client_allocated e = true -> OTA.http_begin_ok e = true ->
      OTA.httpCode e = 200 ->
      OTA.currentFirmwareETag st = ""%string ->
      OTA.etag_header e <> ""%string ->
      OTA.pendingOTA_ETag st' = OTA.etag_header e)
  /\ (OTA.pendingOTA_ETag st' <> OTA.pendingOTA_ETag st ->
      OTA.pendingOTA_ETag st' = OTA.etag_header e
      /\ OTA.etag_header e <> ""%string
      /\ (OTA.currentFirmwareETag st = ""%string
          \/ OTA.currentFirmwareETag st <> OTA.etag_header e)).
Proof.
  unfold OTA.checkForFirmwareUpdate. cbv zeta.
  split; [| split].
  - break_match; reflexivity.
  - intros -> Hurl -> -> -> -> Htag.
    apply String.eqb_neq in Hurl, Htag. rewrite Hurl, Htag. reflexivity.
  - destruct (negb (OTA.wifi_connected e) || String.eqb url ""); [congruence |].
    destruct (negb (OTA.client_allocated e)); [congruence |].
    destruct (OTA.http_begin_ok e); [| congruence].
    destruct (OTA.httpCode e =? OTA.HTTP_CODE_OK); [| congruence].
    destruct (String.eqb (OTA.etag_header e) "") eqn:Htag; [simpl; congruence |].
    destruct (String.eqb (OTA.currentFirmwareETag st) "") eqn:Hcur; simpl.
    + intros _. apply String.eqb_neq in Htag. apply String.eqb_eq in Hcur. auto.
    + destruct (String.eqb (OTA.currentFirmwareETag st) (OTA.etag_header e)) eqn:Hsame;
        simpl; [congruence |].
      intros _. apply String.eqb_neq in Htag, Hsame. auto.
Qed.

Lemma checkForFirmwareUpdate_schedule_witness :
  OTA.pendingOTA_ETag
    (OTA.checkForFirmwareUpdate (OTA.tagged "v2") "https://example.org/fw.bin"
       {| OTA.currentFirmwareETag := ""; OTA.pendingOTA_ETag := "" |})
  = "v2"%string.
Proof.
  apply (proj1 (proj2 (checkForFirmwareUpdate_schedule (OTA.tagged "v2")
                         "https://example.org/fw.bin"
                         {| OTA.currentFirmwareETag := "";
                            OTA.pendingOTA_ETag := "" |})));
    first [reflexivity | discriminate].
Defined.

(** The older sketch hu-061.ino keeps the first tag it meets: the first tag
    seen is kept and no update is started; a later, different tag starts
    the update. *)
Lemma checkForFirmwareUpdate_hu061_first_observation (e : OTA.check_env)
    (url : string) :
  OTA.wifi_connected e = true -> url <> ""%string ->
  OTA.http_begin_ok e = true -> OTA.httpCode e = 200 ->
  OTA.etag_header e <> ""%string ->
  OTA.checkForFirmwareUpdate_hu061 e url "" = (OTA.etag_header e, false).
Proof.
  unfold OTA.checkForFirmwareUpdate_hu061.
  intros -> Hurl -> -> Htag.
  apply String.eqb_neq in Hurl, Htag. rewrite Hurl, Htag. reflexivity.
Qed.

(** ** Mode controller *)

Section ModeFacts.

Import Mode.







End ModeFacts.




(** * Further properties of the sketch *)

Section LayoutFacts.
Import Config Layout.

Lemma field_length_range s limit :
  match limit with Some l => 0 <= l | None => True end ->
  0 <= field_length s limit <= 255 /\ within limit (field_length s limit).
Proof.
  intros Hl. unfold field_length, within. cbv zeta.
  pose proof (Z.mod_pos_bound (WString.len s) 256 ltac:(lia)) as H.
  destruct limit as [l |]; [| split; [lia | exact I]].
  destruct (WString.len s mod 256 >? l) eqn:E; lia.
Qed.

(** A field of [saveSettings] writes its length byte and the bytes behind
    it, nothing else. *)
Lemma save_field_writes e addr s limit b :
  match limit with Some l => 0 <= l | None => True end ->
  b < addr \/ addr + field_length s limit < b ->
  EEPROM_read (save_field e addr s limit) b = EEPROM_read e b.
Proof.
  intros Hl Hb. unfold save_field.
  pose proof (field_length_range s limit Hl) as [Hr _].
  destruct (field_length s limit >? 0) eqn:Hpos.
  - rewrite write_chars_read_out by lia. apply EEPROM_read_write_ne. lia.
  - apply EEPROM_read_write_ne. lia.
Qed.

Lemma save_signature_size e : length (save_signature e) = length e.
Proof. unfold save_signature. rewrite !EEPROM_write_length. reflexivity. Qed.

Lemma saveSettings_length cfg e : length (saveSettings cfg e) = length e.
Proof.
  unfold saveSettings.
  rewrite save_signature_size, save_timezone_length, !save_field_length.
  reflexivity.
Qed.

(** X1. Whatever the lengths of the fields, [saveSettings] leaves the
    signature in place and the timezone offset readable. *)
Theorem saveSettings_signature_timezone (cfg : settings) (e : list Z) :
  length e = Z.to_nat EEPROM_SIZE ->
  - 2 ^ 31 <= timezoneOffset cfg < 2 ^ 31 ->
  signature_present (saveSettings cfg e) = true
  /\ load_timezone (saveSettings cfg e) = timezoneOffset cfg.
Proof.
  intros Hlen Htz. unfold saveSettings. split.
  - apply save_signature_present.
    rewrite save_timezone_length, !save_field_length. exact Hlen.
  - apply load_save_timezone; [| exact Htz].
    rewrite !save_field_length. exact Hlen.
Qed.

Lemma saveSettings_signature_timezone_witness :
  signature_present (saveSettings (form_settings "home" "secret" "") erased) = true
  /\ load_timezone (saveSettings (form_settings "home" "secret" "") erased)
     = 25200.
Proof.
  apply (saveSettings_signature_timezone (form_settings "home" "secret" "") erased).
  - reflexivity.
  - simpl. lia.
Defined.

Lemma saveSettings_etag_untouched cfg e b :
  ADDR_ETAG <= b <= ADDR_ETAG + 99 ->
  EEPROM_read (saveSettings cfg e) b = EEPROM_read e b.
Proof.
  intros Hb. unfold saveSettings, ADDR_ETAG in Hb |- *.
  rewrite save_signature_frame by (unfold ADDR_SIGNATURE; lia).
  rewrite save_timezone_frame by (unfold ADDR_TZ; lia).
  pose proof (field_length_range (luckyImageUrl cfg) (Some 200) ltac:(simpl; lia))
    as [_ H6].
  pose proof (field_length_range (firmwareUrl cfg) (Some 150) ltac:(simpl; lia))
    as [_ H5].
  pose proof (field_length_range (greetingUrl cfg) (Some 200) ltac:(simpl; lia))
    as [_ H4].
  pose proof (field_length_range (city cfg) None I) as [H3 _].
  pose proof (field_length_range (wifiPass cfg) None I) as [H2 _].
  pose proof (field_length_range (wifiSSID cfg) None I) as [H1 _].
  unfold within in H4, H5, H6.
  unfold ADDR_SSID, ADDR_PASS, ADDR_CITY, ADDR_GREETING, ADDR_FIRMWARE_URL,
    ADDR_LUCKY_URL.
  rewrite (save_field_writes _ 710) by first [exact I | lia].
  rewrite (save_field_writes _ 430) by first [exact I | lia].
  rewrite (save_field_writes _ 220) by first [exact I | lia].
  rewrite (save_field_writes _ 140) by first [exact I | lia].
  rewrite (save_field_writes _ 70) by first [exact I | lia].
  rewrite (save_field_writes _ 0) by first [exact I | lia].
  reflexivity.
Qed.

(** X2. [saveSettings] never writes into the slot of the entity tag: the
    tag read back after a save is the one read before it, whatever the
    settings saved. *)
Theorem saveSettings_keeps_etag (cfg : settings) (e : list Z) :
  load_field (saveSettings cfg e) ADDR_ETAG 100 (Some 99)
  = load_field e ADDR_ETAG 100 (Some 99).
Proof.
  apply load_field_ext; [lia |].
  intros b Hb. apply saveSettings_etag_untouched. exact Hb.
Qed.


(** *** When a load goes through *)

Lemma String_of_buf_total n : forall buf,
  (forall j, (j <= n)%nat -> exists v, buf !! j = Some (Some v)) ->
  buf !! n = Some (Some 0) ->
  exists s, String_of_buf buf = Done s /\ (String.length s <= n)%nat.
Proof.
  induction n as [| n IH]; intros buf Hcells Hend.
  - destruct buf as [| [b |] rest]; simpl in Hend; try discriminate.
    injection Hend as ->. exists EmptyString. split; [reflexivity | simpl; lia].
  - destruct (Hcells O ltac:(lia)) as [v Hv].
    destruct buf as [| [b |] rest]; simpl in Hv; try discriminate.
    simpl. destruct (b =? 0).
    + exists EmptyString. split; [reflexivity | simpl; lia].
    + destruct (IH rest) as (s & Hs & Hlen).
      * intros j Hj. apply (Hcells (S j)). lia.
      * exact Hend.
      * rewrite Hs. simpl. eexists. split; [reflexivity | simpl; lia].
Qed.

Lemma copy_loop_overflow e addr n : forall i buf,
  0 <= i <= Z.of_nat (length buf) -> Z.of_nat (length buf) < i + Z.of_nat n ->
  copy_loop e addr n i buf
  = OutOfBounds (Z.of_nat (length buf)) (Z.of_nat (length buf)).
Proof.
  induction n as [| n IH]; intros i buf Hi Hover; [lia |].
  simpl. unfold store.
  destruct ((0 <=? i) && (i <? Z.of_nat (length buf))) eqn:Hin.
  - simpl. rewrite IH; rewrite ?length_insert; [reflexivity | lia | lia].
  - simpl. replace i with (Z.of_nat (length buf)) by lia. reflexivity.
Qed.

Lemma new_buf_size capacity : 0 <= capacity -> Z.of_nat (length (new_buf capacity)) = capacity.
Proof. intros H. unfold new_buf. rewrite length_replicate. lia. Qed.

(** What one field of [loadSettings] comes to, by its length byte. *)
Lemma load_field_outcome e addr capacity bound :
  0 < capacity -> bound = None \/ bound = Some (capacity - 1) ->
  let len := EEPROM_read e addr in
  (~ 0 < len < 255 -> load_field e addr capacity bound = Done EmptyString)
  /\ (0 < len < 255 -> len < capacity ->
      exists s, load_field e addr capacity bound = Done s /\ WString.len s <= len)
  /\ (0 < len < 255 -> capacity <= len ->
      exists i, load_field e addr capacity bound = OutOfBounds i capacity).
Proof.
  intros Hcap Hbound. cbv zeta. unfold load_field.
  pose proof (new_buf_size capacity ltac:(lia)) as Hsize.
  split; [| split].
  - intros Hlen.
    destruct ((EEPROM_read e addr >? 0) && (EEPROM_read e addr <? 255)) eqn:H;
      [lia | reflexivity].
  - intros Hlen Hfit.
    assert (H : (EEPROM_read e addr >? 0) && (EEPROM_read e addr <? 255) = true) by lia.
    rewrite H.
    assert (Hn : match bound with
                 | Some b => Z.min (EEPROM_read e addr) b
                 | None => EEPROM_read e addr
                 end = EEPROM_read e addr)
      by (destruct Hbound as [-> | ->]; lia).
    rewrite Hn.
    destruct (copy_loop_done e addr (Z.to_nat (EEPROM_read e addr)) 0 (new_buf capacity))
      as (buf & Hrun & Hblen & Hin & _); [lia | lia |].
    rewrite Hrun. cbn [bind].
    rewrite store_done by lia. cbn [bind].
    destruct (String_of_buf_total (Z.to_nat (EEPROM_read e addr))
                (<[Z.to_nat (EEPROM_read e addr) := Some 0]> buf))
      as (s & Hs & Hslen).
    + intros j Hj. destruct (Nat.eq_dec j (Z.to_nat (EEPROM_read e addr))) as [-> | Hne].
      * exists 0. apply list_lookup_insert_eq. lia.
      * rewrite list_lookup_insert_ne by lia.
        eexists. apply Hin. lia.
    + apply list_lookup_insert_eq. lia.
    + exists s. split; [exact Hs | unfold WString.len; lia].
  - intros Hlen Hover.
    assert (H : (EEPROM_read e addr >? 0) && (EEPROM_read e addr <? 255) = true) by lia.
    rewrite H.
    destruct Hbound as [-> | ->].
    + destruct (Z.eq_dec (EEPROM_read e addr) capacity) as [Heq | Hne].
      * destruct (copy_loop_done e addr (Z.to_nat (EEPROM_read e addr)) 0
                    (new_buf capacity)) as (buf & Hrun & Hblen & _); [lia | lia |].
        rewrite Hrun. cbn [bind]. unfold store.
        assert (Hout : (0 <=? EEPROM_read e addr)
                       && (EEPROM_read e addr <? Z.of_nat (length buf)) = false) by lia.
        rewrite Hout. cbn [bind]. rewrite Hblen, Hsize. eexists. reflexivity.
      * rewrite copy_loop_overflow by lia. cbn [bind]. rewrite Hsize.
        eexists. reflexivity.
    + destruct (copy_loop_done e addr
                  (Z.to_nat (Z.min (EEPROM_read e addr) (capacity - 1))) 0
                  (new_buf capacity)) as (buf & Hrun & Hblen & _); [lia | lia |].
      rewrite Hrun. cbn [bind]. unfold store.
      assert (Hout : (0 <=? EEPROM_read e addr)
                     && (EEPROM_read e addr <? Z.of_nat (length buf)) = false) by lia.
      rewrite Hout. cbn [bind]. rewrite Hblen, Hsize. eexists. reflexivity.
Qed.


Lemma load_field_done_iff e addr capacity bound :
  0 < capacity -> bound = None \/ bound = Some (capacity - 1) ->
  ((exists s, load_field e addr capacity bound = Done s)
   <-> safe_length e addr capacity)
  /\ (forall s, load_field e addr capacity bound = Done s ->
      WString.len s < capacity).
Proof.
  intros Hcap Hbound.
  destruct (load_field_outcome e addr capacity bound Hcap Hbound)
    as (Hnone & Hfit & Hover).
  unfold safe_length.
  destruct (Z_lt_dec 0 (EEPROM_read e addr)) as [Hpos |];
    [destruct (Z_lt_dec (EEPROM_read e addr) 255) as [Hmax |] |].
  - destruct (Z_lt_dec (EEPROM_read e addr) capacity) as [Hin | Hout].
    + destruct (Hfit ltac:(lia) Hin) as (s & Hs & Hlen).
      split; [split; [lia | eauto] |].
      intros s' Hs'. rewrite Hs in Hs'. injection Hs' as <-. lia.
    + destruct (Hover ltac:(lia) ltac:(lia)) as (i & Hi).
      split; [split; [intros [s Hs]; congruence | lia] |].
      intros s Hs. congruence.
  - rewrite Hnone by lia.
    split; [split; [lia | eauto] |].
    intros s [= <-]. unfold WString.len. simpl. lia.
  - rewrite Hnone by lia.
    split; [split; [lia | eauto] |].
    intros s [= <-]. unfold WString.len. simpl. lia.
Qed.

Lemma trim_left_length s : (String.length (WString.trim_left s) <= String.length s)%nat.
Proof.
  induction s as [| c s IH]; simpl; [lia |].
  destruct (WString.isspace c); simpl; lia.
Qed.

Lemma trim_right_length s : (String.length (WString.trim_right s) <= String.length s)%nat.
Proof.
  induction s as [| c s IH]; simpl; [lia |].
  destruct (WString.trim_right s); simpl in *; [destruct (WString.isspace c); simpl |]; lia.
Qed.

Lemma trim_length s : WString.len (WString.trim s) <= WString.len s.
Proof.
  unfold WString.trim, WString.len.
  pose proof (trim_right_length (WString.trim_left s)).
  pose proof (trim_left_length s). lia.
Qed.

(** X3. [loadSettings] goes through exactly for the stores whose seven
    length bytes are safe, and the strings it then yields are shorter
    than the arrays they were built in. *)
Theorem loadSettings_done_iff (e : list Z) :
  ((exists cfg, loadSettings e = Done cfg) <-> all_safe e)
  /\ (forall cfg, loadSettings e = Done cfg ->
      WString.len (wifiSSID cfg) < 80 /\ WString.len (wifiPass cfg) < 80
      /\ WString.len (city cfg) < 80 /\ WString.len (greetingUrl cfg) < 150
      /\ WString.len (firmwareUrl cfg) < 150
      /\ WString.len (currentFirmwareETag cfg) < 100
      /\ WString.len (luckyImageUrl cfg) < 200).
Proof.
  unfold loadSettings, all_safe.
  destruct (load_field_done_iff e ADDR_SSID 80 None ltac:(lia) ltac:(auto)) as [I1 L1].
  destruct (load_field_done_iff e ADDR_PASS 80 None ltac:(lia) ltac:(auto)) as [I2 L2].
  destruct (load_field_done_iff e ADDR_CITY 80 None ltac:(lia) ltac:(auto)) as [I3 L3].
  destruct (load_field_done_iff e ADDR_GREETING 150 (Some 149) ltac:(lia) ltac:(auto))
    as [I4 L4].
  destruct (load_field_done_iff e ADDR_FIRMWARE_URL 150 (Some 149) ltac:(lia)
              ltac:(auto)) as [I5 L5].
  destruct (load_field_done_iff e ADDR_ETAG 100 (Some 99) ltac:(lia) ltac:(auto))
    as [I6 L6].
  destruct (load_field_done_iff e ADDR_LUCKY_URL 200 (Some 199) ltac:(lia) ltac:(auto))
    as [I7 L7].
  destruct (load_field e ADDR_SSID 80 None) as [s1 | |];
    [| split; [split; [intros [? ?]; discriminate
                      | intros (H & _); apply I1 in H; destruct H; discriminate]
              | intros ? ?; discriminate] ..].
  destruct (load_field e ADDR_PASS 80 None) as [s2 | |];
    [| split; [split; [intros [? ?]; discriminate
                      | intros (_ & H & _); apply I2 in H; destruct H; discriminate]
              | intros ? ?; discriminate] ..].
  destruct (load_field e ADDR_CITY 80 None) as [s3 | |];
    [| split; [split; [intros [? ?]; discriminate
                      | intros (_ & _ & H & _); apply I3 in H; destruct H; discriminate]
              | intros ? ?; discriminate] ..].
  destruct (load_field e ADDR_GREETING 150 (Some 149)) as [s4 | |];
    [| split; [split; [intros [? ?]; discriminate
                      | intros (_ & _ & _ & H & _); apply I4 in H; destruct H;
                        discriminate]
              | intros ? ?; discriminate] ..].
  destruct (load_field e ADDR_FIRMWARE_URL 150 (Some 149)) as [s5 | |];
    [| split; [split; [intros [? ?]; discriminate
                      | intros (_ & _ & _ & _ & H & _); apply I5 in H; destruct H;
                        discriminate]
              | intros ? ?; discriminate] ..].
  destruct (load_field e ADDR_ETAG 100 (Some 99)) as [s6 | |];
    [| split; [split; [intros [? ?]; discriminate
                      | intros (_ & _ & _ & _ & _ & H & _); apply I6 in H; destruct H;
                        discriminate]
              | intros ? ?; discriminate] ..].
  destruct (load_field e ADDR_LUCKY_URL 200 (Some 199)) as [s7 | |];
    [| split; [split; [intros [? ?]; discriminate
                      | intros (_ & _ & _ & _ & _ & _ & H); apply I7 in H; destruct H;
                        discriminate]
              | intros ? ?; discriminate] ..].
  cbn [bind]. split.
  - split; [intros _ | eauto].
    repeat split; first [apply I1 | apply I2 | apply I3 | apply I4 | apply I5
                        | apply I6 | apply I7]; eauto.
  - intros cfg [= <-]. cbn.
    pose proof (trim_length s6).
    specialize (L1 _ eq_refl). specialize (L2 _ eq_refl). specialize (L3 _ eq_refl).
    specialize (L4 _ eq_refl). specialize (L5 _ eq_refl). specialize (L6 _ eq_refl).
    specialize (L7 _ eq_refl). repeat split; lia.
Qed.

Lemma loadSettings_done_iff_witness :
  all_safe erased /\ exists cfg, loadSettings erased = Done cfg.
Proof.
  assert (H : all_safe erased).
  { unfold all_safe, safe_length. repeat split; vm_compute; intros [_ H];
      discriminate H. }
  split; [exact H |].
  exact (proj2 (proj1 (loadSettings_done_iff erased)) H).
Defined.

End LayoutFacts.

Section UpdateAndStore.
Import Config.

Lemma take_length n s :
  String.length (WString.take n s) = Nat.min n (String.length s).
Proof.
  revert s. induction n as [| n IH]; intros [| c s]; simpl; try reflexivity.
  rewrite IH. reflexivity.
Qed.

Lemma take_charAt n s i :
  (i < n)%nat -> WString.charAt (WString.take n s) i = WString.charAt s i.
Proof.
  revert s i. induction n as [| n IH]; intros s i Hi; [lia |].
  destruct s as [| c s]; [reflexivity |].
  destruct i as [| i]; [reflexivity |].
  unfold WString.charAt in *. simpl. apply IH. lia.
Qed.

Lemma take_no_nul n s : no_nul s = true -> no_nul (WString.take n s) = true.
Proof.
  revert s. induction n as [| n IH]; intros [| c s]; simpl; try reflexivity.
  intros H. apply andb_true_iff in H. destruct H as [Hc Hs].
  rewrite Hc, (IH s Hs). reflexivity.
Qed.

Lemma take_all n s : (String.length s <= n)%nat -> WString.take n s = s.
Proof.
  revert s. induction n as [| n IH]; intros [| c s]; simpl; try reflexivity;
    intros H; [lia |].
  rewrite IH by lia. reflexivity.
Qed.

(** The slot of the entity tag after a commit. *)
Lemma persist_etag_stored tag rom :
  length rom = Z.to_nat EEPROM_SIZE -> tag <> EmptyString ->
  stored (OTA.persist_etag tag rom) ADDR_ETAG (WString.take 90 tag).
Proof.
  intros Hlen Htag.
  assert (Hl : Z.of_nat (length rom) = 1024) by (rewrite Hlen; reflexivity).
  unfold OTA.persist_etag.
  apply String.eqb_neq in Htag. rewrite Htag. cbn [negb].
  set (n := if WString.len tag >? 90 then 90 else WString.len tag).
  assert (Hn : n = Z.of_nat (Nat.min 90 (String.length tag))).
  { unfold n. destruct (_ >? _) eqn:E; unfold WString.len in *; lia. }
  assert (Hpos : 0 < n).
  { rewrite Hn. destruct tag; [discriminate | simpl; lia]. }
  unfold ADDR_ETAG. split.
  - rewrite write_chars_read_out by lia.
    rewrite EEPROM_read_write_eq by lia.
    unfold WString.len. rewrite take_length, <- Hn. apply Z.mod_small. lia.
  - intros i Hi. rewrite take_length in Hi.
    rewrite write_chars_read_in; [| lia | rewrite EEPROM_write_length; lia | lia].
    rewrite take_charAt by lia. reflexivity.
Qed.

(** A commit writes into the slot of the entity tag only. *)
Lemma persist_etag_frame tag rom b :
  b < ADDR_ETAG \/ ADDR_ETAG + 90 < b ->
  EEPROM_read (OTA.persist_etag tag rom) b = EEPROM_read rom b.
Proof.
  intros Hb. unfold OTA.persist_etag.
  destruct (negb (String.eqb tag "")); [| reflexivity].
  set (n := if WString.len tag >? 90 then 90 else WString.len tag).
  assert (Hn : 0 <= n <= 90).
  { unfold n. destruct (_ >? _) eqn:E; unfold WString.len in *; lia. }
  rewrite write_chars_read_out by lia.
  apply EEPROM_read_write_ne. lia.
Qed.

Lemma persist_etag_length tag rom : length (OTA.persist_etag tag rom) = length rom.
Proof.
  unfold OTA.persist_etag. destruct (negb _); [| reflexivity].
  rewrite write_chars_length, EEPROM_write_length. reflexivity.
Qed.

(** A load reads its length byte and at most 254 bytes behind it. *)
(** X4. A commit changes the stored identifier and nothing else of the
    configuration. *)
Theorem commit_keeps_settings (tag : string) (rom : list Z) (cfg : settings) :
  length rom = Z.to_nat EEPROM_SIZE -> tag <> EmptyString -> no_nul tag = true ->
  loadSettings rom = Done cfg ->
  signature_present (OTA.persist_etag tag rom) = signature_present rom
  /\ loadSettings (OTA.persist_etag tag rom)
     = Done {| wifiSSID := wifiSSID cfg; wifiPass := wifiPass cfg;
               city := city cfg; greetingUrl := greetingUrl cfg;
               firmwareUrl := firmwareUrl cfg;
               luckyImageUrl := luckyImageUrl cfg;
               timezoneOffset := timezoneOffset cfg;
               currentFirmwareETag := WString.trim (WString.take 90 tag) |}.
Proof.
  intros Hlen Htag Hnn Hload. split.
  - apply signature_present_reads. intros b Hb. apply persist_etag_frame.
    unfold ADDR_SIGNATURE, ADDR_ETAG in *. lia.
  - unfold loadSettings in *.
    rewrite (load_field_reads rom _ ADDR_SSID)
      by (intros b Hb; apply persist_etag_frame; unfold ADDR_SSID, ADDR_ETAG in *; lia).
    rewrite (load_field_reads rom _ ADDR_PASS)
      by (intros b Hb; apply persist_etag_frame; unfold ADDR_PASS, ADDR_ETAG in *; lia).
    rewrite (load_field_reads rom _ ADDR_CITY)
      by (intros b Hb; apply persist_etag_frame; unfold ADDR_CITY, ADDR_ETAG in *; lia).
    rewrite (load_field_ext rom _ ADDR_GREETING);
      [| lia | intros b Hb; apply persist_etag_frame;
               unfold ADDR_GREETING, ADDR_ETAG in *; lia].
    rewrite (load_field_ext rom _ ADDR_FIRMWARE_URL);
      [| lia | intros b Hb; apply persist_etag_frame;
               unfold ADDR_FIRMWARE_URL, ADDR_ETAG in *; lia].
    rewrite (load_field_ext rom _ ADDR_LUCKY_URL);
      [| lia | intros b Hb; apply persist_etag_frame;
               unfold ADDR_LUCKY_URL, ADDR_ETAG in *; lia].
    rewrite (load_timezone_reads rom)
      by (intros b Hb; apply persist_etag_frame; unfold ADDR_TZ, ADDR_ETAG in *; lia).
    rewrite (load_field_stored (OTA.persist_etag tag rom) ADDR_ETAG (WString.take 90 tag)).
    + destruct (load_field rom ADDR_SSID 80 None); try discriminate.
      destruct (load_field rom ADDR_PASS 80 None); try discriminate.
      destruct (load_field rom ADDR_CITY 80 None); try discriminate.
      destruct (load_field rom ADDR_GREETING 150 (Some 149)); try discriminate.
      destruct (load_field rom ADDR_FIRMWARE_URL 150 (Some 149)); try discriminate.
      destruct (load_field rom ADDR_ETAG 100 (Some 99)); try discriminate.
      destruct (load_field rom ADDR_LUCKY_URL 200 (Some 199)); try discriminate.
      cbn [bind] in *. injection Hload as <-. reflexivity.
    + apply persist_etag_stored; assumption.
    + apply take_no_nul. exact Hnn.
    + unfold WString.len. rewrite take_length. lia.
    + unfold WString.len. rewrite take_length. lia.
    + unfold within, WString.len. rewrite take_length. lia.
Qed.


Lemma commit_keeps_settings_witness :
  loadSettings (OTA.persist_etag "v2" erased)
  = Done {| wifiSSID := ""; wifiPass := ""; city := ""; greetingUrl := "";
            firmwareUrl := ""; luckyImageUrl := ""; timezoneOffset := -1;
            currentFirmwareETag := "v2" |}.
Proof.
  refine (proj2 (commit_keeps_settings "v2" erased
                   {| wifiSSID := ""; wifiPass := ""; city := "";
                      greetingUrl := ""; firmwareUrl := ""; luckyImageUrl := "";
                      timezoneOffset := -1; currentFirmwareETag := "" |}
                   _ _ _ _)).
  - reflexivity.
  - discriminate.
  - reflexivity.
  - vm_compute. reflexivity.
Defined.

Lemma startOTAUpdate_success_store e url tag rom r rom' :
  OTA.startOTAUpdate e url tag rom = (OTA.UpdateSuccess r, rom') ->
  rom' = OTA.persist_etag tag rom.
Proof.
  unfold OTA.startOTAUpdate.
  repeat match goal with
         | |- context [if ?c then _ else _] => destruct c
         | |- context [match ?x with _ => _ end] => destruct x
         end; intros [= ]; congruence.
Qed.

(** X5. After an update committed under the tag [tag] and the reboot that
    follows, the device runs in normal mode with its settings as before,
    holds [tag] as its identifier, and a check that meets the same tag
    schedules nothing. *)
Theorem update_not_repeated (e : OTA.env) (ce : OTA.check_env)
    (url url' tag : string) (rom rom' : list Z) (cfg : settings) (r : Z) :
  length rom = Z.to_nat EEPROM_SIZE -> signature_present rom = true ->
  loadSettings rom = Done cfg ->
  tag <> EmptyString -> no_nul tag = true ->
  WString.len tag <= 90 -> WString.trim tag = tag ->
  OTA.startOTAUpdate e url tag rom = (OTA.UpdateSuccess r, rom') ->
  OTA.etag_header ce = tag ->
  exists cfg',
    setup rom' false = Done (cfg', 0)
    /\ currentFirmwareETag cfg' = tag
    /\ wifiSSID cfg' = wifiSSID cfg /\ wifiPass cfg' = wifiPass cfg
    /\ city cfg' = city cfg /\ timezoneOffset cfg' = timezoneOffset cfg
    /\ OTA.checkForFirmwareUpdate ce url'
         {| OTA.currentFirmwareETag := currentFirmwareETag cfg';
            OTA.pendingOTA_ETag := "" |}
       = {| OTA.currentFirmwareETag := tag; OTA.pendingOTA_ETag := "" |}.
Proof.
  intros Hlen Hsig Hload Htag Hnn Hshort Htrim Hrun Hhdr.
  apply startOTAUpdate_success_store in Hrun. subst rom'.
  destruct (commit_keeps_settings tag rom cfg Hlen Htag Hnn Hload) as [Hsig' Hload'].
  rewrite take_all in Hload' by (unfold WString.len in Hshort; lia).
  rewrite Htrim in Hload'.
  eexists. split.
  - unfold setup. rewrite Hsig', Hsig. cbn [negb orb]. rewrite Hload'. reflexivity.
  - cbn. repeat split.
    unfold OTA.checkForFirmwareUpdate. cbn. rewrite Hhdr.
    apply String.eqb_neq in Htag. rewrite Htag, String.eqb_refl. cbn.
    repeat match goal with
           | |- context [if ?c then _ else _] => destruct c
           end; reflexivity.
Qed.

Lemma update_not_repeated_witness :
  exists cfg',
    setup (OTA.persist_etag "v2"
             (saveSettings (form_settings "home" "secret" "") erased)) false
    = Done (cfg', 0)
    /\ currentFirmwareETag cfg' = "v2"%string
    /\ wifiSSID cfg' = "home"%string /\ wifiPass cfg' = "secret"%string
    /\ city cfg' = "Hanoi"%string /\ timezoneOffset cfg' = 25200
    /\ OTA.checkForFirmwareUpdate (OTA.tagged "v2") "https://example.org/fw.bin"
         {| OTA.currentFirmwareETag := currentFirmwareETag cfg';
            OTA.pendingOTA_ETag := "" |}
       = {| OTA.currentFirmwareETag := "v2"; OTA.pendingOTA_ETag := "" |}.
Proof.
  refine (update_not_repeated OTA.full_length_env (OTA.tagged "v2")
            "https://example.org/fw.bin" "https://example.org/fw.bin" "v2"
            (saveSettings (form_settings "home" "secret" "") erased)
            (OTA.persist_etag "v2"
               (saveSettings (form_settings "home" "secret" "") erased))
            (form_settings "home" "secret" "") 2048 _ _ _ _ _ _ _ _ _).
  - vm_compute. reflexivity.
  - vm_compute. reflexivity.
  - vm_compute. reflexivity.
  - discriminate.
  - reflexivity.
  - vm_compute. discriminate.
  - reflexivity.
  - vm_compute. reflexivity.
  - reflexivity.
Defined.

(** X6. A tag longer than 90 characters is stored cut to 90, so that after
    the update and the reboot a check that goes through and meets the same
    tag schedules the update again. *)
Theorem long_tag_update_repeats (e : OTA.env) (ce : OTA.check_env)
    (url url' tag : string) (rom rom' : list Z) (cfg : settings) (r : Z) :
  length rom = Z.to_nat EEPROM_SIZE -> signature_present rom = true ->
  loadSettings rom = Done cfg ->
  no_nul tag = true -> 90 < WString.len tag ->
  OTA.startOTAUpdate e url tag rom = (OTA.UpdateSuccess r, rom') ->
  OTA.wifi_connected ce = true -> url' <> EmptyString ->
  OTA.client_allocated ce = true -> OTA.http_begin_ok ce = true ->
  OTA.httpCode ce = 200 -> OTA.etag_header ce = tag ->
  exists cfg',
    setup rom' false = Done (cfg', 0)
    /\ currentFirmwareETag cfg' = WString.trim (WString.take 90 tag)
    /\ OTA.pendingOTA_ETag
         (OTA.checkForFirmwareUpdate ce url'
            {| OTA.currentFirmwareETag := currentFirmwareETag cfg';
               OTA.pendingOTA_ETag := "" |})
       = tag.
Proof.
  intros Hlen Hsig Hload Hnn Hlong Hrun Hwifi Hurl Halloc Hbegin Hcode Hhdr.
  assert (Htag : tag <> EmptyString).
  { intros ->. unfold WString.len in Hlong. simpl in Hlong. lia. }
  apply startOTAUpdate_success_store in Hrun. subst rom'.
  destruct (commit_keeps_settings tag rom cfg Hlen Htag Hnn Hload) as [Hsig' Hload'].
  eexists. split; [| split].
  - unfold setup. rewrite Hsig', Hsig. cbn [negb orb]. rewrite Hload'. reflexivity.
  - reflexivity.
  - cbn [currentFirmwareETag].
    unfold OTA.checkForFirmwareUpdate.
    rewrite Hwifi, Halloc, Hbegin, Hcode, Hhdr.
    apply String.eqb_neq in Hurl, Htag. rewrite Hurl, Htag.
    assert (Hne : String.eqb (WString.trim (WString.take 90 tag)) tag = false).
    { apply String.eqb_neq. intros Heq.
      pose proof (trim_length (WString.take 90 tag)) as Hlt.
      rewrite Heq in Hlt. unfold WString.len in Hlt, Hlong.
      rewrite take_length in Hlt. lia. }
    cbn [OTA.currentFirmwareETag]. rewrite Hne.
    destruct (String.eqb (WString.trim (WString.take 90 tag)) ""); reflexivity.
Qed.

Lemma long_tag_update_repeats_witness :
  exists cfg',
    setup (OTA.persist_etag (repeat_char 95 "x")
             (saveSettings (form_settings "home" "secret" "") erased)) false
    = Done (cfg', 0)
    /\ currentFirmwareETag cfg' = repeat_char 90 "x"
    /\ OTA.pendingOTA_ETag
         (OTA.checkForFirmwareUpdate (OTA.tagged (repeat_char 95 "x"))
            "https://example.org/fw.bin"
            {| OTA.currentFirmwareETag := currentFirmwareETag cfg';
               OTA.pendingOTA_ETag := "" |})
       = repeat_char 95 "x".
Proof.
  refine (long_tag_update_repeats OTA.full_length_env
            (OTA.tagged (repeat_char 95 "x"))
            "https://example.org/fw.bin" "https://example.org/fw.bin"
            (repeat_char 95 "x")
            (saveSettings (form_settings "home" "secret" "") erased)
            (OTA.persist_etag (repeat_char 95 "x")
               (saveSettings (form_settings "home" "secret" "") erased))
            (form_settings "home" "secret" "") 2048 _ _ _ _ _ _ _ _ _ _ _ _).
  - vm_compute. reflexivity.
  - vm_compute. reflexivity.
  - vm_compute. reflexivity.
  - reflexivity.
  - vm_compute. reflexivity.
  - vm_compute. reflexivity.
  - reflexivity.
  - discriminate.
  - reflexivity.
  - reflexivity.
  - reflexivity.
  - reflexivity.
Defined.

End UpdateAndStore.

Section Schedule.
Import Net NetMore.

(** A stamp back-dated by [back] at time [t] is [d + back] old when the
    32-bit clock has advanced by [d], also across its wrap-around. *)
Lemma backdated_age t d back :
  0 <= d -> 0 <= back -> d + back < 2 ^ 32 ->
  usub ((t + d) mod 2 ^ 32) (usub t back) = d + back.
Proof.
  intros Hd Hback Hsum. unfold usub.
  rewrite Zminus_mod, Z.mod_mod, Zmod_mod, <- Zminus_mod by lia.
  replace (t + d - (t - back)) with (d + back) by lia.
  apply Z.mod_small. lia.
Qed.

(** X7. A failed connection of the weather task puts it back to Idle, and
    with the forecast task idle the next fetch starts at the first call
    made more than 60 s later, or earlier only if the weather screen is
    up with no valid snapshot. *)
Theorem weather_retry_delay (e e' : env) (st : state) (d : Z) :
  weatherTaskState st = W_CONNECTING ->
  wifi_connected e = true -> connect_ok e = false ->
  forecastTaskState st = F_IDLE ->
  0 <= d < 2 ^ 32 - 840000 ->
  now e' = (now_end e + d) mod 2 ^ 32 ->
  let st1 := fst (handleWeatherTask e st) in
  weatherTaskState st1 = W_IDLE
  /\ weather st1 = weather st /\ weatherValid st1 = weatherValid st
  /\ (weatherTaskState (fst (handleWeatherTask e' st1)) = W_CONNECTING
      <-> 60000 < d \/ (currentScreen st = 1 /\ weatherValid st = false)).
Proof.
  intros Hs Hwifi Hconn Hf Hd Hnow. cbv zeta.
  assert (H1 : fst (handleWeatherTask e st)
               = set_last_weather_fetch (set_weather_task st W_IDLE)
                   (usub (now_end e) 840000)).
  { unfold handleWeatherTask. rewrite Hs, Hwifi, Hconn. reflexivity. }
  rewrite H1. split; [reflexivity |]. split; [reflexivity |].
  split; [reflexivity |].
  unfold handleWeatherTask. cbn. rewrite Hf, Hnow.
  rewrite backdated_age by lia. cbn. rewrite andb_true_r.
  destruct (d + 840000 >? 900000) eqn:Hlate; cbn.
  - split; [intros _; left; lia | reflexivity].
  - destruct (currentScreen st =? 1) eqn:Hscr; cbn.
    + destruct (weatherValid st); cbn.
      * split; [intros H; discriminate H | intros [H | [_ H]]; [lia | discriminate H]].
      * split; [intros _; right; split; [lia | reflexivity] | reflexivity].
    + split; [intros H; discriminate H | intros [H | [H _]]; lia].
Qed.


Lemma weather_retry_delay_witness :
  weatherTaskState
    (fst (handleWeatherTask (quiet 1060001)
            (fst (handleWeatherTask (refusing 1000000)
                    (set_weather_task fetched_state W_CONNECTING)))))
  = W_CONNECTING
  /\ weatherTaskState
       (fst (handleWeatherTask (quiet 1060000)
               (fst (handleWeatherTask (refusing 1000000)
                       (set_weather_task fetched_state W_CONNECTING)))))
     <> W_CONNECTING.
Proof.
  split.
  - pose proof (weather_retry_delay (refusing 1000000) (quiet 1060001)
                  (set_weather_task fetched_state W_CONNECTING) 60001
                  eq_refl eq_refl eq_refl eq_refl ltac:(lia) eq_refl) as H.
    cbv zeta in H. destruct H as (_ & _ & _ & H).
    apply (proj2 H). left. lia.
  - pose proof (weather_retry_delay (refusing 1000000) (quiet 1060000)
                  (set_weather_task fetched_state W_CONNECTING) 60000
                  eq_refl eq_refl eq_refl eq_refl ltac:(lia) eq_refl) as H.
    cbv zeta in H. destruct H as (_ & _ & _ & H).
    intros Hc. apply (proj1 H) in Hc. destruct Hc as [Hc | [_ Hc]];
      [lia | discriminate Hc].
Defined.

(** X8. A forecast fetch that fails keeps the forecasts and their validity,
    puts the task back to Idle, and with the weather task idle the next
    fetch starts at the first call made more than 5 minutes later; while
    no valid forecast is held it starts at the very next call. *)
Theorem forecast_retry_delay (e e' : env) (st : state) (d : Z) :
  forecastTaskState st = F_CONNECTING -> fetch_fails e ->
  weatherTaskState st = W_IDLE ->
  0 <= d < 2 ^ 32 - 3300000 ->
  now e' = (fail_time e + d) mod 2 ^ 32 ->
  let st1 := fst (handleForecastTask e st) in
  forecastTaskState st1 = F_IDLE
  /\ forecasts st1 = forecasts st /\ forecastValid st1 = forecastValid st
  /\ (forecastTaskState (fst (handleForecastTask e' st1)) = F_CONNECTING
      <-> 300000 < d \/ forecastValid st = false).
Proof.
  intros Hs Hfail Hw Hd Hnow. cbv zeta.
  assert (H1 : exists err,
             fst (handleForecastTask e st)
             = set_forecast_task
                 (set_forecast st (forecasts st) (forecastValid st) err
                    (retry_stamp (fail_time e))) F_IDLE).
  { unfold handleForecastTask, fail_time, parseForecastData. rewrite Hs.
    destruct (wifi_connected e) eqn:Hwifi; cbn; [| eauto].
    destruct (connect_ok e) eqn:Hconn; cbn; [| eauto].
    destruct (header_found e) eqn:Hhdr; cbn; [| eauto].
    destruct Hfail as [H | [H | [H | [H | [[msg H] | H]]]]]; try congruence;
      rewrite H; cbn; eauto. }
  destruct H1 as [err H1]. rewrite H1.
  split; [reflexivity |]. split; [reflexivity |]. split; [reflexivity |].
  unfold handleForecastTask. cbn. rewrite Hw, Hnow. unfold retry_stamp.
  replace (fail_time e - 3600000 + 300000) with (fail_time e - 3300000) by lia.
  change ((fail_time e - 3300000) mod 2 ^ 32) with (usub (fail_time e) 3300000).
  rewrite backdated_age by lia. cbn. rewrite andb_true_r.
  destruct (d + 3300000 >? 3600000) eqn:Hlate; cbn.
  - split; [intros _; left; lia | reflexivity].
  - destruct (forecastValid st); cbn.
    + split; [intros H; discriminate H | intros [H | H]; [lia | discriminate H]].
    + split; [intros _; right; reflexivity | reflexivity].
Qed.

Lemma forecast_retry_delay_witness :
  forecastTaskState
    (fst (handleForecastTask (quiet 1300001)
            (fst (handleForecastTask (refusing 1000000)
                    (set_forecast_task fetched_state F_CONNECTING)))))
  = F_CONNECTING
  /\ forecastTaskState
       (fst (handleForecastTask (quiet 1000000)
               (fst (handleForecastTask (refusing 1000000)
                       (set_forecast_task boot_state F_CONNECTING)))))
     = F_CONNECTING.
Proof.
  split.
  - pose proof (forecast_retry_delay (refusing 1000000) (quiet 1300001)
                  (set_forecast_task fetched_state F_CONNECTING) 300001
                  eq_refl (or_intror (or_introl eq_refl)) eq_refl
                  ltac:(lia) eq_refl) as H.
    cbv zeta in H. destruct H as (_ & _ & _ & H).
    apply (proj2 H). left. lia.
  - pose proof (forecast_retry_delay (refusing 1000000) (quiet 1000000)
                  (set_forecast_task boot_state F_CONNECTING) 0
                  eq_refl (or_intror (or_introl eq_refl)) eq_refl
                  ltac:(lia) eq_refl) as H.
    cbv zeta in H. destruct H as (_ & _ & _ & H).
    apply (proj2 H). right. reflexivity.
Defined.

(** X9. A weather fetch that is past its deadline of 10 s (with nothing to
    read while it waits for the header) is given up: the task is back in
    Idle after the call, and if the peer had not closed, the snapshot, its
    validity and the time of the last fetch are as before. *)
Theorem weather_deadline (e : env) (st : state) :
  (weatherTaskState st = W_WAIT_HEADER /\ incoming e = []
   /\ 10000 < usub (now e) (weatherTaskTimer st))
  \/ (weatherTaskState st = W_READ_BODY
      /\ 10000 < usub (now_end e) (weatherTaskTimer st)) ->
  let st' := fst (handleWeatherTask e st) in
  weatherTaskState st' = W_IDLE
  /\ (peer_connected e = true ->
      weather st' = weather st /\ weatherValid st' = weatherValid st
      /\ lastWeatherFetch st' = lastWeatherFetch st).
Proof.
  intros [(Hs & Hin & Hlate) | (Hs & Hlate)]; cbv zeta;
    unfold handleWeatherTask; rewrite Hs.
  - rewrite Hin. cbn.
    assert (H : (usub (now e) (weatherTaskTimer st) >? 10000) = true) by lia.
    rewrite H. cbn. auto.
  - destruct (read_burst (now e) (incoming e) (weatherResponseBuffer st))
      as [[buf rest] reads].
    destruct (negb (peer_connected e) && is_nil rest) eqn:Hdone; cbn;
      assert (H : (usub (now_end e) (weatherTaskTimer st) >? 10000) = true) by lia;
      rewrite H; cbn.
    + split; [reflexivity |]. intros Hpeer. rewrite Hpeer in Hdone. discriminate.
    + auto.
Qed.

Lemma weather_deadline_witness :
  weatherTaskState
    (fst (handleWeatherTask (quiet 10001)
            (set_weather_task boot_state W_WAIT_HEADER)))
  = W_IDLE.
Proof.
  refine (proj1 (weather_deadline (quiet 10001)
                   (set_weather_task boot_state W_WAIT_HEADER) _)).
  left. split; [reflexivity |]. split; [reflexivity |]. vm_compute. reflexivity.
Defined.

(** X10. No step of the engine clears a validity flag: a snapshot or a
    forecast once marked valid stays so until the next boot. *)
Theorem valid_flags_kept (st st' : state) :
  step st st' ->
  (weatherValid st = true -> weatherValid st' = true)
  /\ (forecastValid st = true -> forecastValid st' = true).
Proof.
  intros [e s | e s | e s].
  - unfold switch_screen. break_match; cbn; auto.
  - unfold handleWeatherTask.
    destruct (weatherTaskState s); cbn.
    + break_match; cbn; auto.
    + break_match; cbn; auto.
    + break_match; cbn; auto.
    + destruct (read_burst _ _ _) as [[buf rest] reads].
      break_match; cbn; auto.
  - unfold handleForecastTask, parseForecastData.
    destruct (forecastTaskState s); break_match; cbn; auto.
Qed.

Lemma valid_flags_kept_witness :
  weatherValid (fst (handleWeatherTask (refusing 1000000)
                       (set_weather_task fetched_state W_CONNECTING))) = true
  /\ forecastValid (fst (handleWeatherTask (refusing 1000000)
                           (set_weather_task fetched_state W_CONNECTING))) = true.
Proof.
  destruct (valid_flags_kept (set_weather_task fetched_state W_CONNECTING) _
              (step_weather (refusing 1000000)
                 (set_weather_task fetched_state W_CONNECTING))) as [Hw Hf].
  split; [exact (Hw eq_refl) | exact (Hf eq_refl)].
Defined.

(** X11. The weather task has no deadline in Connecting: while the radio is
    down a pass of the loop leaves it there, and the forecast task, which
    waits for it, stays idle. *)
Theorem radio_down_blocks_fetches (e0 e1 e2 : env) (st : state) :
  at_most_one_active st ->
  weatherTaskState st = W_CONNECTING -> wifi_connected e1 = false ->
  weatherTaskState (fst (loop_tasks e0 e1 e2 st)) = W_CONNECTING
  /\ forecastTaskState (fst (loop_tasks e0 e1 e2 st)) = F_IDLE.
Proof.
  intros [Hw | Hf] Hs Hwifi; [congruence |].
  unfold loop_tasks.
  assert (H0 : switch_screen e0 st = st
               \/ exists scr t, switch_screen e0 st = set_screen st scr t).
  { unfold switch_screen. cbn. rewrite Hs. cbn. rewrite !andb_false_r.
    destruct (_ >? _); eauto. }
  assert (H1 : weatherTaskState (switch_screen e0 st) = W_CONNECTING
               /\ forecastTaskState (switch_screen e0 st) = F_IDLE).
  { destruct H0 as [-> | (scr & t & ->)]; cbn; auto. }
  destruct H1 as [Hs0 Hf0].
  unfold handleWeatherTask. rewrite Hs0, Hwifi. cbn.
  unfold handleForecastTask. rewrite Hf0, Hs0. cbn. rewrite andb_false_r. cbn.
  auto.
Qed.

Lemma radio_down_blocks_fetches_witness :
  weatherTaskState
    (fst (loop_tasks (radio_down 5000000) (radio_down 5000000)
            (radio_down 5000000)
            (set_weather_task boot_state W_CONNECTING))) = W_CONNECTING
  /\ forecastTaskState
       (fst (loop_tasks (radio_down 5000000) (radio_down 5000000)
               (radio_down 5000000)
               (set_weather_task boot_state W_CONNECTING))) = F_IDLE.
Proof.
  apply (radio_down_blocks_fetches (radio_down 5000000) (radio_down 5000000)
           (radio_down 5000000) (set_weather_task boot_state W_CONNECTING)).
  - right. reflexivity.
  - reflexivity.
  - reflexivity.
Defined.

End Schedule.

Section ParserFacts.
Import WString Net Payload.

Lemma find_chr_absent c s pos :
  count_char c s = O -> find_chr c s pos = -1.
Proof.
  revert pos. induction s as [| b s IH]; intros pos H; cbn in *; [reflexivity |].
  destruct (Ascii.eqb b c); [discriminate | auto].
Qed.

Lemma drop_drop n m s : drop n (drop m s) = drop (m + n) s.
Proof.
  revert s. induction m as [| m IH]; intros s; cbn; [reflexivity |].
  destruct s; cbn; [destruct n; reflexivity | apply IH].
Qed.

Lemma count_char_drop_le c n s : (count_char c (drop n s) <= count_char c s)%nat.
Proof.
  revert s. induction n as [| n IH]; intros s; cbn; [lia |].
  destruct s as [| b s]; cbn; [lia |].
  specialize (IH s). destruct (Ascii.eqb b c); lia.
Qed.

Lemma find_chr_found c s pos :
  0 <= pos -> 0 <= find_chr c s pos ->
  exists k, find_chr c s pos = pos + Z.of_nat k
            /\ (k < String.length s)%nat
            /\ count_char c s = S (count_char c (drop (S k) s)).
Proof.
  revert pos. induction s as [| b s IH]; intros pos Hpos H; cbn in *; [lia |].
  destruct (Ascii.eqb b c).
  - exists O. cbn. split; [lia |]. split; [lia | reflexivity].
  - destruct (IH (pos + 1)) as (k & Hk & Hlt & Hc); [lia | assumption |].
    exists (S k). rewrite Hk. split; [lia |]. split; [lia | exact Hc].
Qed.

Lemma indexOf_chr_found s c from :
  0 <= from -> 0 <= indexOf_chr s c from ->
  from <= indexOf_chr s c from
  /\ (count_char c (drop (Z.to_nat (indexOf_chr s c from + 1)) s)
      < count_char c s)%nat.
Proof.
  intros Hfrom. unfold indexOf_chr.
  destruct (from >=? len s) eqn:E; [lia |]. intros H.
  destruct (find_chr_found _ _ _ Hfrom H) as (k & Hk & Hlt & Hc).
  rewrite Hk. split; [lia |].
  pose proof (count_char_drop_le c (Z.to_nat from) s) as Hle.
  rewrite drop_drop in Hc.
  replace (Z.to_nat (from + Z.of_nat k + 1)) with (Z.to_nat from + S k)%nat by lia.
  lia.
Qed.

Lemma indexOf_chr_count s c from n :
  0 <= from -> 0 <= indexOf_chr s c from ->
  (n <= count_char c (drop (Z.to_nat (indexOf_chr s c from + 1)) s))%nat ->
  (S n <= count_char c (drop (Z.to_nat from) s))%nat.
Proof.
  intros Hfrom. unfold indexOf_chr.
  destruct (from >=? len s) eqn:E; [lia |]. intros H.
  destruct (find_chr_found _ _ _ Hfrom H) as (k & Hk & Hlt & Hc).
  rewrite Hk, Hc, drop_drop.
  replace (Z.to_nat (from + Z.of_nat k + 1)) with (Z.to_nat from + S k)%nat by lia.
  lia.
Qed.

(** X12. A response whose payload has fewer than four bars leaves the
    snapshot as it was. *)
Theorem parseWeatherData_needs_four_bars (result : string) (w : snapshot) :
  (count_char "|" (payload result) < 4)%nat ->
  parseWeatherData result w = w.
Proof.
  intros Hc. unfold parseWeatherData. fold (payload result).
  cbv zeta.
  destruct (len (payload result) =? 0); [reflexivity |].
  set (s := payload result) in *.
  set (i1 := indexOf_chr s "|" 0).
  set (i2 := indexOf_chr s "|" (i1 + 1)).
  set (i3 := indexOf_chr s "|" (i2 + 1)).
  set (i4 := indexOf_chr s "|" (i3 + 1)).
  destruct ((i1 <? 0) || (i2 <? 0) || (i3 <? 0) || (i4 <? 0)) eqn:E;
    [reflexivity | exfalso].
  rewrite !orb_false_iff in E. destruct E as [[[E1 E2] E3] E4].
  apply Z.ltb_ge in E1, E2, E3, E4.
  assert (P1 : 0 <= i1 + 1) by (clearbody i1; lia).
  assert (P2 : 0 <= i2 + 1) by (clearbody i2; lia).
  assert (P3 : 0 <= i3 + 1) by (clearbody i3; lia).
  assert (H4 : (1 <= count_char "|" (drop (Z.to_nat (i3 + 1)) s))%nat).
  { apply (indexOf_chr_count s "|" (i3 + 1) 0);
      [exact P3 | exact E4 | apply Nat.le_0_l]. }
  assert (H3 : (2 <= count_char "|" (drop (Z.to_nat (i2 + 1)) s))%nat).
  { apply (indexOf_chr_count s "|" (i2 + 1) 1); [exact P2 | exact E3 | exact H4]. }
  assert (H2 : (3 <= count_char "|" (drop (Z.to_nat (i1 + 1)) s))%nat).
  { apply (indexOf_chr_count s "|" (i1 + 1) 2); [exact P1 | exact E2 | exact H3]. }
  assert (H1 : (4 <= count_char "|" (drop (Z.to_nat 0) s))%nat).
  { apply (indexOf_chr_count s "|" 0 3); [reflexivity | exact E1 | exact H2]. }
  change (drop (Z.to_nat 0) s) with s in H1.
  exact (Nat.lt_irrefl _ (Nat.lt_le_trans _ _ _ Hc H1)).
Qed.


Lemma parseWeatherData_needs_four_bars_witness :
  parseWeatherData "+21|Partly cloudy|56|11 km/h" (weather boot_state)
  = weather boot_state.
Proof.
  apply (parseWeatherData_needs_four_bars "+21|Partly cloudy|56|11 km/h"
           (weather boot_state)).
  vm_compute. lia.
Defined.

Lemma endsWith_push s c : endsWith (push s c) (String c EmptyString) = true.
Proof.
  unfold endsWith, push, len.
  assert (H : String.length (s ++ String c EmptyString)
              = S (String.length s)).
  { induction s as [| b s IH]; cbn; [reflexivity | now rewrite IH]. }
  rewrite H. cbn [String.length].
  destruct (Z.of_nat (S (String.length s)) <? Z.of_nat 1) eqn:E;
    [apply Z.ltb_lt in E; lia |].
  replace (S (String.length s) - 1)%nat with (String.length s) by lia.
  clear H E. induction s as [| b s IH]; cbn; [| exact IH].
  now rewrite Ascii.eqb_refl.
Qed.

Lemma trim_right_idem s : trim_right (trim_right s) = trim_right s.
Proof.
  induction s as [| c s IH]; cbn; [reflexivity |].
  destruct (trim_right s) as [| b t] eqn:E.
  - destruct (isspace c) eqn:Hc; cbn; [reflexivity | now rewrite Hc].
  - cbn [trim_right] in *. rewrite IH. reflexivity.
Qed.

Lemma trim_left_head s :
  trim_left s = EmptyString
  \/ exists c t, trim_left s = String c t /\ isspace c = false.
Proof.
  induction s as [| c s IH]; cbn; [now left |].
  destruct (isspace c) eqn:Hc; [exact IH | right; eauto].
Qed.

Lemma trim_right_head c t :
  isspace c = false -> exists t', trim_right (String c t) = String c t'.
Proof.
  intros Hc. cbn. destruct (trim_right t); [rewrite Hc |]; eauto.
Qed.

Lemma trim_idem s : trim (trim s) = trim s.
Proof.
  unfold trim. destruct (trim_left_head s) as [-> | (c & t & -> & Hc)];
    [reflexivity |].
  destruct (trim_right_head c t Hc) as [t' Ht]. rewrite Ht.
  cbn [trim_left]. rewrite Hc, <- Ht. apply trim_right_idem.
Qed.

Lemma wind_scan_numeric s acc :
  all_numeric acc = true -> all_numeric (wind_scan s acc) = true.
Proof.
  revert acc. induction s as [| c s IH]; intros acc H; cbn; [exact H |].
  destruct (is_numeric c) eqn:Hc.
  - apply IH. unfold push. clear IH. induction acc as [| b acc IHa]; cbn in *.
    + now rewrite Hc.
    + apply andb_true_iff in H as [-> H]. cbn. auto.
  - destruct (_ && _); auto.
Qed.

Lemma press_scan_numeric s acc :
  all_numeric acc = true -> all_numeric (press_scan s acc) = true.
Proof.
  revert acc. induction s as [| c s IH]; intros acc H; cbn; [exact H |].
  destruct (is_numeric c) eqn:Hc.
  - apply IH. unfold push. clear IH. induction acc as [| b acc IHa]; cbn in *.
    + now rewrite Hc.
    + apply andb_true_iff in H as [-> H]. cbn. auto.
  - destruct (negb _); auto.
Qed.

(** X13. When the parser overwrites the snapshot, the humidity ends with a
    percent sign and the temperature and the condition carry no white
    space at either end. *)
Theorem parseWeatherData_fields (result : string) (w : snapshot) :
  let w' := parseWeatherData result w in
  w' = w
  \/ (endsWith (weatherHum w') "%" = true
      /\ trim (weatherTemp w') = weatherTemp w'
      /\ trim (weatherCond w') = weatherCond w').
Proof.
  cbv zeta. unfold parseWeatherData. cbv zeta.
  destruct (len _ =? 0); [now left |].
  destruct (_ || _); [now left |]. right. cbn.
  split; [| split; apply trim_idem].
  destruct (negb (endsWith _ "%")) eqn:E.
  - apply (endsWith_push _ "%"%char).
  - now apply negb_false_iff in E.
Qed.

(** X14. The two scans of the wind and pressure fields hand only digits
    and dots to the number conversion. *)
Theorem scans_keep_numeric (s : string) :
  all_numeric (wind_scan s EmptyString) = true
  /\ all_numeric (press_scan s EmptyString) = true.
Proof.
  split; [apply wind_scan_numeric | apply press_scan_numeric]; reflexivity.
Qed.

End ParserFacts.

Section ModeMoreFacts.
Import Mode ModeMore.

Lemma loop_button_rank low now st st' effs :
  loop_button low now st = Running st' effs ->
  rank (systemMode st) <= rank (systemMode st') <= rank (systemMode st) + 1.
Proof.
  unfold loop_button.
  destruct low.
  - destruct (btnPressStart st =? 0); cbn;
      destruct (_ && _); cbn;
      try (intros [= <- <-]; lia);
      destruct (systemMode st =? 0) eqn:E0;
      try (apply Z.eqb_eq in E0; rewrite E0; intros [= <- <-]; cbn; lia);
      destruct (systemMode st =? 3) eqn:E3;
      try (apply Z.eqb_eq in E3; rewrite E3; destruct (sleepSelectedYes st);
           intros [= <- <-]; cbn; lia);
      destruct (systemMode st =? 1) eqn:E1;
      try (apply Z.eqb_eq in E1; rewrite E1; intros [= <- <-]; cbn; lia);
      destruct (systemMode st =? 2) eqn:E2;
      try discriminate; intros [= <- <-]; cbn; lia.
  - destruct (negb (btnPressStart st =? 0)); [| intros [= <- <-]; lia].
    destruct (_ >? 50); [| intros [= <- <-]; cbn; lia].
    destruct (negb (btnActionTaken st)); cbn;
      destruct (systemMode st =? 3); cbn; try (intros [= <- <-]; cbn; lia);
      destruct (systemMode st =? 1); cbn; try discriminate;
      try (intros [= <- <-]; cbn; lia);
      destruct (systemMode st =? 0); cbn; try (intros [= <- <-]; cbn; lia);
      destruct (systemMode st =? 2); cbn; try discriminate;
      intros [= <- <-]; cbn; lia.
Qed.

Lemma rank_zero m : rank m = 0 <-> m = 0.
Proof.
  unfold rank. split.
  - destruct (m =? 0) eqn:E; [intros _; lia |].
    destruct (m =? 3); [lia |]. destruct (m =? 1); [lia |].
    destruct (m =? 2); lia.
  - intros ->. reflexivity.
Qed.

(** X15. Whatever the button does, the mode never steps back in the order
    Normal, SleepConfirm, Config, Update, OTA: in particular a device
    that has left Normal mode returns to it only through a restart. *)
Theorem mode_never_steps_back (samples : list (bool * Z)) (st st' : state)
    (effs : list effect) :
  run samples st = Running st' effs ->
  rank (systemMode st) <= rank (systemMode st')
  /\ (systemMode st <> 0 -> systemMode st' <> 0).
Proof.
  intros H.
  assert (Hr : rank (systemMode st) <= rank (systemMode st')).
  { revert st H. induction samples as [| [low now] rest IH]; intros st H; cbn in H.
    - injection H as <- _. lia.
    - destruct (loop_button low now st) as [st1 effs1 |] eqn:E; [| discriminate].
      apply loop_button_rank in E. apply IH in H. lia. }
  split; [exact Hr |].
  intros Hne Hz. rewrite Hz in Hr. change (rank 0) with 0 in Hr.
  assert (H0 : 0 <= rank (systemMode st))
    by (unfold rank; repeat destruct (_ =? _); lia).
  apply Hne, rank_zero. lia.
Qed.

Lemma mode_never_steps_back_witness :
  run [(true, 1); (true, 2002); (false, 2500); (true, 3000); (true, 5001)]
    (in_mode 0 false)
  = Running (act (press (in_mode 3 false) 3000) 1 false) []
  /\ rank 0 <= rank 1 /\ 1 <> 0.
Proof.
  assert (H : run [(true, 1); (true, 2002); (false, 2500); (true, 3000);
                   (true, 5001)] (in_mode 0 false)
              = Running (act (press (in_mode 3 false) 3000) 1 false) [])
    by reflexivity.
  split; [exact H |].
  destruct (mode_never_steps_back _ _ _ _ H) as [Hr _].
  split; [exact Hr | discriminate].
Defined.

(** X16. A press acts once: after the hold action of a press, the passes
    that see the button still down change nothing and call nothing, and
    the release only ends the press: no toggle, no lucky screen, no
    restart. *)
Theorem hold_acts_once (held : list (bool * Z)) (t : Z) (st : state) :
  btnPressStart st <> 0 -> btnActionTaken st = true ->
  Forall (fun s => fst s = true) held ->
  run (held ++ [(false, t)]) st = Running (release st) []
  /\ effects_of (held ++ [(false, t)]) st = [].
Proof.
  intros Hp Ha Hall.
  assert (Hlow : forall now, loop_button true now st = Running st []).
  { intros now. unfold loop_button.
    apply Z.eqb_neq in Hp. rewrite Hp, Ha. rewrite andb_false_r. reflexivity. }
  assert (Hrel : loop_button false t st = Running (release st) []).
  { unfold loop_button.
    apply Z.eqb_neq in Hp. rewrite Hp, Ha. cbn. destruct (_ >? 50); reflexivity. }
  induction Hall as [| [low now] rest Hhd _ IH]; cbn [run app effects_of].
  - rewrite Hrel. split; reflexivity.
  - cbn in Hhd. subst low. rewrite Hlow. exact IH.
Qed.

Lemma hold_acts_once_witness :
  run [(true, 2500); (true, 4600); (false, 4700)] (just_acted 1)
  = Running (release (just_acted 1)) []
  /\ effects_of [(true, 2500); (true, 4600); (false, 4700)] (just_acted 1) = [].
Proof.
  apply (hold_acts_once [(true, 2500); (true, 4600)] 4700 (just_acted 1)).
  - discriminate.
  - reflexivity.
  - repeat constructor.
Defined.

End ModeMoreFacts.

Section ScreenFacts.
Import Net.

(** X17. The screen index stays within 0..4, and no step of the engine
    brings up the lucky screen 4: the rotation goes 0, 1, 2, 3, 0 and
    leaves screen 4 for screen 0. *)
Theorem screen_in_range (st st' : state) :
  step st st' -> 0 <= currentScreen st <= 4 ->
  0 <= currentScreen st' <= 4
  /\ (currentScreen st' = 4 -> currentScreen st = 4)
  /\ (currentScreen st' = currentScreen st
      \/ (currentScreen st = 4 /\ currentScreen st' = 0)
      \/ (currentScreen st < 4
          /\ currentScreen st' = (currentScreen st + 1) mod 4)).
Proof.
  intros Hstep Hr.
  assert (Hsame : currentScreen st' = currentScreen st
                  \/ (currentScreen st = 4 /\ currentScreen st' = 0)
                  \/ (currentScreen st < 4
                      /\ currentScreen st' = (currentScreen st + 1) mod 4)).
  { destruct Hstep as [e s | e s | e s].
    - unfold switch_screen. cbv zeta.
      destruct (_ >? _); [| now left].
      destruct (currentScreen s =? 4) eqn:E4.
      + apply Z.eqb_eq in E4. right; left. split; [exact E4 |].
        destruct (_ && _); reflexivity.
      + apply Z.eqb_neq in E4. right; right. split; [lia |].
        rewrite Z.rem_mod_nonneg by lia.
        destruct (_ && _); reflexivity.
    - left. unfold handleWeatherTask.
      destruct (weatherTaskState s); cbn.
      + break_match; reflexivity.
      + break_match; reflexivity.
      + break_match; reflexivity.
      + destruct (read_burst _ _ _) as [[buf rest] reads].
        break_match; reflexivity.
    - left. unfold handleForecastTask, parseForecastData.
      destruct (forecastTaskState s); break_match; reflexivity. }
  destruct Hsame as [H | [[H4 H0] | [Hlt H]]].
  - rewrite H. split; [lia |]. split; [intros H4; exact H4 | now left].
  - rewrite H0. split; [lia |]. split; [lia | auto].
  - rewrite H.
    pose proof (Z.mod_pos_bound (currentScreen st + 1) 4 ltac:(lia)).
    split; [lia |]. split; [lia | auto].
Qed.

Lemma screen_in_range_witness :
  0 <= currentScreen (switch_screen (quiet 15001) boot_state) <= 4
  /\ currentScreen (switch_screen (quiet 15001) boot_state) = 1.
Proof.
  split; [| reflexivity].
  refine (proj1 (screen_in_range boot_state _ (step_switch (quiet 15001) boot_state)
                   _)).
  simpl. lia.
Defined.

End ScreenFacts.

Section ConnectFacts.
Import OTA.

Lemma connect_loop_ok_gen (e : env) (n k : nat) (code : Z) :
  code <> 200 ->
  (connect_loop e n k code = Some 200
   <-> exists j, (k <= j < k + n)%nat
       /\ (forall i, (k <= i <= j)%nat -> allocated (attempts e i) = true)
       /\ began (attempts e j) = true /\ status (attempts e j) = 200).
Proof.
  revert k code. induction n as [| n IH]; intros k code Hcode; cbn.
  - split; [intros [= H]; contradiction | intros (j & Hj & _); lia].
  - destruct (allocated (attempts e k)) eqn:Ha; cbn.
    + destruct (began (attempts e k)) eqn:Hb.
      * unfold HTTP_CODE_OK.
        destruct (status (attempts e k) =? 200) eqn:Hs.
        -- apply Z.eqb_eq in Hs. split; [intros _ | intros _; now rewrite Hs].
           exists k. split; [lia |]. split; [| auto].
           intros i Hi. replace i with k by lia. exact Ha.
        -- apply Z.eqb_neq in Hs. rewrite (IH (S k) _ Hs). split.
           ++ intros (j & Hj & Hall & Hbj & Hsj). exists j.
              split; [lia |]. split; [| auto].
              intros i Hi. destruct (Nat.eq_dec i k) as [-> | Hne];
                [exact Ha | apply Hall; lia].
           ++ intros (j & Hj & Hall & Hbj & Hsj). exists j.
              assert (j <> k) by (intros ->; contradiction).
              split; [lia |]. split; [| auto]. intros i Hi. apply Hall. lia.
      * rewrite (IH (S k) _ Hcode). split.
        -- intros (j & Hj & Hall & Hbj & Hsj). exists j.
           split; [lia |]. split; [| auto].
           intros i Hi. destruct (Nat.eq_dec i k) as [-> | Hne];
             [exact Ha | apply Hall; lia].
        -- intros (j & Hj & Hall & Hbj & Hsj). exists j.
           assert (j <> k) by (intros ->; congruence).
           split; [lia |]. split; [| auto]. intros i Hi. apply Hall. lia.
    + split; [discriminate |].
      intros (j & Hj & Hall & _). rewrite Hall in Ha by lia. discriminate.
Qed.

(** X18. The update gets past its connection phase (it ends neither with
    "OOM!" nor with an HTTP error) exactly when one of the first three
    attempts is answered with status 200 and a client could be allocated
    for it and for every attempt before it. *)
Theorem startOTAUpdate_connects (e : env) (url tag : string) (rom : list Z) :
  (wifi_up e = true \/ wifi_joined e = true) -> url <> ""%string ->
  ((exists j, (j < 3)%nat
      /\ (forall i, (i <= j)%nat -> allocated (attempts e i) = true)
      /\ began (attempts e j) = true /\ status (attempts e j) = 200)
   <-> fst (startOTAUpdate e url tag rom) <> OutOfMemory
       /\ forall code, fst (startOTAUpdate e url tag rom) <> HttpError code).
Proof.
  intros Hwifi Hurl. unfold startOTAUpdate.
  assert (Hw : negb (wifi_up e) && negb (wifi_joined e) = false)
    by (destruct Hwifi as [-> | ->]; [reflexivity | apply andb_false_r]).
  apply String.eqb_neq in Hurl. rewrite Hw, Hurl.
  pose proof (connect_loop_ok_gen e 3 0 (-1) ltac:(lia)) as Hiff.
  assert (Hex : (exists j, (j < 3)%nat
                   /\ (forall i, (i <= j)%nat -> allocated (attempts e i) = true)
                   /\ began (attempts e j) = true /\ status (attempts e j) = 200)
                <-> connect_loop e 3 0 (-1) = Some 200).
  { rewrite Hiff. split; intros (j & Hj & Hall & Hb & Hs); exists j;
      (split; [lia |]); (split; [| auto]); intros i Hi; apply Hall; lia. }
  rewrite Hex. clear Hex Hiff.
  destruct (connect_loop e 3 0 (-1)) as [code |] eqn:Hc.
  - unfold HTTP_CODE_OK. destruct (code =? 200) eqn:E; cbn.
    + apply Z.eqb_eq in E. subst code. split; [intros _ | reflexivity].
      destruct (negb (update_begin_ok e));
        [split; [| intros c]; intros H; cbn in H; discriminate H |].
      destruct (download _ _ _ _) as [[x r] |];
        [| split; [| intros c]; intros H; cbn in H; discriminate H].
      destruct ((getSize e >? 0) && _);
        [split; [| intros c]; intros H; cbn in H; discriminate H |].
      destruct (Update_end e x); (split; [| intros c]); intros H; cbn in H;
        discriminate H.
    + apply Z.eqb_neq in E. split; [intros [= H]; contradiction |].
      intros [_ H]. exfalso. exact (H code eq_refl).
  - cbn. split; [discriminate | intros [H _]; contradiction].
Qed.

Lemma startOTAUpdate_connects_witness :
  fst (startOTAUpdate full_length_env "https://example.org/fw.bin" "v2"
         Config.erased) <> OutOfMemory
  /\ forall code,
       fst (startOTAUpdate full_length_env "https://example.org/fw.bin" "v2"
              Config.erased) <> HttpError code.
Proof.
  refine (proj1 (startOTAUpdate_connects full_length_env
                   "https://example.org/fw.bin" "v2" Config.erased _ _) _).
  - left. reflexivity.
  - discriminate.
  - exists O. split; [lia |]. split; [intros i _; reflexivity |].
    split; reflexivity.
Defined.

End ConnectFacts.

Section BootFacts.
Import Boot.

Lemma replicate_snoc_true (c : nat) (l : list bool) :
  replicate c true ++ true :: l = replicate (S c) true ++ l.
Proof. induction c as [| c IH]; cbn; [reflexivity | now rewrite IH]. Qed.

Lemma run_after_false (c : nat) (l : list bool) :
  (c <= 10)%nat ->
  (exists pre post, replicate c true ++ false :: l
                    = pre ++ replicate 11 true ++ post)
  <-> (exists pre post, l = pre ++ replicate 11 true ++ post).
Proof.
  intros Hc. split; intros (pre & post & H).
  - assert (Hlen : (c < length pre)%nat).
    { destruct (Nat.lt_ge_cases c (length pre)) as [Hlt | Hge]; [exact Hlt |].
      assert (Hf : (replicate c true ++ false :: l) !! c = Some false).
      { rewrite lookup_app_r by (rewrite length_replicate; lia).
        rewrite length_replicate, Nat.sub_diag. reflexivity. }
      rewrite H in Hf. rewrite lookup_app_r in Hf by lia.
      rewrite lookup_app_l in Hf by (rewrite length_replicate; lia).
      apply lookup_replicate in Hf. destruct Hf as [Hf _]. discriminate. }
    exists (drop (S c) pre), post.
    apply (f_equal (drop (S c))) in H.
    rewrite (drop_app_le pre) in H by lia.
    rewrite <- H.
    rewrite (drop_app_ge (replicate c true)) by (rewrite length_replicate; lia).
    rewrite length_replicate.
    replace (S c - c)%nat with 1%nat by lia. reflexivity.
  - exists (replicate c true ++ false :: pre), post.
    rewrite H, <- app_assoc. reflexivity.
Qed.

Lemma button_held_run (startTime : Z) (passes : list (Z * bool)) (c : nat) :
  (c <= 10)%nat ->
  button_held startTime passes (Z.of_nat c) = true
  <-> exists pre post,
        replicate c true ++ sampled startTime passes
        = pre ++ replicate 11 true ++ post.
Proof.
  revert c. induction passes as [| [t low] rest IH]; intros c Hc; cbn.
  - split; [discriminate |]. intros (pre & post & H).
    apply (f_equal length) in H. rewrite app_nil_r in H.
    rewrite !length_app, ?length_replicate in H. cbn in H. lia.
  - destruct (usub t startTime <? 500).
    + destruct low.
      * rewrite Z.mod_small by lia.
        rewrite replicate_snoc_true.
        destruct (Z.of_nat c + 1 >? 10) eqn:E.
        -- assert (c = 10%nat) by lia. subst c.
           split; [intros _ | reflexivity].
           exists [], (sampled startTime rest). reflexivity.
        -- replace (Z.of_nat c + 1) with (Z.of_nat (S c)) by lia.
           apply IH. lia.
      * cbn. rewrite (IH 0%nat) by lia. cbn [replicate app].
        symmetry. apply run_after_false. exact Hc.
    + split; [discriminate |]. intros (pre & post & H).
      apply (f_equal length) in H. rewrite app_nil_r in H.
      rewrite !length_app, ?length_replicate in H. cbn in H. lia.
Qed.

(** X19. The boot-time test reports the button as pressed exactly when,
    among the samples taken while the window of 500 ms is open, eleven
    in a row read LOW. *)
Theorem button_held_iff (startTime : Z) (passes : list (Z * bool)) :
  button_held startTime passes 0 = true
  <-> exists pre post,
        sampled startTime passes = pre ++ replicate 11 true ++ post.
Proof. exact (button_held_run startTime passes 0 ltac:(lia)). Qed.

Lemma button_held_iff_witness :
  button_held 100 ((100, false) :: held_down 11 110) 0 = true.
Proof.
  apply (proj2 (button_held_iff 100 ((100, false) :: held_down 11 110))).
  exists [false], []. reflexivity.
Defined.

End BootFacts.

Section GreetingFacts.
Import WString Greeting.

Lemma wrap_int32_small n : - 2 ^ 31 <= n < 2 ^ 31 -> Float.wrap_int32 n = n.
Proof.
  intros H. unfold Float.wrap_int32.
  cbv zeta. Z.to_euclidean_division_equations. lia.
Qed.

Lemma scan_lookup ls c g :
  0 <= c <= g -> g < 2 ^ 31 ->
  scan ls c g = shown ls !! Z.to_nat (g - c).
Proof.
  revert c. induction ls as [| l ls IH]; intros c Hc Hg; cbn; [reflexivity |].
  unfold shown in *. cbn.
  destruct (len (trim l) >? 0); [| apply IH; lia].
  destruct (c =? g) eqn:E.
  - apply Z.eqb_eq in E. subst c. rewrite Z.sub_diag. reflexivity.
  - apply Z.eqb_neq in E. rewrite wrap_int32_small by lia.
    rewrite IH by lia.
    replace (Z.to_nat (g - c)) with (S (Z.to_nat (g - (c + 1)))) by lia.
    reflexivity.
Qed.

(** X20. A greeting download that goes through shows the line numbered
    [greetingIndex] among the lines that are not blank, trimmed, and
    moves the index on; once the index is past the last such line the
    greeting stays as it is and the index goes back to 0. *)
Theorem updateGreeting_rotation (e : env) (url : string) (st : state) :
  wifi_connected e = true -> url <> ""%string -> client_allocated e = true ->
  http_begin_ok e = true -> httpCode e = 200 ->
  0 <= greetingIndex st < 2 ^ 31 - 1 ->
  updateGreeting e url st
  = match shown (lines e) !! Z.to_nat (greetingIndex st) with
    | Some line => {| currentGreeting := line;
                      greetingIndex := greetingIndex st + 1 |}
    | None => {| currentGreeting := currentGreeting st; greetingIndex := 0 |}
    end.
Proof.
  intros Hw Hurl Hc Hb Hcode Hidx. unfold updateGreeting.
  apply String.eqb_neq in Hurl. rewrite Hw, Hurl, Hc, Hb, Hcode. cbn.
  rewrite scan_lookup by lia. rewrite Z.sub_0_r.
  destruct (shown (lines e) !! _); [| reflexivity].
  rewrite wrap_int32_small by lia. reflexivity.
Qed.

Lemma updateGreeting_rotation_witness :
  updateGreeting (delivering ["Hello"; ""; "  Good day  "]%string)
    "https://example.org/g.txt"
    {| currentGreeting := "Hello"; greetingIndex := 1 |}
  = {| currentGreeting := "Good day"; greetingIndex := 2 |}
  /\ updateGreeting (delivering ["Hello"; ""; "  Good day  "]%string)
       "https://example.org/g.txt"
       {| currentGreeting := "Good day"; greetingIndex := 2 |}
     = {| currentGreeting := "Good day"; greetingIndex := 0 |}.
Proof.
  split.
  - apply (updateGreeting_rotation
             (delivering ["Hello"; ""; "  Good day  "]%string)
             "https://example.org/g.txt"
             {| currentGreeting := "Hello"; greetingIndex := 1 |});
      first [reflexivity | discriminate | (simpl; lia)].
  - apply (updateGreeting_rotation
             (delivering ["Hello"; ""; "  Good day  "]%string)
             "https://example.org/g.txt"
             {| currentGreeting := "Good day"; greetingIndex := 2 |});
      first [reflexivity | discriminate | (simpl; lia)].
Defined.

End GreetingFacts.

Section LuckyFacts.
Import Lucky.

Lemma fill_stores start ps buf total :
  0 <= total <= Z.of_nat (length buf) -> length buf = 1024%nat ->
  let bytes := stored_bytes start ps total in
  fill start ps buf total
  = Some (take (Z.to_nat total) buf ++ bytes
            ++ drop (Z.to_nat total + length bytes) buf,
          total + Z.of_nat (length bytes))
    /\ total + Z.of_nat (length bytes) <= 1024.
Proof.
  cbv zeta. revert buf total.
  induction ps as [| [t avail] rest IH]; intros buf total Ht Hlen; cbn.
  - rewrite Nat.add_0_r, take_drop, Z.add_0_r. split; [reflexivity | lia].
  - destruct (total <? 1024) eqn:E; cbn.
    2: { rewrite Nat.add_0_r, take_drop, Z.add_0_r. split; [reflexivity | lia]. }
    destruct (usub t start <? 5000); cbn.
    2: { rewrite Nat.add_0_r, take_drop, Z.add_0_r. split; [reflexivity | lia]. }
    destruct avail as [b |]; [| apply IH; assumption].
    assert (H0 : (0 <=? total) = true) by lia.
    assert (H1 : (total <? Z.of_nat (length buf)) = true) by lia.
    rewrite H0, H1. cbn.
    destruct (IH (<[Z.to_nat total := b mod 256]> buf) (total + 1)) as [-> Hle];
      [rewrite length_insert; lia | rewrite length_insert; exact Hlen |].
    split; [| lia]. f_equal. f_equal; [| lia].
    replace (Z.to_nat (total + 1)) with (S (Z.to_nat total)) by lia.
    rewrite (take_S_r _ _ (b mod 256)) by (apply list_lookup_insert_eq; lia).
    rewrite take_insert_ge by lia.
    rewrite <- app_assoc. cbn [app]. f_equal. f_equal. f_equal.
    rewrite drop_insert_lt by lia. f_equal. lia.
Qed.

(** X21. The image download stores only inside the block of 1024 bytes
    it works on (the one already held, or the one [malloc] hands out in
    this call; without a block nothing is done), from its start, and
    leaves the bytes behind the last one stored as they were; the image
    is marked valid when 1024 bytes were stored.  Whatever the call
    meets, it makes no store outside the block and never clears a flag
    already set, also when fewer bytes came. *)
Theorem updateLuckyImage_stores (e : env) (url : string) (st : state) :
  (forall buf, block e st = Some buf -> length buf = 1024%nat) ->
  (exists st',
      updateLuckyImage e url st = Some st'
      /\ (luckyImageValid st = true -> luckyImageValid st' = true)
      /\ (forall buf', luckyImageBuffer st' = Some buf' ->
            length buf' = 1024%nat))
  /\ (wifi_connected e = true -> url <> ""%string ->
      client_allocated e = true -> http_begin_ok e = true ->
      httpCode e = 200 -> 0 < getSize e ->
      let bytes := stored_bytes (t_start e) (passes e) 0 in
      (length bytes <= 1024)%nat
      /\ updateLuckyImage e url st
         = Some match block e st with
                | Some buf =>
                    {| luckyImageBuffer := Some (bytes ++ drop (length bytes) buf);
                       luckyImageValid :=
                         if Nat.eqb (length bytes) 1024 then true
                         else luckyImageValid st |}
                | None => st
                end).
Proof.
  intros Hblock.
  assert (Hdown : (getSize e >? 0) = true ->
            match block e st with
            | Some buf =>
                (length (stored_bytes (t_start e) (passes e) 0) <= 1024)%nat
                /\ (if getSize e >? 0
                    then match fill (t_start e) (passes e) buf 0 with
                         | Some (buf', total) =>
                             Some {| luckyImageBuffer := Some buf';
                                     luckyImageValid :=
                                       if total =? 1024 then true
                                       else luckyImageValid st |}
                         | None => None
                         end
                    else Some {| luckyImageBuffer := Some buf;
                                 luckyImageValid := luckyImageValid st |})
                   = Some {| luckyImageBuffer :=
                               Some (stored_bytes (t_start e) (passes e) 0
                                       ++ drop (length (stored_bytes (t_start e)
                                                          (passes e) 0)) buf);
                             luckyImageValid :=
                               if Nat.eqb (length (stored_bytes (t_start e)
                                                     (passes e) 0)) 1024
                               then true else luckyImageValid st |}
            | None => True
            end).
  { intros Hs. destruct (block e st) as [buf |] eqn:Hb; [| exact I].
    destruct (fill_stores (t_start e) (passes e) buf 0) as [Hfill Hle];
      [lia | exact (Hblock buf eq_refl) |].
    split; [lia |]. rewrite Hs, Hfill. cbn [take Z.to_nat app Nat.add].
    f_equal. f_equal.
    destruct (Nat.eqb_spec (length (stored_bytes (t_start e) (passes e) 0)) 1024)
      as [-> | Hne]; [reflexivity |].
    destruct (_ =? 1024) eqn:E; [lia | reflexivity]. }
  split.
  - unfold updateLuckyImage. fold (block e st).
    destruct (negb (wifi_connected e) || String.eqb url "").
    { exists st. split; [reflexivity |]. split; [auto |].
      intros buf' Hb. apply Hblock. unfold block. rewrite Hb. reflexivity. }
    destruct (block e st) as [buf |] eqn:Hb.
    2: { exists st. split; [reflexivity |]. split; [auto |].
         intros buf' Hb'. unfold block in Hb. rewrite Hb' in Hb. discriminate. }
    assert (Hkeep : exists st',
               Some {| luckyImageBuffer := Some buf;
                       luckyImageValid := luckyImageValid st |} = Some st'
               /\ (luckyImageValid st = true -> luckyImageValid st' = true)
               /\ (forall buf', luckyImageBuffer st' = Some buf' ->
                     length buf' = 1024%nat)).
    { eexists. split; [reflexivity |]. split; [auto |].
      intros buf' [= <-]. exact (Hblock buf eq_refl). }
    destruct (negb (client_allocated e)); [exact Hkeep |].
    destruct (http_begin_ok e); [| exact Hkeep].
    destruct (httpCode e =? 200); [| exact Hkeep].
    destruct (getSize e >? 0) eqn:Hs; [| exact Hkeep].
    destruct (Hdown eq_refl) as [Hle Heq]. rewrite Heq.
    eexists. split; [reflexivity |]. split.
    + cbn. intros ->. destruct (Nat.eqb _ 1024); reflexivity.
    + cbn. intros buf' [= <-].
      rewrite length_app, length_drop. rewrite (Hblock buf eq_refl). lia.
  - intros Hw Hurl Hc Hbg Hcode Hsize. cbv zeta.
    assert (Hs : (getSize e >? 0) = true) by lia.
    specialize (Hdown Hs).
    unfold updateLuckyImage. fold (block e st).
    apply String.eqb_neq in Hurl. rewrite Hw, Hurl. cbn [negb orb].
    destruct (block e st) as [buf |].
    + destruct Hdown as [Hle Heq]. split; [exact Hle |].
      rewrite Hc, Hbg, Hcode. cbn [negb Z.eqb]. rewrite Heq. reflexivity.
    + split; [| reflexivity].
      destruct (fill_stores (t_start e) (passes e) (replicate 1024 0) 0)
        as [_ Hle]; [rewrite length_replicate; lia | apply length_replicate |].
      lia.
Qed.

(** The first call after boot, with a download that breaks off after two
    bytes: the block comes from the heap, holds the two bytes and is not
    marked valid.  The same download over an image held and shown: the
    flag stays set. *)
Lemma updateLuckyImage_stores_witness :
  updateLuckyImage two_bytes "https://example.org/i.bin" after_boot
  = Some {| luckyImageBuffer := Some (7 :: 44 :: replicate 1022 170);
            luckyImageValid := false |}
  /\ updateLuckyImage two_bytes "https://example.org/i.bin" shown_image
     = Some {| luckyImageBuffer := Some (7 :: 44 :: replicate 1022 255);
               luckyImageValid := true |}.
Proof.
  split.
  - refine (proj2 (proj2 (updateLuckyImage_stores two_bytes
                            "https://example.org/i.bin" after_boot _)
                     _ _ _ _ _ _)).
    + intros buf [= <-]. reflexivity.
    + reflexivity.
    + discriminate.
    + reflexivity.
    + reflexivity.
    + reflexivity.
    + simpl. lia.
  - refine (proj2 (proj2 (updateLuckyImage_stores two_bytes
                            "https://example.org/i.bin" shown_image _)
                     _ _ _ _ _ _)).
    + intros buf [= <-]. reflexivity.
    + reflexivity.
    + discriminate.
    + reflexivity.
    + reflexivity.
    + reflexivity.
    + simpl. lia.
Defined.

End LuckyFacts.

Section FormFacts.
Import WString Config Form.

Lemma digits_value_nonneg s acc : 0 <= acc -> 0 <= digits_value s acc.
Proof.
  revert acc. induction s as [| c s IH]; intros acc H; cbn; [exact H |].
  destruct (Float.is_digit c) eqn:E; [| exact H].
  apply IH. unfold Float.is_digit in E. cbv zeta in E. lia.
Qed.

Lemma toInt_range s : - 2 ^ 31 <= toInt s < 2 ^ 31.
Proof.
  unfold toInt. destruct (trim_left s) as [| c t]; [cbn; lia |].
  pose proof (digits_value_nonneg t 0 ltac:(lia)).
  pose proof (digits_value_nonneg (String c t) 0 ltac:(lia)).
  destruct c as [[] [] [] [] [] [] [] []]; cbv beta iota; lia.
Qed.

(** X22. A form with an SSID, a city and a time zone is saved and the
    device restarts; when its fields fit their slots, the next boot in
    normal mode loads exactly what was submitted, with the time zone
    read as a decimal number, and keeps the stored firmware tag.  A form
    that lacks one of the three is refused. *)
Theorem form_save_reboot (a : args) (cfg : settings) (e : list Z) (etag : string) :
  length e = Z.to_nat EEPROM_SIZE ->
  fits (ssid a) 69 -> fits (pass a) 69 -> fits (newCity a) 69 ->
  fits (newGreeting a) 149 -> fits (newFirmware a) 149 ->
  fits (newLuckyImg a) 199 ->
  load_field e ADDR_ETAG 100 (Some 99) = Done etag ->
  if (len (ssid a) >? 0) && (len (newCity a) >? 0) && (len (tzStr a) >? 0)
  then exists cfg' rom',
      handleConfigForm a cfg e = SavedRestart cfg' rom'
      /\ setup rom' false
         = Done ({| wifiSSID := ssid a; wifiPass := pass a; city := newCity a;
                    greetingUrl := newGreeting a; firmwareUrl := newFirmware a;
                    luckyImageUrl := newLuckyImg a;
                    timezoneOffset := toInt (tzStr a);
                    currentFirmwareETag := trim etag |}, 0)
  else handleConfigForm a cfg e = InvalidInput.
Proof.
  intros Hlen Hs Hp Hc Hg Hf Hl Hetag. unfold handleConfigForm.
  destruct (_ && _); [| reflexivity].
  eexists _, _. split; [reflexivity |].
  assert (Htz : - 2 ^ 31 <= toInt (tzStr a) < 2 ^ 31).
  { apply toInt_range. }
  match goal with |- setup (saveSettings ?c e) false = _ =>
    destruct (save_load_within_capacity c e Hlen Hs Hp Hc Hg Hf Hl Htz)
      as [Hsig Hload]
  end.
  unfold setup. rewrite Hsig, Hload, Hetag. reflexivity.
Qed.

Lemma form_save_reboot_witness :
  exists cfg' rom',
    handleConfigForm home_form initial_settings erased = SavedRestart cfg' rom'
    /\ setup rom' false
       = Done ({| wifiSSID := "home"; wifiPass := "secret"; city := "Hanoi";
                  greetingUrl := "https://example.org/g.txt";
                  firmwareUrl := ""; luckyImageUrl := "";
                  timezoneOffset := 25200; currentFirmwareETag := "" |}, 0).
Proof.
  refine (form_save_reboot home_form initial_settings erased "" _ _ _ _ _ _ _ _).
  - reflexivity.
  - split; [vm_compute; discriminate | reflexivity].
  - split; [vm_compute; discriminate | reflexivity].
  - split; [vm_compute; discriminate | reflexivity].
  - split; [vm_compute; discriminate | reflexivity].
  - split; [vm_compute; discriminate | reflexivity].
  - split; [vm_compute; discriminate | reflexivity].
  - vm_compute. reflexivity.
Defined.

End FormFacts.

Section SchedFacts.
Import Sched.

Lemma backdated_age' t d back :
  0 <= d -> 0 <= back -> d + back < 2 ^ 32 ->
  usub ((t + d) mod 2 ^ 32) ((t - back) mod 2 ^ 32) = d + back.
Proof.
  intros Hd Hb Hlt. unfold usub.
  rewrite Zminus_mod_idemp_l, Zminus_mod_idemp_r.
  replace (t + d - (t - back)) with (d + back) by lia.
  apply Z.mod_small. lia.
Qed.

(** X23. After a boot at [t] the first update check is made in the first
    pass of the loop more than 30 s later, whatever the clock reads; if
    that check sees a tag other than the stored one, the update starts
    in the same pass, for that tag. *)
Theorem first_check_after_30s (t d : Z) (cfg : Config.settings) (rom : list Z)
    (tag : string) (ue : OTA.env) :
  0 <= d < 2 ^ 32 - 570000 ->
  Config.firmwareUrl cfg <> ""%string -> tag <> ""%string ->
  Config.currentFirmwareETag cfg <> tag ->
  loop_ota ((t + d) mod 2 ^ 32) (OTA.tagged tag) ue (Config.firmwareUrl cfg)
    (booted t cfg rom)
  = if d >? 30000
    then Update
           (fst (OTA.startOTAUpdate ue (Config.firmwareUrl cfg) tag rom))
           (snd (OTA.startOTAUpdate ue (Config.firmwareUrl cfg) tag rom))
    else GoOn (booted t cfg rom).
Proof.
  intros Hd Hurl Htag Hne. unfold loop_ota, booted, first_check_stamp. cbn.
  replace (t - 600000 + 30000) with (t - 570000) by lia.
  rewrite backdated_age' by lia.
  destruct (d >? 30000) eqn:E.
  - assert (H : (d + 570000 >? 600000) = true) by lia. rewrite H. cbn.
    unfold OTA.checkForFirmwareUpdate. cbn.
    apply String.eqb_neq in Hurl, Htag, Hne. rewrite Hurl, Htag, Hne. cbn.
    rewrite orb_true_r. cbn. rewrite Htag. cbn.
    destruct (OTA.startOTAUpdate _ _ _ _). reflexivity.
  - assert (H : (d + 570000 >? 600000) = false) by lia. rewrite H. reflexivity.
Qed.

Lemma first_check_after_30s_witness :
  loop_ota 35001 (OTA.tagged "v2") OTA.full_length_env
    "https://example.org/fw.bin" (booted 5000 updatable Config.erased)
  = Update (OTA.UpdateSuccess 2048) (OTA.persist_etag "v2" Config.erased)
  /\ loop_ota 35000 (OTA.tagged "v2") OTA.full_length_env
       "https://example.org/fw.bin" (booted 5000 updatable Config.erased)
     = GoOn (booted 5000 updatable Config.erased).
Proof.
  split.
  - refine (first_check_after_30s 5000 30001 updatable Config.erased "v2"
              OTA.full_length_env _ _ _ _).
    + lia.
    + discriminate.
    + discriminate.
    + discriminate.
  - refine (first_check_after_30s 5000 30000 updatable Config.erased "v2"
              OTA.full_length_env _ _ _ _).
    + lia.
    + discriminate.
    + discriminate.
    + discriminate.
Defined.

End SchedFacts.

Section AccentFacts.
Import WString Accents.

Lemma replace_from_ascii find repl c s :
  128 <= char_code c -> ascii_only s = true ->
  replace_from (String c find) repl O s = s.
Proof.
  intros Hc. induction s as [| b s IH]; intros Hs; [reflexivity |].
  cbn in Hs. apply andb_true_iff in Hs as [Hb Hs].
  cbn [replace_from starts_with].
  destruct (Ascii.eqb c b) eqn:E.
  - apply Ascii.eqb_eq in E. subst b. lia.
  - cbn. now rewrite IH.
Qed.

Lemma replace_ascii find repl c s :
  128 <= char_code c -> ascii_only s = true ->
  replace s (String c find) repl = s.
Proof.
  intros Hc Hs. unfold replace.
  destruct (isEmpty s || isEmpty (String c find)); [reflexivity |].
  now apply replace_from_ascii.
Qed.

Lemma starts_with_length p s :
  starts_with p s = true -> (String.length p <= String.length s)%nat.
Proof.
  revert s. induction p as [| a p IH]; intros s H; cbn; [lia |].
  destruct s as [| b s]; cbn in *; [discriminate |].
  apply andb_true_iff in H as [_ H]. apply IH in H. lia.
Qed.

Lemma append_length a b :
  String.length (a ++ b) = (String.length a + String.length b)%nat.
Proof. induction a as [| c a IH]; cbn; [reflexivity | now rewrite IH]. Qed.

Lemma replace_from_length find repl k s :
  (String.length repl <= String.length find)%nat ->
  (String.length (replace_from find repl k s) + Nat.min k (String.length s)
   <= String.length s)%nat.
Proof.
  intros Hle. revert k. induction s as [| b s IH]; intros k; cbn; [lia |].
  destruct k as [| k].
  - destruct (starts_with find (String b s)) eqn:E.
    + apply starts_with_length in E. cbn in E.
      rewrite append_length.
      specialize (IH (Nat.pred (String.length find))). lia.
    + cbn. specialize (IH O). lia.
  - specialize (IH k). lia.
Qed.

Lemma replace_length s find repl :
  (String.length repl <= String.length find)%nat ->
  (String.length (replace s find repl) <= String.length s)%nat.
Proof.
  intros Hle. unfold replace. destruct (_ || _); [lia |].
  pose proof (replace_from_length find repl O s Hle). lia.
Qed.

Lemma table_ok : forallb table_entry_ok table = true.
Proof. vm_compute. reflexivity. Qed.

(** X24. Accent folding never lengthens a text, and a text of 7-bit
    characters comes out as it went in. *)
Theorem removeAccents_ascii (s : string) :
  (String.length (removeAccents s) <= String.length s)%nat
  /\ (ascii_only s = true -> removeAccents s = s).
Proof.
  unfold removeAccents. pose proof table_ok as Hok. revert Hok.
  generalize table. intros t. revert s.
  induction t as [| [f r] t IH]; intros s Hok; cbn; [split; [lia | auto] |].
  cbn in Hok. apply andb_true_iff in Hok as [Hp Hok].
  unfold table_entry_ok in Hp. cbn in Hp.
  destruct f as [| c f]; [discriminate |].
  apply andb_true_iff in Hp as [Hc Hlen].
  apply Z.leb_le in Hc. apply Nat.leb_le in Hlen.
  destruct (IH (replace s (String c f) r) Hok) as [IH1 IH2].
  split.
  - pose proof (replace_length s (String c f) r Hlen). lia.
  - intros Hs. rewrite (replace_ascii f r c s Hc Hs) in *. auto.
Qed.

Lemma removeAccents_ascii_witness :
  removeAccents "Ho Chi Minh" = "Ho Chi Minh"%string.
Proof.
  apply (proj2 (removeAccents_ascii "Ho Chi Minh")). reflexivity.
Defined.

(** X25. Each accented letter of the table folds to the letter the table
    gives for it: no earlier [replace] of the chain takes a part of it. *)
Theorem removeAccents_table (p : string * string) :
  In p table -> removeAccents (fst p) = snd p.
Proof.
  intros Hin.
  assert (H : forallb (fun q => String.eqb (removeAccents (fst q)) (snd q)) table
              = true) by (vm_compute; reflexivity).
  rewrite forallb_forall in H. apply String.eqb_eq. exact (H p Hin).
Qed.

Lemma removeAccents_table_witness :
  removeAccents (utf8 [225; 187; 135]) = "e"%string.
Proof.
  apply (removeAccents_table (entry [225; 187; 135] "e")).
  unfold table.
  repeat (first [left; reflexivity | right]).
Defined.

End AccentFacts.

Section Hu061Facts.
Import WString Net Hu061.

(** X26. The older sketch reports a fetch as good only with a temperature
    and a condition that are not empty; on a body line it leaves the
    same snapshot as the parser of the current firmware, which has no
    such test. *)
Theorem getWeather_validates (e : env) (w : snapshot) :
  (snd (getWeather e w) = true ->
   weatherTemp (fst (getWeather e w)) <> ""%string
   /\ weatherCond (fst (getWeather e w)) <> ""%string)
  /\ (wifi_connected e = true -> connect_ok e = true ->
      header_found e = true -> indexOf_str (line e) CRLFCRLF = -1 ->
      fst (getWeather e w) = parseWeatherData (line e) w).
Proof.
  split.
  - unfold getWeather. cbv zeta.
    destruct (negb (wifi_connected e)); [discriminate |].
    destruct (negb (connect_ok e)); [discriminate |].
    destruct (negb (header_found e)); [discriminate |].
    destruct (len _ =? 0); [discriminate |].
    destruct (_ || _ || _ || _); [discriminate |].
    cbn [weatherTemp weatherCond].
    destruct (String.eqb _ "") eqn:Et; [discriminate |].
    destruct (String.eqb _ "") eqn:Ec in |- *; [discriminate |].
    intros _. cbn. split; apply String.eqb_neq; assumption.
  - intros Hw Hc Hh Hno. unfold getWeather, parseWeatherData.
    rewrite Hw, Hc, Hh, Hno. cbv zeta. cbn [negb Z.eqb].
    change (-1 =? -1) with true. cbn [negb].
    destruct (len _ =? 0); [reflexivity |].
    destruct (_ || _ || _ || _); [reflexivity |].
    cbn [weatherTemp weatherCond].
    destruct (_ || _); reflexivity.
Qed.

Lemma getWeather_validates_witness :
  weatherCond
    (fst (getWeather (answering "+21|Partly cloudy|56|11 km/h|1015 hPa")
            (weather boot_state))) <> ""%string
  /\ fst (getWeather (answering "+21||56|11 km/h|1015 hPa") (weather boot_state))
     = parseWeatherData "+21||56|11 km/h|1015 hPa" (weather boot_state)
  /\ snd (getWeather (answering "+21||56|11 km/h|1015 hPa") (weather boot_state))
     = false.
Proof.
  split; [| split].
  - refine (proj2 (proj1 (getWeather_validates
                            (answering "+21|Partly cloudy|56|11 km/h|1015 hPa")
                            (weather boot_state)) _)).
    vm_compute. reflexivity.
  - apply (proj2 (getWeather_validates (answering "+21||56|11 km/h|1015 hPa")
                    (weather boot_state))); reflexivity.
  - vm_compute. reflexivity.
Defined.

End Hu061Facts.
